(** * update_packages: the package-index reconciliation engine

    A shallow embedding of [tools/update_packages.py] and the properties of
    its stanza store, field accessor, artifact resolver, metadata
    reconciler, planner and applier.

    Modelling conventions.
    - A Python [str] is a [list ascii]; one [ascii] stands for one code
      point in the range U+0000..U+00FF.  Whitespace ([str.isspace], the
      regex class [\s]), lower-casing ([str.lower], [re.IGNORECASE]) and
      line boundaries ([str.splitlines]) are the ones Python defines on
      that range.
    - [Optional[str]] is [option str]; a Python truth test on it is
      [truthy].
    - Paths follow POSIX conventions ([os.path.basename] cuts at the
      last slash).
    - The artifact directory [DEBS] is a flat listing of regular files in
      the order the file system enumerates them: a list of
      (name, content) pairs; a declared base name denotes the file of
      that name, if there is one.  The empty name, [.] and [..] denote
      the directory itself or its parent: such a path exists, and
      opening it to hash it raises [IsADirectoryError].  The directory
      holds no sub-directories.
    - [hashlib] and the glob matcher of [pathlib] are parameters of the
      development.
    - Diagnostics printed under [verbose] and [dry_run] are left out. *)

From Stdlib Require Import Ascii String.
From Stdlib Require Import List Bool Arith NArith ZArith Lia.
From Stdlib Require Import Permutation DecimalString.
From Stdlib Require Strings.Byte.
Import ListNotations.

Open Scope string_scope.
Open Scope nat_scope.
Open Scope list_scope.

(* ================================================================== *)
(** * Strings *)

Definition str : Type := list ascii.

Definition lit (s : string) : list ascii := list_ascii_of_string s.
Coercion lit : string >-> list.

Definition LF : ascii := "010"%char.
Definition CR : ascii := "013"%char.

Definition code (c : ascii) : N := N_of_ascii c.

(** [str.isspace] on one character, also the regex class [\s]:
    U+0009..U+000D, U+001C..U+0020, U+0085 and U+00A0. *)
Definition isspace (c : ascii) : bool :=
  let n := code c in
  ((9 <=? n) && (n <=? 13) || (28 <=? n) && (n <=? 32)
   || (n =? 133) || (n =? 160))%N.

(** The characters [str.splitlines] breaks a line at: LF, VT, FF, CR,
    FS, GS, RS and NEL (CR LF counts as one boundary). *)
Definition is_linebreak (c : ascii) : bool :=
  let n := code c in
  ((10 <=? n) && (n <=? 13) || (28 <=? n) && (n <=? 30) || (n =? 133))%N.

(** [str.lower] on one character: A..Z and the capitals U+00C0..U+00DE
    (the multiplication sign U+00D7 apart) move up by 32. *)
Definition lower_char (c : ascii) : ascii :=
  let n := code c in
  if ((65 <=? n) && (n <=? 90)
      || (192 <=? n) && (n <=? 222) && negb (n =? 215))%N
  then ascii_of_N (n + 32) else c.

Definition lower (s : str) : str := map lower_char s.

Definition str_eqb (a b : str) : bool :=
  if list_eq_dec ascii_dec a b then true else false.

Fixpoint dropwhile (p : ascii -> bool) (s : str) : str :=
  match s with
  | [] => []
  | c :: s' => if p c then dropwhile p s' else s
  end.

Definition lstrip (s : str) : str := dropwhile isspace s.
Definition rstrip (s : str) : str := rev (dropwhile isspace (rev s)).

(** [s.strip()] *)
Definition strip (s : str) : str := rstrip (lstrip s).

(** [sep.join(l)] *)
Fixpoint join (sep : str) (l : list str) : str :=
  match l with
  | [] => []
  | x :: rest =>
      match rest with
      | [] => x
      | _ :: _ => x ++ sep ++ join sep rest
      end
  end.

Definition cons_first (c : ascii) (l : list str) : list str :=
  match l with
  | [] => [[c]]
  | x :: rest => (c :: x) :: rest
  end.

(** [s.splitlines()]: a boundary closes the current line, the text after
    the last boundary is a line only when it is not empty. *)
Fixpoint splitlines (s : str) : list str :=
  match s with
  | [] => []
  | c :: s' =>
      if is_linebreak c then
        match s' with
        | d :: r =>
            if (Ascii.eqb c CR && Ascii.eqb d LF)%bool
            then [] :: splitlines r
            else [] :: splitlines s'
        | [] => [[]]
        end
      else cons_first c (splitlines s')
  end.

Definition startswith (p s : str) : bool := str_eqb (firstn (length p) s) p.
Definition endswith (p s : str) : bool :=
  str_eqb (skipn (length s - length p) s) p.

(* ================================================================== *)
(** * StanzaStore *)

Definition EOL : str := [CR; LF].

(** Greedy [(?:\r?\n)*] at the head of [s]: the number of line breaks
    taken and the text left.  One [\r?\n] is either LF or CR LF; a CR not
    followed by LF ends the run. *)
Fixpoint eol_run (s : str) : nat * str :=
  match s with
  | c :: s1 =>
      if Ascii.eqb c LF then
        let '(n, r) := eol_run s1 in (S n, r)
      else if Ascii.eqb c CR then
        match s1 with
        | d :: s2 =>
            if Ascii.eqb d LF then
              let '(n, r) := eol_run s2 in (S n, r)
            else (0, s)
        | [] => (0, s)
        end
      else (0, s)
  | [] => (0, s)
  end.

(** Length in characters of the match of [(?:\r?\n){2,}] that starts at
    the head of [s]; 0 when there is none. *)
Definition sep_len (s : str) : nat :=
  let '(n, r) := eol_run s in
  if 2 <=? n then length s - length r else 0.

(** [re.split(r"(?:\r?\n){2,}", text)]: scan left to right; where a match
    starts, the piece read so far is closed and the matched characters
    are skipped ([skip] counts the ones still to drop). *)
Fixpoint re_split_go (skip : nat) (cur : str) (s : str) : list str :=
  match s with
  | [] => [cur]
  | c :: s' =>
      match skip with
      | S k => re_split_go k cur s'
      | O =>
          match sep_len s with
          | O => re_split_go 0 (cur ++ [c]) s'
          | S m => cur :: re_split_go m [] s'
          end
      end
  end.

Definition re_split_blank (text : str) : list str := re_split_go 0 [] text.

Definition nonblank (p : str) : bool :=
  match strip p with [] => false | _ :: _ => true end.

Definition parse_stanzas (text : str) : list str :=
  filter nonblank (re_split_blank text).

Definition join_stanzas (stanzas : list str) : str :=
  join (EOL ++ EOL) (map strip stanzas) ++ EOL.

(* ================================================================== *)
(** * Regular-expression pieces

    The patterns of the field accessor are sequences of greedy
    quantifiers over one-character classes, literals and one group.  Each
    piece takes the rest of the pattern as a continuation [k]; a greedy
    quantifier first tries the longest stretch and gives characters back
    one at a time while [k] fails, as the backtracking matcher of [re]
    does. *)

Section Regex.
Context {A : Type}.

(** [p*] (greedy), then [k]. *)
Fixpoint re_star (p : ascii -> bool) (k : str -> option A) (s : str)
  : option A :=
  match s with
  | c :: s' =>
      if p c then
        match re_star p k s' with
        | Some r => Some r
        | None => k s
        end
      else k s
  | [] => k s
  end.

(** A literal, compared without regard to case ([re.IGNORECASE]), then
    [k].  On the code points of this model two characters match exactly
    when their lower-case forms are equal.  The characters that
    [re.IGNORECASE] also lets match an ASCII letter (U+017F with [s],
    U+0130 and U+0131 with [i], U+212A with [k]) lie beyond U+00FF and
    are outside the model; there [re.IGNORECASE] and [str.lower] part. *)
Fixpoint re_lit_ci (key : str) (k : str -> option A) (s : str)
  : option A :=
  match key with
  | [] => k s
  | a :: key' =>
      match s with
      | c :: s' =>
          if Ascii.eqb (lower_char c) (lower_char a)
          then re_lit_ci key' k s' else None
      | [] => None
      end
  end.

(** One given character, then [k]. *)
Definition re_chr (a : ascii) (k : str -> option A) (s : str)
  : option A :=
  match s with
  | c :: s' => if Ascii.eqb c a then k s' else None
  | [] => None
  end.

(** A group [(p* )] whose text so far is [g] (greedy), then [k] on the
    captured text and the rest. *)
Fixpoint re_star_cap (p : ascii -> bool) (k : str -> str -> option A)
    (g : str) (s : str) : option A :=
  match s with
  | c :: s' =>
      if p c then
        match re_star_cap p k (g ++ [c]) s' with
        | Some r => Some r
        | None => k g s
        end
      else k g s
  | [] => k g s
  end.

(** A group [(p+)] (greedy), then [k]. *)
Definition re_plus_cap (p : ascii -> bool) (k : str -> str -> option A)
    (s : str) : option A :=
  match s with
  | c :: s' => if p c then re_star_cap p k [c] s' else None
  | [] => None
  end.
End Regex.

(** [.] without DOTALL: any character but LF. *)
Definition re_dot (c : ascii) : bool := negb (Ascii.eqb c LF).

(** [[^:]] *)
Definition not_colon (c : ascii) : bool := negb (Ascii.eqb c ":"%char).

(** [$] without MULTILINE: at the end of the text, or just before a LF
    that ends it. *)
Definition re_at_end (s : str) : bool :=
  match s with
  | [] => true
  | [c] => Ascii.eqb c LF
  | _ => false
  end.

(* ================================================================== *)
(** * FieldAccessor *)

(** [re.compile(rf"^\s*{re.escape(key)}\s*:\s*(.+)$", re.IGNORECASE).match(ln)]:
    the text of group 1 when the line matches. *)
Definition match_field (key : str) (ln : str) : option str :=
  re_star isspace
    (re_lit_ci key
       (re_star isspace
          (re_chr ":"%char
             (re_star isspace
                (re_plus_cap re_dot
                   (fun g rest => if re_at_end rest then Some g else None))))))
    ln.

Fixpoint get_field_from (i : nat) (lines : list str) (key : str)
  : option nat * option str :=
  match lines with
  | [] => (None, None)
  | ln :: rest =>
      match match_field key ln with
      | Some g => (Some i, Some (strip g))
      | None => get_field_from (S i) rest key
      end
  end.

Definition get_field (lines : list str) (key : str)
  : option nat * option str :=
  get_field_from 0 lines key.

(** [lines[idx] = line] for an index in range. *)
Fixpoint list_set (l : list str) (idx : nat) (line : str) : list str :=
  match l, idx with
  | [], _ => []
  | _ :: rest, O => line :: rest
  | x :: rest, S i => x :: list_set rest i line
  end.

Definition set_field (lines : list str) (key value : str) : list str :=
  let line := key ++ ": " ++ value in
  match fst (get_field lines key) with
  | None => lines ++ [line]
  | Some idx => list_set lines idx line
  end.

(** [re.match(r"^\s*([^:]+)\s*:\s*", ln)]: the text of group 1. *)
Definition match_name (ln : str) : option str :=
  re_star isspace
    (re_plus_cap not_colon
       (fun g rest =>
          re_star isspace
            (re_chr ":"%char (re_star isspace (fun _ => Some g))) rest))
    ln.

Definition str_in (x : str) (l : list str) : bool := existsb (str_eqb x) l.

(** The test of the loop of [remove_fields]: the line is dropped. *)
Definition removed (keys_lc : list str) (ln : str) : bool :=
  match match_name ln with
  | Some g => str_in (lower (strip g)) keys_lc
  | None => false
  end.

Definition remove_fields (lines : list str) (keys : list str) : list str :=
  let keys_lc := map lower keys in
  filter (fun ln => negb (removed keys_lc ln)) lines.

(* ================================================================== *)
(** * MetadataReconciler: the file-name convention *)

(** [s.rpartition(c)] without the separator: the text before and after
    the last [c], when there is one. *)
Fixpoint rpartition (c : ascii) (s : str) : option (str * str) :=
  match s with
  | [] => None
  | a :: s' =>
      match rpartition c s' with
      | Some (before, after) => Some (a :: before, after)
      | None => if Ascii.eqb a c then Some ([], s') else None
      end
  end.

(** [s.rsplit(c, maxsplit)] *)
Fixpoint rsplit (c : ascii) (maxsplit : nat) (s : str) : list str :=
  match maxsplit with
  | O => [s]
  | S n =>
      match rpartition c s with
      | Some (before, after) => rsplit c n before ++ [after]
      | None => [s]
      end
  end.

(** [s.split(c, 1)[0]]: the text before the first [c] (all of [s] when
    there is none). *)
Fixpoint before_first (c : ascii) (s : str) : str :=
  match s with
  | [] => []
  | a :: s' => if Ascii.eqb a c then [] else a :: before_first c s'
  end.

Definition contains_char (c : ascii) (s : str) : bool :=
  existsb (Ascii.eqb c) s.

Definition parse_deb_filename (name : str) : option (str * str * str) :=
  if negb (endswith ".deb" name) then None
  else
    let base := firstn (length name - 4) name in
    match rsplit "_"%char 2 base with
    | [pkg; ver; arch] =>
        let ver :=
          if ((startswith "v" ver || startswith "V" ver)
              && (1 <? length ver))%bool
          then skipn 1 ver else ver in
        let arch :=
          if contains_char "."%char arch
          then before_first "."%char arch else arch in
        Some (pkg, ver, arch)
    | _ => None
    end.

(* ================================================================== *)
(** * UpdatePlan and the Applier *)

Record UpdatePlan : Type := mkPlan {
  stanza_index : Z;
  filename : str;
  size : Z;
  md5 : str;
  sha1 : str;
  sha256 : str;
  fix_pkg : option str;
  fix_ver : option str;
  fix_arch : option str;
  fix_filename : option str;
  icon_url : option str
}.

(** The truth value of an [Optional[str]]: neither [None] nor empty. *)
Definition truthy (o : option str) : bool :=
  match o with
  | Some (_ :: _) => true
  | _ => false
  end.

(** [f"{n}"] for an [int]. *)
Definition str_of_int (n : Z) : str := NilZero.string_of_int (Z.to_int n).

(** [if plan.fix_x: lines = set_field(lines, key, plan.fix_x)] *)
Definition set_if (corr : option str) (key : str) (lines : list str)
  : list str :=
  match corr with
  | Some (c :: v) => set_field lines key (c :: v)
  | _ => lines
  end.

Definition HASH_KEYS : list str := ["Size" : str; "MD5sum" : str; "SHA1" : str; "SHA256" : str].

(** The body of the loop of [apply_plans] on the lines of one stanza, up
    to the four lines appended. *)
Definition corrected_lines (lines : list str) (plan : UpdatePlan)
  : list str :=
  let lines := remove_fields lines HASH_KEYS in
  let lines := set_if (fix_pkg plan) "Package" lines in
  let lines := set_if (fix_ver plan) "Version" lines in
  let lines := set_if (fix_arch plan) "Architecture" lines in
  let lines := set_if (fix_filename plan) "Filename" lines in
  set_if (icon_url plan) "Icon" lines.

Definition hash_lines (plan : UpdatePlan) : list str :=
  [ "Size: " ++ str_of_int (size plan);
    "MD5sum: " ++ md5 plan;
    "SHA1: " ++ sha1 plan;
    "SHA256: " ++ sha256 plan ].

Definition updated_lines (stanza : str) (plan : UpdatePlan) : list str :=
  corrected_lines (splitlines stanza) plan ++ hash_lines plan.

Definition new_stanza (stanza : str) (plan : UpdatePlan) : str :=
  join EOL (updated_lines stanza plan).

(** A Python list index: negative indices count from the end, anything
    outside [-n, n) raises [IndexError] ([None]). *)
Definition py_index (n : nat) (i : Z) : option nat :=
  if (0 <=? i)%Z then
    if (i <? Z.of_nat n)%Z then Some (Z.to_nat i) else None
  else
    if (- Z.of_nat n <=? i)%Z then Some (Z.to_nat (Z.of_nat n + i)) else None.

(** [apply_plans]; [None] stands for the [IndexError] of a plan whose
    index is out of range.  The lines printed under [verbose] or
    [dry_run] are not part of the model; the flags have no other
    effect. *)
Fixpoint apply_plans (stanzas : list str) (plans : list UpdatePlan)
  : option (list str) :=
  match plans with
  | [] => Some stanzas
  | plan :: rest =>
      match py_index (length stanzas) (stanza_index plan) with
      | Some i =>
          apply_plans
            (list_set stanzas i (new_stanza (nth i stanzas []) plan)) rest
      | None => None
      end
  end.

(* ================================================================== *)
(** * The file system seen by the planner *)

(** The content of a regular file. *)
Definition content : Type := list Byte.byte.

(** A directory of artifacts: its regular files, in the order the file
    system enumerates them. *)
Definition directory : Type := list (str * content).

(** An icon directory: [None] when the directory does not exist, else
    the relative paths under it that exist. *)
Definition icon_directory : Type := option (list str).

(** [(d / name)] as a regular file of [d]. *)
Fixpoint dir_lookup (d : directory) (name : str) : option content :=
  match d with
  | [] => None
  | (n, c) :: rest => if str_eqb n name then Some c else dir_lookup rest name
  end.

(** [(d / name)] is a regular file of [d]. *)
Definition is_file (d : directory) (name : str) : bool :=
  match dir_lookup d name with Some _ => true | None => false end.

(** The names under which [d / name] is the directory [d] itself or its
    parent: the empty name, [.] and [..].  Such a path exists and is a
    directory; a listing never holds these names. *)
Definition is_folder_name (name : str) : bool :=
  match name with
  | [] => true
  | _ :: _ => str_eqb name "." || str_eqb name ".."
  end.

(** [(d / name).exists()]: a regular file of [d], or the directory
    itself. *)
Definition path_exists (d : directory) (name : str) : bool :=
  is_file d name || is_folder_name name.

(** [os.path.basename] *)
Definition basename (p : str) : str :=
  match rpartition "/"%char p with
  | Some (_, after) => after
  | None => p
  end.

(** The order of [str]: lexicographic on code points. *)
Fixpoint str_leb (a b : str) : bool :=
  match a, b with
  | [], _ => true
  | _ :: _, [] => false
  | x :: a', y :: b' =>
      if (code x <? code y)%N then true
      else if (code y <? code x)%N then false
      else str_leb a' b'
  end.

(** [sorted] on names: a stable insertion sort. *)
Fixpoint insert_sorted (x : str) (l : list str) : list str :=
  match l with
  | [] => [x]
  | y :: rest => if str_leb x y then x :: l else y :: insert_sorted x rest
  end.

Definition sorted (l : list str) : list str := fold_right insert_sorted [] l.

(** [s.rstrip('/')] *)
Definition rstrip_slash (s : str) : str :=
  rev (dropwhile (Ascii.eqb "/"%char) (rev s)).

(** [s.replace('\\', '/')] *)
Definition backslash_to_slash (s : str) : str :=
  map (fun c => if Ascii.eqb c "\"%char then "/"%char else c) s.

Definition _find_icon_for_package (package_id : option str)
    (icons_dir : icon_directory) (icon_url_prefix : option str)
  : option str :=
  match package_id, icons_dir with
  | Some (c :: p), Some present =>
      let package_id := c :: p in
      let exts := [".png" : str; ".jpg" : str; ".jpeg" : str; ".webp" : str] in
      match find (fun ext => str_in (package_id ++ ext) present) exts with
      | Some ext =>
          let icon_name := backslash_to_slash (basename (package_id ++ ext)) in
          if truthy icon_url_prefix then
            match icon_url_prefix with
            | Some pre => Some (rstrip_slash pre ++ "/" ++ icon_name)
            | None => None
            end
          else Some ("icons/" ++ icon_name)
      | None => None
      end
  | _, _ => None
  end.

(* ================================================================== *)
(** * Planner *)

(** What one turn of the loop of [build_update_plans] does with its
    stanza. *)
Inductive turn : Type :=
| Skipped
| Planned (plan : UpdatePlan)
| IsADirectoryError.

Section Planner.

(** [hashlib.new(algo)] fed the whole content, then [hexdigest()]. *)
Variable hexdigest : str -> content -> str.

(** The name test of [Path.glob] for a one-component pattern. *)
Variable fnmatch : str -> str -> bool.

(** The state of [DEBS] and of [ICONS_DIR_DEFAULT]. *)
Variable DEBS : directory.
Variable ICONS_DIR_DEFAULT : icon_directory.

(** Reading the file in chunks and updating the digest with each
    amounts to hashing the content. *)
Definition file_hash (c : content) (algo : str) : str := hexdigest algo c.

(** [DEBS.glob(pattern)]: the names, in enumeration order. *)
Definition glob (pattern : str) : list str :=
  filter (fnmatch pattern) (map fst DEBS).

(** Lines 129..140 of [build_update_plans]: the name of the path kept
    in [deb_path], which is also [actual_name], and [fix_filename]. *)
Definition resolve_deb (deb_name : str) : str * option str :=
  if negb (path_exists DEBS deb_name) then
    if endswith ".deb" deb_name then
      let stem := firstn (length deb_name - 4) deb_name in
      match sorted (glob (stem ++ "*.deb")) with
      | first :: _ => (first, Some ("./debs/" ++ first))
      | [] => (deb_name, None)
      end
    else (deb_name, None)
  else (deb_name, None).

Definition opt_differs (cur : option str) (v : str) : bool :=
  match cur with
  | Some c => negb (str_eqb c v)
  | None => true
  end.

(** Lines 152..175: the three corrections and the package id. *)
Definition reconcile (fix_metadata : bool) (lines : list str)
    (actual_name : str)
  : option str * option str * option str * option str :=
  if fix_metadata then
    match parse_deb_filename actual_name with
    | Some (pkg, ver, arch) =>
        let cur_pkg := snd (get_field lines "Package") in
        let cur_ver := snd (get_field lines "Version") in
        let cur_arch := snd (get_field lines "Architecture") in
        (if opt_differs cur_pkg pkg then Some pkg else None,
         if opt_differs cur_ver ver then Some ver else None,
         if opt_differs cur_arch arch then Some arch else None,
         Some pkg)
    | None => (None, None, None, snd (get_field lines "Package"))
    end
  else (None, None, None, snd (get_field lines "Package")).

Definition only_excludes (only : option (list str)) (deb_name : str)
  : bool :=
  match only with
  | Some (x :: l) => negb (str_in deb_name (x :: l))
  | _ => false
  end.

(** The body of the loop of [build_update_plans] for stanza [i]: it
    skips the stanza ([continue]), appends a plan, or raises.  When
    [deb_path] exists but is the directory, [stat] succeeds and the
    [open] of [file_hash] raises [IsADirectoryError]. *)
Definition plan_stanza (only : option (list str)) (fix_metadata : bool)
    (add_icons : bool) (icons_dir : option icon_directory)
    (icon_url_prefix : option str) (i : nat) (stanza : str)
  : turn :=
  let lines := splitlines stanza in
  match snd (get_field lines "Filename") with
  | Some (c :: f) =>
      let deb_name := basename (c :: f) in
      if only_excludes only deb_name then Skipped
      else
        let '(actual_name, fix_filename) := resolve_deb deb_name in
        match dir_lookup DEBS actual_name with
        | None =>
            if is_folder_name actual_name then IsADirectoryError
            else Skipped
        | Some data =>
            let size := Z.of_nat (length data) in
            let md5 := file_hash data "md5" in
            let sha1 := file_hash data "sha1" in
            let sha256 := file_hash data "sha256" in
            let '(fix_pkg, fix_ver, fix_arch, pkg_id_val) :=
              reconcile fix_metadata lines actual_name in
            let icon_url :=
              if add_icons then
                _find_icon_for_package pkg_id_val
                  (match icons_dir with
                   | Some d => d
                   | None => ICONS_DIR_DEFAULT
                   end)
                  icon_url_prefix
              else None in
            Planned (mkPlan (Z.of_nat i) actual_name size md5 sha1 sha256
                       fix_pkg fix_ver fix_arch fix_filename icon_url)
        end
  | _ => Skipped
  end.

(** The loop from stanza [i] on: the plans appended, or [None] when a
    turn raises. *)
Fixpoint build_from (only : option (list str)) (fix_metadata : bool)
    (add_icons : bool) (icons_dir : option icon_directory)
    (icon_url_prefix : option str) (i : nat) (stanzas : list str)
  : option (list UpdatePlan) :=
  match stanzas with
  | [] => Some []
  | stanza :: rest =>
      match plan_stanza only fix_metadata add_icons icons_dir
              icon_url_prefix i stanza with
      | IsADirectoryError => None
      | Skipped =>
          build_from only fix_metadata add_icons icons_dir icon_url_prefix
            (S i) rest
      | Planned plan =>
          match build_from only fix_metadata add_icons icons_dir
                  icon_url_prefix (S i) rest with
          | Some tail => Some (plan :: tail)
          | None => None
          end
      end
  end.

(** [build_update_plans]: the list returned, or [None] when it raises
    [IsADirectoryError]; [verbose] only prints and is left out. *)
Definition build_update_plans (stanzas : list str)
    (only : option (list str)) (fix_metadata : bool) (add_icons : bool)
    (icons_dir : option icon_directory) (icon_url_prefix : option str)
  : option (list UpdatePlan) :=
  build_from only fix_metadata add_icons icons_dir icon_url_prefix
    0 stanzas.

End Planner.

(* ================================================================== *)
(** * Vocabulary of the statements *)

(** The first character, if any, is not white space. *)
Definition head_nonspace (x : str) : Prop :=
  match x with
  | [] => True
  | c :: _ => isspace c = false
  end.

(** The text is not empty and its last character is not white space. *)
Definition last_nonspace (x : str) : Prop :=
  exists x0 z, x = x0 ++ [z] /\ isspace z = false.

(** No match of [(?:\r?\n){2,}] starts anywhere in [s]. *)
Fixpoint no_blank_run (s : str) : bool :=
  match s with
  | [] => true
  | _ :: s' => (sep_len s =? 0) && no_blank_run s'
  end.

(** The version without its leading [v] or [V], which is dropped only
    when a character follows. *)
Definition drop_v (ver : str) : str :=
  match ver with
  | c :: d :: r =>
      if (Ascii.eqb c "v" || Ascii.eqb c "V")%bool then d :: r else ver
  | _ => ver
  end.

Definition count_char (c : ascii) (s : str) : nat :=
  length (filter (Ascii.eqb c) s).

(** The field name of a line as [remove_fields] reads it: group 1 of its
    pattern, trimmed and lower-cased. *)
Definition key_of (ln : str) : option str :=
  match match_name ln with
  | Some g => Some (lower (strip g))
  | None => None
  end.

(** The line is a [key] line for [get_field]. *)
Definition has_field (key : str) (ln : str) : bool :=
  match match_field key ln with Some _ => true | None => false end.

(** A key made of characters that are neither white space nor a colon,
    as every key the program uses. *)
Definition plain_key (key : str) : bool :=
  match key with
  | [] => false
  | _ :: _ => forallb (fun c => negb (isspace c) && not_colon c) key
  end.

(** The value part of the field pattern, after the colon: [\s*(.+)$]. *)
Definition match_value (rest : str) : option str :=
  re_star isspace
    (re_plus_cap re_dot
       (fun g rest => if re_at_end rest then Some g else None)) rest.

(** The first line of the stanza that carries field [key], if any. *)
Definition field_line (key : str) (lines : list str) : option str :=
  find (has_field key) lines.

(** The line carries field [key] for [remove_fields]: the text before
    its first colon, trimmed, is [key] in some casing. *)
Definition is_field_line (key : str) (ln : str) : bool :=
  removed [lower key] ln.

(** The line names field [key]: it holds a colon, and the text before
    its first colon, trimmed and lower-cased, is [key] lower-cased.  This
    reads a line without the regular expression of [remove_fields]. *)
Definition names_field (key ln : str) : bool :=
  contains_char ":" ln
  && str_eqb (lower (strip (before_first ":" ln))) (lower key).

Definition HASH_KEYS_LC : list str := map lower HASH_KEYS.

(** The head of a list is below every element of the list. *)
Definition head_least (l : list str) : Prop :=
  match l with
  | [] => True
  | x :: rest => Forall (fun y => str_leb x y = true) rest
  end.

(** A glob matcher for patterns without bracket expressions: [*] stands
    for any text, [?] for one character.  It instantiates the matcher
    parameter in the examples. *)
Fixpoint wild_match (pat : str) (s : str) : bool :=
  match pat with
  | [] => match s with [] => true | _ :: _ => false end
  | p :: pat' =>
      if Ascii.eqb p "*" then
        (fix any (t : str) : bool :=
           wild_match pat' t
           || match t with [] => false | _ :: t' => any t' end) s
      else
        match s with
        | [] => false
        | c :: s' => (Ascii.eqb p "?" || Ascii.eqb p c) && wild_match pat' s'
        end
  end.

(** The pattern of the fuzzy search for a declared name. *)
Definition fuzzy_pattern (deb_name : str) : str :=
  firstn (length deb_name - 4) deb_name ++ "*.deb".


(** The stanza has a [Filename] field that resolves to a file of the
    artifact directory, by its exact base name or by the fuzzy search. *)
Definition resolvable (fnmatch : str -> str -> bool) (DEBS : directory)
    (stanza : str) : bool :=
  match snd (get_field (splitlines stanza) "Filename") with
  | Some (c :: f) =>
      let deb_name := basename (c :: f) in
      is_file DEBS deb_name
      || (endswith ".deb" deb_name
          && existsb (fnmatch (fuzzy_pattern deb_name)) (map fst DEBS))
  | _ => false
  end.

(** The base name the stanza declares is the empty name, [.] or [..]:
    it names the artifact directory itself or its parent, not a file. *)
Definition names_folder (DEBS : directory) (stanza : str) : bool :=
  match snd (get_field (splitlines stanza) "Filename") with
  | Some (c :: f) =>
      let deb_name := basename (c :: f) in
      negb (is_file DEBS deb_name) && is_folder_name deb_name
  | _ => false
  end.

(** The turn appends a plan; the turn raises. *)
Definition is_planned (t : turn) : bool :=
  match t with Planned _ => true | _ => false end.

Definition is_raised (t : turn) : bool :=
  match t with IsADirectoryError => true | _ => false end.

(** The allow-list, when one is given, holds the base name the stanza
    declares. *)
Definition allowed (only : option (list str)) (stanza : str) : bool :=
  match snd (get_field (splitlines stanza) "Filename") with
  | Some (c :: f) => negb (only_excludes only (basename (c :: f)))
  | _ => true
  end.

Definition is_some {X : Type} (o : option X) : bool :=
  match o with Some _ => true | None => false end.

(** The text holds no character at which [str.splitlines] breaks. *)
Definition no_break (l : str) : bool :=
  forallb (fun c => negb (is_linebreak c)) l.

Definition opt_no_break (o : option str) : bool :=
  match o with Some v => no_break v | None => true end.

(** The corrections and digests of the plan hold no line boundary. *)
Definition plan_text_clean (plan : UpdatePlan) : bool :=
  no_break (md5 plan) && no_break (sha1 plan) && no_break (sha256 plan)
  && opt_no_break (fix_pkg plan) && opt_no_break (fix_ver plan)
  && opt_no_break (fix_arch plan) && opt_no_break (fix_filename plan)
  && opt_no_break (icon_url plan).

(** The text holds no line feed. *)
Definition no_lf (v : str) : bool := forallb re_dot v.

(** A derived value that is written and read back unchanged: not empty,
    already trimmed, without line feed. *)
Definition tidy (v : str) : bool :=
  match v with
  | [] => false
  | _ :: _ => str_eqb (strip v) v && no_lf v
  end.

(* ================================================================== *)
(** * Writer and entry point *)

(** [s.encode('utf-8')] for code points below U+0100: one byte below
    U+0080, two bytes from there on. *)
Definition byte_of_N (n : N) : Byte.byte :=
  match Stdlib.Strings.Byte.of_N n with
  | Some b => b
  | None => Byte.x00
  end.

Definition encode_utf8 (s : str) : content :=
  flat_map
    (fun c =>
       let n := code c in
       if (n <? 128)%N then [byte_of_N n]
       else [byte_of_N (192 + n / 64); byte_of_N (128 + n mod 64)])
    s.




Section Writer.

(** [gzip] and [bz2] at compression level 9, on bytes. *)
Variable gzip_compress : content -> content.
Variable bz2_compress : content -> content.
Variable hexdigest : str -> content -> str.
Variable fnmatch : str -> str -> bool.




End Writer.

(** What an applied plan keeps true of a stanza: it is not blank, holds
    no blank line, and none of its lines is empty. *)
Definition sound_stanza (s : str) : Prop :=
  nonblank s = true /\ no_blank_run s = true
  /\ Forall (fun l => l <> []) (splitlines s).

(* ================================================================== *)
(** * The reader of file names ([tools/download_repo_debs.py]) *)

(** [while val.startswith('./'): val = val[2:]] *)
Fixpoint strip_dot_slash (val : str) : str :=
  match val with
  | c :: rest =>
      match rest with
      | d :: r =>
          if (Ascii.eqb c "." && Ascii.eqb d "/")%bool
          then strip_dot_slash r else val
      | [] => val
      end
  | [] => val
  end.

(** [s.split(c, 1)[1]] for a text that holds [c]: what follows the
    first [c]. *)
Fixpoint after_first (c : ascii) (s : str) : str :=
  match s with
  | [] => []
  | a :: s' => if Ascii.eqb a c then s' else after_first c s'
  end.

(** The first loop of [parse_filenames_from_packages]: the normalized
    value of each line that starts with [filename:] in some casing. *)
Definition filename_values (text : str) : list str :=
  flat_map
    (fun line =>
       if startswith "filename:" (lower line)
       then [strip_dot_slash (strip (after_first ":" line))]
       else [])
    (splitlines text).

(** The second loop: duplicates are dropped, the first occurrence of each
    value stays in place. *)
Fixpoint dedupe (seen : list str) (l : list str) : list str :=
  match l with
  | [] => []
  | x :: rest =>
      if str_in x seen then dedupe seen rest
      else x :: dedupe (x :: seen) rest
  end.

Definition parse_filenames_from_packages (text : str) : list str :=
  dedupe [] (filename_values text).

(* ================================================================== *)
(** * The downloader ([tools/download_repo_debs.py]) *)

(** What the downloader does to the outside world, in the order of the
    run: a request sent with [urlopen], a call of [time.sleep] that
    returned, [ensure_parent] on a destination, [write_bytes] on a
    destination.  A duration is a Python [float]. *)
Inductive event (D : Type) : Type :=
| Opened (url : str)
| Slept (d : D)
| MadeParent (rel_norm : str)
| Wrote (rel_norm : str) (data : content).

Arguments Opened {D} url.
Arguments Slept {D} d.
Arguments MadeParent {D} rel_norm.
Arguments Wrote {D} rel_norm data.

(** The platform under the downloader.  The network and the destination
    folder answer as functions of what the run has done so far:
    [urlopen] gives the body read from the reply or the exception
    raised, for the time-out and the user agent of the run; [out_exists]
    is [Path.exists] ([None] when it raises), [mkdir_ok] and [write_ok]
    tell whether [ensure_parent] and [write_bytes] return.  [times] is
    the product [delay * n], [positive] the test [delay > 0],
    [sleepable] tells whether [time.sleep] accepts the length, and
    [request_ok] whether [Request] accepts the URL.  [urlparse] gives
    [up.netloc + up.path], [None] when [urlparse] raises; a destination
    is named by its path below [dest_root].  What the functions print is
    left out. *)
Record platform : Type := mkPlatform {
  error : Type;
  duration : Type;
  times : duration -> nat -> duration;
  positive : duration -> bool;
  sleepable : duration -> bool;
  request_ok : str -> bool;
  urlopen : list (event duration) -> str -> error + content;
  urlparse : str -> option str;
  out_exists : list (event duration) -> str -> option bool;
  mkdir_ok : list (event duration) -> str -> bool;
  write_ok : list (event duration) -> str -> content -> bool
}.

Definition history (P : platform) : Type := list (event (duration P)).

(** The exceptions that leave [fetch_bytes]: the one [urlopen] or [read]
    raised, the [ValueError] of [Request] on a URL it does not accept,
    the exception of [time.sleep] on a length it refuses, and the
    [RuntimeError] after the loop. *)
Inductive fetch_error (E : Type) : Type :=
| UrlopenError (e : E)
| UnknownUrlType
| SleepRefused
| UnknownFetchError.

Arguments UrlopenError {E} e.
Arguments UnknownUrlType {E}.
Arguments SleepRefused {E}.
Arguments UnknownFetchError {E}.

(** The exceptions that leave [try_fetch_packages] and [download_many]:
    the [RuntimeError] that names the candidates and the last error, and
    those of [urlparse] and of [Path.exists]. *)
Inductive raised (E : Type) : Type :=
| FailedToFetch (candidates : list str) (last_err : option (fetch_error E))
| UrlparseError
| StatError.

Arguments FailedToFetch {E} candidates last_err.
Arguments UrlparseError {E}.
Arguments StatError {E}.

(** The loop of [fetch_bytes]: [n] iterations are left, the next one is
    number [attempt]. *)
Fixpoint fetch_loop (P : platform) (url : str) (retries : Z)
    (delay : duration P) (n attempt : nat) (last_err : option (error P))
    (h : history P) : (fetch_error (error P) + content) * history P :=
  match n with
  | O =>
      (inl (match last_err with
            | Some ex => UrlopenError ex
            | None => UnknownFetchError
            end), h)
  | S n' =>
      if request_ok P url then
        match urlopen P h url with
        | inr data => (inr data, h ++ [Opened url])
        | inl ex =>
            if (Z.of_nat attempt <? retries)%Z then
              let d := times P delay (attempt + 1) in
              if sleepable P d
              then fetch_loop P url retries delay n' (S attempt) (Some ex)
                     (h ++ [Opened url] ++ [Slept d])
              else (inl SleepRefused, h ++ [Opened url])
            else (inl (UrlopenError ex), h ++ [Opened url])
        end
      else (inl UnknownUrlType, h)
  end.

Definition fetch_bytes (P : platform) (url : str) (retries : Z)
    (delay : duration P) (h : history P)
  : (fetch_error (error P) + content) * history P :=
  fetch_loop P url retries delay (Z.to_nat (retries + 1)) 0 None h.

(** The candidates of [try_fetch_packages]. *)
Definition packages_candidates (base_url : str) (override_url : option str)
  : list str :=
  match override_url with
  | Some (c :: o) => [c :: o]
  | _ =>
      let u := rstrip_slash base_url in
      [u ++ "/Packages.gz"; u ++ "/Packages.bz2"; u ++ "/Packages"]
  end.

Fixpoint try_candidates (P : platform) (candidates : list str)
    (rest : list str) (retries : Z) (delay : duration P)
    (last_err : option (fetch_error (error P))) (h : history P)
  : (raised (error P) + (str * content)) * history P :=
  match rest with
  | [] => (inl (FailedToFetch candidates last_err), h)
  | cu :: rest' =>
      match fetch_bytes P cu retries delay h with
      | (inr data, h') => (inr (cu, data), h')
      | (inl ex, h') =>
          try_candidates P candidates rest' retries delay (Some ex) h'
      end
  end.

Definition try_fetch_packages (P : platform) (base_url : str)
    (override_url : option str) (retries : Z) (delay : duration P)
    (h : history P) : (raised (error P) + (str * content)) * history P :=
  let candidates := packages_candidates base_url override_url in
  try_candidates P candidates candidates retries delay None h.

(** [s.lstrip('/')] *)
Definition lstrip_slash (s : str) : str := dropwhile (Ascii.eqb "/"%char) s.

(** The URL and the destination of one entry of [rel_paths]; [None]
    when [urlparse] raises. *)
Definition locate (P : platform) (base rel : str) : option (str * str) :=
  if (startswith "http://" rel || startswith "https://" rel)%bool then
    match urlparse P rel with
    | Some netloc_path => Some (rel, lstrip_slash netloc_path)
    | None => None
    end
  else
    let rel_norm := lstrip_slash rel in
    Some (base ++ "/" ++ rel_norm, rel_norm).

(** [idx >= max_items] for an optional [max_items]. *)
Definition at_limit (max_items : option Z) (idx : nat) : bool :=
  match max_items with
  | Some m => (m <=? Z.of_nat idx)%Z
  | None => false
  end.

(** The loop of [download_many] from entry [idx] on. *)
Fixpoint download_loop (P : platform) (base : str) (retries : Z)
    (delay : duration P) (dry_run : bool) (max_items : option Z)
    (idx : nat) (rel_paths : list str) (ok skip fail : nat) (h : history P)
  : (raised (error P) + (nat * nat * nat)) * history P :=
  match rel_paths with
  | [] => (inr (ok, skip, fail), h)
  | rel :: rest =>
      if at_limit max_items idx then (inr (ok, skip, fail), h)
      else
        match locate P base rel with
        | None => (inl UrlparseError, h)
        | Some (url, rel_norm) =>
            let next := download_loop P base retries delay dry_run
                          max_items (S idx) rest in
            match out_exists P h rel_norm with
            | None => (inl StatError, h)
            | Some true => next ok (S skip) fail h
            | Some false =>
                if dry_run then next (S ok) skip fail h
                else if mkdir_ok P h rel_norm then
                  match fetch_bytes P url retries delay
                          (h ++ [MadeParent rel_norm]) with
                  | (inr data, h2) =>
                      if write_ok P h2 rel_norm data then
                        if positive P delay then
                          if sleepable P delay
                          then next (S ok) skip fail
                                 (h2 ++ [Wrote rel_norm data]
                                     ++ [Slept delay])
                          else next (S ok) skip (S fail)
                                 (h2 ++ [Wrote rel_norm data])
                        else next (S ok) skip fail
                               (h2 ++ [Wrote rel_norm data])
                      else next ok skip (S fail)
                             (h2 ++ [Wrote rel_norm data])
                  | (inl _, h2) => next ok skip (S fail) h2
                  end
                else next ok skip (S fail) (h ++ [MadeParent rel_norm])
            end
        end
  end.

Definition download_many (P : platform) (base_url : str)
    (rel_paths : list str) (retries : Z) (delay : duration P)
    (dry_run : bool) (max_items : option Z) (h : history P)
  : (raised (error P) + (nat * nat * nat)) * history P :=
  download_loop P (rstrip_slash base_url) retries delay dry_run max_items
    0 rel_paths 0 0 0 h.

(** The events of [f] failed attempts on [url], from attempt [a] on, each
    followed by its pause. *)
Definition backoff (P : platform) (url : str) (delay : duration P)
    (a f : nat) : history P :=
  flat_map (fun i => [Opened url; Slept (times P delay (i + 1))]) (seq a f).

(** The number of entries [download_many] goes through. *)
Definition processed (max_items : option Z) (rel_paths : list str) : nat :=
  match max_items with
  | Some m => Nat.min (Z.to_nat m) (length rel_paths)
  | None => length rel_paths
  end.

(** The destination named by the event, if it names one. *)
Definition destination {D : Type} (ev : event D) : option str :=
  match ev with
  | MadeParent p => Some p
  | Wrote p _ => Some p
  | _ => None
  end.

(** The URL requested by the event, if it is a request. *)
Definition requested {D : Type} (ev : event D) : option str :=
  match ev with
  | Opened u => Some u
  | _ => None
  end.

(** The entries left to go through from entry [idx] on. *)
Definition remaining (max_items : option Z) (idx : nat)
    (rel_paths : list str) : nat :=
  match max_items with
  | Some m => Nat.min (Z.to_nat m - idx) (length rel_paths)
  | None => length rel_paths
  end.

(** A platform for the examples: pauses are whole seconds, a URL needs
    the scheme [http], the network fails twice and then replies with an
    empty body, nothing exists at a destination and every folder or
    file can be created. *)
Definition sample_platform : platform :=
  mkPlatform unit Z (fun d n => (d * Z.of_nat n)%Z) (fun d => (0 <? d)%Z)
    (fun d => (0 <=? d)%Z) (startswith "http")
    (fun h _ => if length h <? 3 then inl tt else inr [])
    (fun u => Some (skipn 7 u)) (fun _ _ => Some false)
    (fun _ _ => true) (fun _ _ _ => true).

(** The same platform without a network: every request fails. *)
Definition offline_platform : platform :=
  mkPlatform unit Z (fun d n => (d * Z.of_nat n)%Z) (fun d => (0 <? d)%Z)
    (fun d => (0 <=? d)%Z) (startswith "http")
    (fun _ _ => inl tt)
    (fun u => Some (skipn 7 u)) (fun _ _ => Some false)
    (fun _ _ => true) (fun _ _ _ => true).

(* ================================================================== *)
(** * The token of the bot ([tools/tg_bot_downloader.py]) *)

Definition DQUOTE : ascii := "034"%char.
Definition SQUOTE : ascii := "039"%char.

(** [s.strip(c)] for a single character [c]. *)
Definition strip_chr (c : ascii) (s : str) : str :=
  rev (dropwhile (Ascii.eqb c) (rev (dropwhile (Ascii.eqb c) s))).

(** One turn of the loop of [_parse_env_file]: the value the function
    returns at this line, if it returns there. *)
Definition env_line_token (line0 : str) : option str :=
  let line := strip line0 in
  match line with
  | [] => None
  | _ :: _ =>
      if startswith "#" line then None
      else if contains_char "=" line then
        if str_eqb (strip (before_first "=" line)) "TELEGRAM_BOT_TOKEN"
        then Some (strip_chr SQUOTE
                     (strip_chr DQUOTE (strip (after_first "=" line))))
        else None
      else None
  end.

Fixpoint first_token (lines : list str) : option str :=
  match lines with
  | [] => None
  | line :: rest =>
      match env_line_token line with
      | Some v => Some v
      | None => first_token rest
      end
  end.

(** [_parse_env_file(p)], on what [p.read_text] returns; [None] stands
    for a file that does not exist or cannot be read. *)
Definition _parse_env_file (p : option str) : option str :=
  match p with
  | None => None
  | Some text => first_token (splitlines text)
  end.

(** Where [load_token] found the token: ['inline'], ['env'], or one of
    the three files. *)
Inductive token_source : Type :=
| SrcInline
| SrcEnv
| SrcBotTokenTxt
| SrcDotEnv
| SrcToolsDotEnv.

(** [load_token(repo_root)]: [INLINE_BOT_TOKEN] is the constant of the
    module, [env_token] the environment variable, and the three files
    are given by what [read_text] returns ([None]: the file does not
    exist or cannot be read). *)
Definition load_token (INLINE_BOT_TOKEN : str) (env_token : option str)
    (bot_token_txt dot_env tools_dot_env : option str)
  : option str * option token_source :=
  match strip INLINE_BOT_TOKEN with
  | _ :: _ => (Some (strip INLINE_BOT_TOKEN), Some SrcInline)
  | [] =>
      if truthy env_token then (env_token, Some SrcEnv)
      else
        match match bot_token_txt with
              | Some text => strip text
              | None => []
              end with
        | c :: tok => (Some (c :: tok), Some SrcBotTokenTxt)
        | [] =>
            match _parse_env_file dot_env with
            | Some (c :: tok) => (Some (c :: tok), Some SrcDotEnv)
            | _ =>
                match _parse_env_file tools_dot_env with
                | Some (c :: tok) => (Some (c :: tok), Some SrcToolsDotEnv)
                | _ => (None, None)
                end
            end
        end
  end.

(** White space that does not end a line. *)
Definition is_blank (c : ascii) : bool :=
  isspace c && negb (is_linebreak c).

(** Neither white space nor a quote. *)
Definition plain_end (c : ascii) : bool :=
  negb (isspace c || Ascii.eqb c DQUOTE || Ascii.eqb c SQUOTE).

(** The text neither starts nor ends with white space or a quote. *)
Definition bare (t : str) : bool :=
  match t with
  | [] => true
  | c :: _ => plain_end c && plain_end (last t c)
  end.

(* ================================================================== *)
(** * The model on sample inputs *)

Example ex_split1 :
  re_split_blank ("a" ++ EOL ++ EOL ++ "b" ++ EOL) = ["a" : str; "b" ++ EOL].
Proof. reflexivity. Qed.

Example ex_split2 :
  re_split_blank ([LF; LF] ++ "a" ++ [LF; CR; LF; LF] ++ "b" ++ [CR; CR; LF; LF])
  = [[]; "a" : str; "b" ++ [CR]; []].
Proof. reflexivity. Qed.

Example ex_lines : splitlines ("a" ++ [CR; LF] ++ "b" ++ [LF; LF] ++ "c" ++ [CR])
  = ["a" : str; "b" : str; []; "c" : str].
Proof. reflexivity. Qed.

Example ex_field_sp : match_field "Package" "Package: " = Some (" " : str).
Proof. reflexivity. Qed.
Example ex_field_tab :
  match_field "Package" ("Package:  " ++ ["009"%char]) = Some ["009"%char].
Proof. reflexivity. Qed.
Example ex_field_none : match_field "Package" "Package:" = None.
Proof. reflexivity. Qed.
Example ex_field_splf : match_field "Package" ("Package: " ++ [LF]) = Some (" " : str).
Proof. reflexivity. Qed.
Example ex_field_lf : match_field "Package" ("Package:" ++ [LF]) = None.
Proof. reflexivity. Qed.
Example ex_field_alf : match_field "Package" ("Package: a" ++ [LF]) = Some ("a" : str).
Proof. reflexivity. Qed.
Example ex_field_alfb : match_field "Package" ("Package: a" ++ [LF] ++ "b") = None.
Proof. reflexivity. Qed.
Example ex_field_ci : match_field "Package" "package : x y  " = Some ("x y  " : str).
Proof. reflexivity. Qed.
Example ex_name1 : match_name " :x" = Some (" " : str).
Proof. reflexivity. Qed.
Example ex_name2 : match_name ":x" = None.
Proof. reflexivity. Qed.
Example ex_name3 : match_name "a b : c" = Some ("a b " : str).
Proof. reflexivity. Qed.
Example ex_name4 : match_name "a:b:c" = Some ("a" : str).
Proof. reflexivity. Qed.

Example ex_rsplit1 : rsplit "_"%char 2 "a_b_c_d" = ["a_b" : str; "c" : str; "d" : str].
Proof. reflexivity. Qed.
Example ex_rsplit2 : rsplit "_"%char 2 "_" = [[]; []].
Proof. reflexivity. Qed.
Example ex_rsplit3 : rsplit "_"%char 2 "__" = [[]; []; []].
Proof. reflexivity. Qed.

Example ex_derive1 :
  parse_deb_filename "foo.bar_1.2.3-1_iphoneos-arm.deb"
  = Some ("foo.bar" : str, "1.2.3-1" : str, "iphoneos-arm" : str).
Proof. reflexivity. Qed.
Example ex_int : str_of_int 1204 = "1204" /\ str_of_int 0 = "0" /\ str_of_int (-7) = "-7".
Proof. repeat split. Qed.

Example ex_lines_crlf_lf : splitlines [CR; LF; LF] = [[]; []].
Proof. reflexivity. Qed.

Example ex_lines_us : splitlines ("a" ++ ["031"%char] ++ "b") = ["a" ++ ["031"%char] ++ "b"].
Proof. reflexivity. Qed.

Example ex_derive2 :
  parse_deb_filename "foo_v2.0_arm.extra.deb"
  = Some ("foo" : str, "2.0" : str, "arm" : str).
Proof. reflexivity. Qed.

Example ex_wild :
  wild_match "stem*.deb" "stem.a.deb" = true
  /\ wild_match "stem*.deb" "stem.deb" = true
  /\ wild_match "stem*.deb" "other.deb" = false.
Proof. repeat split. Qed.

Example ex_sorted :
  sorted ["stem.b.deb" : str; "stem.a.deb" : str; "stem.Z.deb" : str]
  = ["stem.Z.deb" : str; "stem.a.deb" : str; "stem.b.deb" : str].
Proof. reflexivity. Qed.

(** The end-to-end scenario of the specification: of two stanzas, the
    one whose artifact exists gains the size and hash lines, the other
    one is left as it was. *)
Example ex_end_to_end :
  let DEBS : directory := [("pkg1_1.0_arm.deb" : str, [])] in
  let stanzas : list str :=
    parse_stanzas ("Filename: pkg1_1.0_arm.deb" ++ [LF; LF]
                   ++ "Filename: pkg2_1.0_arm.deb" ++ [LF]) in
  let plans :=
    build_update_plans (fun _ _ => "00" : str) wild_match DEBS None stanzas
      None false false None None in
  option_map (@length UpdatePlan) plans = Some 1
  /\ match plans with
     | Some ps => option_map join_stanzas (apply_plans stanzas ps)
     | None => None
     end
     = Some ("Filename: pkg1_1.0_arm.deb" ++ EOL ++ "Size: 0" ++ EOL
             ++ "MD5sum: 00" ++ EOL ++ "SHA1: 00" ++ EOL ++ "SHA256: 00"
             ++ EOL ++ EOL ++ "Filename: pkg2_1.0_arm.deb" ++ EOL).
Proof. split; reflexivity. Qed.

(* ================================================================== *)
(** * Facts on strings *)

Lemma str_eqb_eq (a b : str) : str_eqb a b = true <-> a = b.
Proof.
  unfold str_eqb. destruct (list_eq_dec ascii_dec a b); split; congruence.
Qed.

Lemma str_eqb_refl (a : str) : str_eqb a a = true.
Proof. apply str_eqb_eq. reflexivity. Qed.

Lemma str_eqb_neq (a b : str) : str_eqb a b = false <-> a <> b.
Proof.
  unfold str_eqb. destruct (list_eq_dec ascii_dec a b); split; congruence.
Qed.

Lemma dropwhile_split (p : ascii -> bool) (s : str) :
  exists w, s = w ++ dropwhile p s /\ Forall (fun c => p c = true) w.
Proof.
  induction s as [|c s IH]; simpl.
  - exists []. split; [reflexivity | constructor].
  - destruct (p c) eqn:E.
    + destruct IH as [w [Hs Hw]]. exists (c :: w). split.
      * simpl. f_equal. exact Hs.
      * constructor; assumption.
    + exists []. split; [reflexivity | constructor].
Qed.

Lemma dropwhile_head (p : ascii -> bool) (s : str) :
  match dropwhile p s with [] => True | c :: _ => p c = false end.
Proof.
  induction s as [|c s IH]; simpl; [exact I|].
  destruct (p c) eqn:E; [exact IH | exact E].
Qed.

Lemma dropwhile_all (p : ascii -> bool) (w s : str) :
  Forall (fun c => p c = true) w -> dropwhile p (w ++ s) = dropwhile p s.
Proof.
  induction 1 as [|c w Hc _ IH]; simpl; [reflexivity|].
  rewrite Hc. exact IH.
Qed.

Lemma dropwhile_fix (p : ascii -> bool) (s : str) :
  match s with [] => True | c :: _ => p c = false end -> dropwhile p s = s.
Proof. destruct s as [|c s]; simpl; intros H; [reflexivity | now rewrite H]. Qed.

Lemma lstrip_head (s : str) : head_nonspace (lstrip s).
Proof. apply (dropwhile_head isspace). Qed.

(** [rstrip] cuts a stretch of white space off the end. *)
Lemma rstrip_split (s : str) :
  exists w, s = rstrip s ++ w /\ Forall (fun c => isspace c = true) w.
Proof.
  unfold rstrip. destruct (dropwhile_split isspace (rev s)) as [w [Hs Hw]].
  exists (rev w). split.
  - rewrite <- rev_app_distr, <- Hs. symmetry. apply rev_involutive.
  - apply Forall_rev. exact Hw.
Qed.

Lemma rstrip_last (s : str) : rstrip s = [] \/ last_nonspace (rstrip s).
Proof.
  unfold rstrip. pose proof (dropwhile_head isspace (rev s)) as H.
  destruct (dropwhile isspace (rev s)) as [|z d]; [now left|right].
  exists (rev d), z. split; [reflexivity | exact H].
Qed.

Lemma rstrip_fix (s : str) : last_nonspace s -> rstrip s = s.
Proof.
  intros [x0 [z [-> Hz]]]. unfold rstrip.
  rewrite rev_app_distr. simpl. rewrite Hz. simpl.
  rewrite rev_involutive. reflexivity.
Qed.

Lemma rstrip_app_space (s w : str) :
  Forall (fun c => isspace c = true) w -> rstrip (s ++ w) = rstrip s.
Proof.
  intros Hw. unfold rstrip. rewrite rev_app_distr.
  rewrite dropwhile_all; [reflexivity | apply Forall_rev; exact Hw].
Qed.

Lemma rstrip_head (s : str) : head_nonspace s -> head_nonspace (rstrip s).
Proof.
  intros H. destruct (rstrip_split s) as [w [Hs _]].
  destruct (rstrip s) as [|c r]; [exact I|].
  rewrite Hs in H. exact H.
Qed.

Lemma strip_head (s : str) : head_nonspace (strip s).
Proof. apply rstrip_head, lstrip_head. Qed.

Lemma strip_last (s : str) : strip s = [] \/ last_nonspace (strip s).
Proof. apply rstrip_last. Qed.

Lemma strip_fix (s : str) : head_nonspace s -> last_nonspace s -> strip s = s.
Proof.
  intros Hh Hl. unfold strip, lstrip. rewrite dropwhile_fix; [|exact Hh].
  apply rstrip_fix. exact Hl.
Qed.

Lemma strip_idem (s : str) : strip (strip s) = strip s.
Proof.
  destruct (strip_last s) as [E|H].
  - rewrite E. reflexivity.
  - apply strip_fix; [apply strip_head | exact H].
Qed.

Lemma strip_app_space (s w : str) :
  s <> [] -> head_nonspace s -> Forall (fun c => isspace c = true) w ->
  strip (s ++ w) = strip s.
Proof.
  intros Hne Hh Hw. unfold strip, lstrip.
  destruct s as [|c s]; [congruence|]. simpl in Hh. simpl.
  rewrite Hh. apply (rstrip_app_space (c :: s)). exact Hw.
Qed.

Lemma nonblank_strip (s : str) : nonblank s = true -> strip s <> [].
Proof. unfold nonblank. destruct (strip s); congruence. Qed.

Lemma last_nonspace_tail (c : ascii) (x : str) :
  x <> [] -> last_nonspace (c :: x) -> last_nonspace x.
Proof.
  intros Hne [x0 [z [E Hz]]]. destruct x0 as [|c0 x0].
  - simpl in E. injection E as _ E. congruence.
  - simpl in E. injection E as _ E. exists x0, z. split; assumption.
Qed.

Lemma last_nonspace_single (c : ascii) :
  last_nonspace [c] -> isspace c = false.
Proof.
  intros [x0 [z [E Hz]]]. destruct x0 as [|c0 x0].
  - simpl in E. injection E as ->. exact Hz.
  - simpl in E. injection E as _ E. destruct x0; discriminate.
Qed.

(* ================================================================== *)
(** * StanzaStore: parsing a joined index *)

Lemma isspace_LF : isspace LF = true.
Proof. reflexivity. Qed.

Lemma isspace_CR : isspace CR = true.
Proof. reflexivity. Qed.

Lemma nonspace_not_LF (c : ascii) : isspace c = false -> Ascii.eqb c LF = false.
Proof.
  intros H. destruct (Ascii.eqb c LF) eqn:E; [|reflexivity].
  apply Ascii.eqb_eq in E. subst. discriminate.
Qed.

Lemma nonspace_not_CR (c : ascii) : isspace c = false -> Ascii.eqb c CR = false.
Proof.
  intros H. destruct (Ascii.eqb c CR) eqn:E; [|reflexivity].
  apply Ascii.eqb_eq in E. subst. discriminate.
Qed.

Lemma eol_run_LF (s : str) :
  eol_run (LF :: s) = (S (fst (eol_run s)), snd (eol_run s)).
Proof. cbn. destruct (eol_run s). reflexivity. Qed.

Lemma eol_run_CRLF (s : str) :
  eol_run (CR :: LF :: s) = (S (fst (eol_run s)), snd (eol_run s)).
Proof. cbn. destruct (eol_run s). reflexivity. Qed.

Lemma eol_run_CR_other (d : ascii) (s : str) :
  Ascii.eqb d LF = false -> eol_run (CR :: d :: s) = (0, CR :: d :: s).
Proof. intros H. cbn. rewrite H. reflexivity. Qed.

Lemma eol_run_other (c : ascii) (s : str) :
  Ascii.eqb c LF = false -> Ascii.eqb c CR = false ->
  eol_run (c :: s) = (0, c :: s).
Proof. intros H1 H2. cbn. rewrite H1, H2. reflexivity. Qed.

(** A run of line breaks that starts inside a text ending in a
    character that is not white space stops inside that text. *)
Lemma eol_run_app_len (n : nat) : forall (a t : str),
  length a <= n -> last_nonspace a ->
  eol_run (a ++ t) = (fst (eol_run a), snd (eol_run a) ++ t).
Proof.
  induction n as [|n IH]; intros a t Hlen Hl.
  - destruct a; [|simpl in Hlen; lia].
    destruct Hl as [x0 [z [E _]]]. destruct x0; discriminate.
  - destruct a as [|c a1].
    { destruct Hl as [x0 [z [E _]]]. destruct x0; discriminate. }
    simpl in Hlen. rewrite <- app_comm_cons.
    destruct (Ascii.eqb c LF) eqn:ELF.
    + apply Ascii.eqb_eq in ELF. subst c.
      destruct a1 as [|d a2].
      * apply last_nonspace_single in Hl. discriminate.
      * apply last_nonspace_tail in Hl; [|discriminate].
        rewrite !eol_run_LF.
        rewrite (IH (d :: a2) t); [reflexivity|simpl in *; lia|exact Hl].
    + destruct (Ascii.eqb c CR) eqn:ECR.
      2:{ rewrite !eol_run_other by assumption. reflexivity. }
      apply Ascii.eqb_eq in ECR. subst c.
      destruct a1 as [|d a2].
      * apply last_nonspace_single in Hl. discriminate.
      * rewrite <- app_comm_cons.
        destruct (Ascii.eqb d LF) eqn:ELF2.
        2:{ rewrite !eol_run_CR_other by assumption. reflexivity. }
        apply Ascii.eqb_eq in ELF2. subst d.
        apply last_nonspace_tail in Hl; [|discriminate].
        destruct a2 as [|e a3].
        { apply last_nonspace_single in Hl. discriminate. }
        apply last_nonspace_tail in Hl; [|discriminate].
        rewrite !eol_run_CRLF.
        rewrite (IH (e :: a3) t); [reflexivity|simpl in *; lia|exact Hl].
Qed.

Lemma sep_len_app (a t : str) :
  last_nonspace a -> sep_len (a ++ t) = sep_len a.
Proof.
  intros Hl. unfold sep_len.
  rewrite (eol_run_app_len (length a) a t (le_n _) Hl).
  destruct (eol_run a) as [k r]. cbn [fst snd].
  destruct (2 <=? k); [|reflexivity].
  rewrite !length_app. lia.
Qed.

(** Text without a separator is read into the current piece. *)
Lemma re_split_go_text (a : str) : forall (cur t : str),
  last_nonspace a -> no_blank_run a = true ->
  re_split_go 0 cur (a ++ t) = re_split_go 0 (cur ++ a) t.
Proof.
  induction a as [|c a IH]; intros cur t Hl Hn.
  - destruct Hl as [x0 [z [E _]]]. destruct x0; discriminate.
  - simpl in Hn. apply andb_prop in Hn as [Hs Hn]. apply Nat.eqb_eq in Hs.
    rewrite <- app_comm_cons. cbn [re_split_go].
    rewrite app_comm_cons, (sep_len_app (c :: a) t Hl), Hs.
    destruct a as [|d a].
    + simpl. reflexivity.
    + rewrite IH; [|apply (last_nonspace_tail c); [discriminate|exact Hl]|exact Hn].
      rewrite <- app_assoc. reflexivity.
Qed.

Lemma sep_len_sep (d : ascii) (t : str) :
  isspace d = false -> sep_len (EOL ++ EOL ++ d :: t) = 4.
Proof.
  intros Hd. unfold sep_len, EOL. cbn [app].
  rewrite eol_run_CRLF, eol_run_CRLF, eol_run_other
    by auto using nonspace_not_LF, nonspace_not_CR.
  cbn [fst snd Nat.leb length]. lia.
Qed.

(** The separator written by [join_stanzas], followed by a stanza, closes
    the current piece. *)
Lemma re_split_go_sep (cur t : str) :
  t <> [] -> head_nonspace t ->
  re_split_go 0 cur (EOL ++ EOL ++ t) = cur :: re_split_go 0 [] t.
Proof.
  intros Hne Hh. destruct t as [|d t]; [congruence|]. simpl in Hh.
  pose proof (sep_len_sep d t Hh) as E. unfold EOL in *. cbn [app] in *.
  cbn [re_split_go]. rewrite E. reflexivity.
Qed.

Lemma re_split_go_eol (cur : str) : re_split_go 0 cur EOL = [cur ++ EOL].
Proof. cbn. rewrite <- app_assoc. reflexivity. Qed.

Lemma re_split_joined (S : list str) : forall (s cur : str),
  Forall (fun s => nonblank s = true) (s :: S) ->
  Forall (fun s => no_blank_run (strip s) = true) (s :: S) ->
  re_split_go 0 cur (join (EOL ++ EOL) (map strip (s :: S)) ++ EOL)
  = match map strip (removelast (s :: S))
          ++ [strip (last (s :: S) []) ++ EOL] with
    | [] => []
    | x :: rest => (cur ++ x) :: rest
    end.
Proof.
  induction S as [|s2 S IH]; intros s cur Hnb Hrun.
  - inversion Hnb as [|? ? Hs _]; subst. inversion Hrun as [|? ? Hr _]; subst.
    apply nonblank_strip in Hs.
    destruct (strip_last s) as [E|Hl]; [congruence|].
    cbn [map join removelast last app].
    rewrite re_split_go_text by assumption.
    rewrite re_split_go_eol, <- app_assoc. reflexivity.
  - inversion Hnb as [|? ? Hs Hnb']; subst.
    inversion Hrun as [|? ? Hr Hrun']; subst.
    apply nonblank_strip in Hs.
    destruct (strip_last s) as [E|Hl]; [congruence|].
    change (join (EOL ++ EOL) (map strip (s :: s2 :: S)))
      with (strip s ++ (EOL ++ EOL) ++ join (EOL ++ EOL) (map strip (s2 :: S))).
    rewrite <- !app_assoc.
    rewrite re_split_go_text by assumption.
    assert (Hs2 : strip s2 <> []).
    { inversion Hnb'; subst. now apply nonblank_strip. }
    rewrite re_split_go_sep.
    + rewrite (IH s2 [] Hnb' Hrun').
      change (removelast (s :: s2 :: S)) with (s :: removelast (s2 :: S)).
      change (last (s :: s2 :: S) []) with (last (s2 :: S) []).
      cbn [map app].
      destruct (map strip (removelast (s2 :: S))
                ++ [strip (last (s2 :: S) []) ++ EOL]) eqn:E.
      * destruct (map strip (removelast (s2 :: S))); discriminate.
      * reflexivity.
    + cbn [map join]. destruct (map strip S).
      * intros E. apply app_eq_nil in E as [E _]. congruence.
      * intros E. apply app_eq_nil in E as [E _].
        apply app_eq_nil in E as [E _]. congruence.
    + cbn [map join]. pose proof (strip_head s2) as Hh.
      destruct (strip s2) as [|c r]; [congruence|].
      destruct (map strip S); exact Hh.
Qed.

Lemma nonblank_trimmed (s : str) : nonblank s = true -> nonblank (strip s) = true.
Proof. unfold nonblank. rewrite strip_idem. trivial. Qed.

Lemma nonblank_trimmed_eol (s : str) :
  nonblank s = true -> nonblank (strip s ++ EOL) = true.
Proof.
  intros H. unfold nonblank.
  rewrite strip_app_space.
  - rewrite strip_idem. exact H.
  - now apply nonblank_strip.
  - apply strip_head.
  - repeat constructor.
Qed.

Lemma filter_all {X : Type} (f : X -> bool) (l : list X) :
  Forall (fun x => f x = true) l -> filter f l = l.
Proof.
  induction 1 as [|x l Hx _ IH]; simpl; [reflexivity|].
  rewrite Hx, IH. reflexivity.
Qed.

Lemma last_in (s : str) (S : list str) : In (last (s :: S) []) (s :: S).
Proof.
  revert s. induction S as [|s2 S IH]; intros s; [now left|].
  change (last (s :: s2 :: S) []) with (last (s2 :: S) []).
  right. apply IH.
Qed.

Lemma removelast_in (S : list str) (y : str) : In y (removelast S) -> In y S.
Proof.
  induction S as [|s S IH]; [intros []|].
  destruct S as [|s2 S]; [intros []|].
  change (removelast (s :: s2 :: S)) with (s :: removelast (s2 :: S)).
  intros [->|Hy]; [now left | right; now apply IH].
Qed.

(** C1 (as amended): for a non-empty list [S] of non-blank stanzas whose
    trimmed text holds no run of two or more line breaks, parsing the
    joined index gives the stanzas of [S] trimmed, in order, the last one
    followed by the line terminator that [join_stanzas] puts at the end
    of the text; single line breaks inside a stanza, of any style, are
    kept as they are.  Joining the parsed list gives the joined text
    again. *)
Theorem parse_join_stanzas (S : list str) :
  S <> [] ->
  Forall (fun s => nonblank s = true) S ->
  Forall (fun s => no_blank_run (strip s) = true) S ->
  parse_stanzas (join_stanzas S)
  = map strip (removelast S) ++ [strip (last S []) ++ EOL]
  /\ join_stanzas (parse_stanzas (join_stanzas S)) = join_stanzas S.
Proof.
  intros Hne Hnb Hrun. destruct S as [|s S]; [congruence|].
  assert (Hparse : parse_stanzas (join_stanzas (s :: S))
                   = map strip (removelast (s :: S))
                     ++ [strip (last (s :: S) []) ++ EOL]).
  { unfold parse_stanzas, join_stanzas, re_split_blank.
    rewrite (re_split_joined S s [] Hnb Hrun).
    destruct (map strip (removelast (s :: S))
              ++ [strip (last (s :: S) []) ++ EOL]) as [|x rest] eqn:E.
    { destruct (map strip (removelast (s :: S))); discriminate. }
    cbn [app]. apply filter_all. rewrite <- E.
    apply Forall_app. split.
    - apply Forall_map. rewrite Forall_forall in *. intros y Hy.
      apply nonblank_trimmed, Hnb, removelast_in, Hy.
    - constructor; [|constructor].
      apply nonblank_trimmed_eol.
      rewrite Forall_forall in Hnb. apply Hnb, last_in. }
  split; [exact Hparse|].
  rewrite Hparse. unfold join_stanzas. f_equal. f_equal.
  rewrite map_app, map_map.
  change (map strip [strip (last (s :: S) []) ++ EOL])
    with [strip (strip (last (s :: S) []) ++ EOL)].
  rewrite strip_app_space.
  - rewrite strip_idem.
    rewrite (map_ext (fun x => strip (strip x)) strip) by apply strip_idem.
    change [strip (last (s :: S) [])] with (map strip [last (s :: S) []]).
    rewrite <- map_app. f_equal. symmetry. apply app_removelast_last. exact Hne.
  - apply nonblank_strip. rewrite Forall_forall in Hnb. apply Hnb, last_in.
  - apply strip_head.
  - repeat constructor.
Qed.

Lemma parse_join_stanzas_witness :
  parse_stanzas (join_stanzas [" Package: a" ++ [LF] ++ "Version: 1  " : str; "Package: b" : str])
  = ["Package: a" ++ [LF] ++ "Version: 1" : str; "Package: b" ++ EOL]
  /\ join_stanzas (parse_stanzas (join_stanzas [" Package: a" ++ [LF] ++ "Version: 1  " : str; "Package: b" : str]))
     = join_stanzas [" Package: a" ++ [LF] ++ "Version: 1  " : str; "Package: b" : str].
Proof.
  apply (parse_join_stanzas [" Package: a" ++ [LF] ++ "Version: 1  " : str; "Package: b" : str]).
  - discriminate.
  - repeat constructor.
  - repeat constructor.
Defined.

(** C1 (as stated) fails on the one-stanza index: the stanza comes back
    with the final line terminator attached. *)
Lemma parse_join_not_identity :
  ["a" : str] <> [] /\ Forall (fun s => nonblank s = true) ["a" : str]
  /\ parse_stanzas (join_stanzas ["a" : str]) <> ["a" : str].
Proof.
  split; [discriminate|]. split; [repeat constructor|].
  vm_compute. discriminate.
Qed.

(* ================================================================== *)
(** * MetadataReconciler: deriving the triple *)

Lemma rpartition_none (c : ascii) (s : str) :
  contains_char c s = false -> rpartition c s = None.
Proof.
  induction s as [|a s IH]; simpl; [reflexivity|].
  intros H. apply orb_false_elim in H as [Ha Hs].
  rewrite (IH Hs). rewrite Ascii.eqb_sym, Ha. reflexivity.
Qed.

Lemma rpartition_last (c : ascii) (a b : str) :
  contains_char c b = false -> rpartition c (a ++ c :: b) = Some (a, b).
Proof.
  intros Hb. induction a as [|x a IH]; simpl.
  - rewrite (rpartition_none c b Hb), Ascii.eqb_refl. reflexivity.
  - rewrite IH. reflexivity.
Qed.

Lemma rpartition_some (c : ascii) (s before after : str) :
  rpartition c s = Some (before, after) ->
  s = before ++ c :: after /\ contains_char c after = false.
Proof.
  revert before. induction s as [|a s IH]; simpl; intros before H; [discriminate|].
  destruct (rpartition c s) as [[b0 a0]|] eqn:E.
  - injection H as <- <-. destruct (IH b0 eq_refl) as [-> Hc].
    split; [reflexivity | exact Hc].
  - destruct (Ascii.eqb a c) eqn:Eac; [|discriminate].
    injection H as <- <-. apply Ascii.eqb_eq in Eac. subst a.
    split; [reflexivity|].
    clear IH. induction s as [|x s IH]; [reflexivity|].
    simpl in E. destruct (rpartition c s) as [[? ?]|]; [discriminate|].
    destruct (Ascii.eqb x c) eqn:Exc; [discriminate|].
    simpl. rewrite Ascii.eqb_sym, Exc. apply IH. reflexivity.
Qed.

Lemma count_char_none (c : ascii) (s : str) :
  count_char c s = 0 -> contains_char c s = false.
Proof.
  unfold count_char. induction s as [|a s IH]; simpl; [reflexivity|].
  destruct (Ascii.eqb c a); simpl; [discriminate | exact IH].
Qed.

Lemma count_char_app (c : ascii) (a b : str) :
  count_char c (a ++ b) = count_char c a + count_char c b.
Proof. unfold count_char. rewrite filter_app, length_app. reflexivity. Qed.

(** Without two underscores the split gives fewer than three segments. *)
Lemma rsplit_short (s : str) :
  count_char "_"%char s < 2 -> length (rsplit "_"%char 2 s) <> 3.
Proof.
  intros H. cbn [rsplit].
  destruct (rpartition "_"%char s) as [[before after]|] eqn:E; [|discriminate].
  apply rpartition_some in E as [-> _].
  rewrite count_char_app in H.
  assert (Hb : count_char "_"%char before = 0).
  { unfold count_char in H at 2. simpl in H. lia. }
  rewrite (rpartition_none _ _ (count_char_none _ _ Hb)). discriminate.
Qed.

Lemma endswith_app (p x : str) : endswith p (x ++ p) = true.
Proof.
  unfold endswith. rewrite length_app.
  replace (length x + length p - length p) with (length x + 0) by lia.
  rewrite skipn_app, Nat.add_0_r, skipn_all.
  replace (length x - length x) with 0 by lia. apply str_eqb_refl.
Qed.

Lemma before_first_absent (c : ascii) (s : str) :
  contains_char c s = false -> before_first c s = s.
Proof.
  induction s as [|a s IH]; simpl; [reflexivity|].
  intros H. apply orb_false_elim in H as [Ha Hs].
  rewrite Ascii.eqb_sym, Ha, (IH Hs). reflexivity.
Qed.

Lemma before_first_clean (c : ascii) (s : str) :
  contains_char c (before_first c s) = false.
Proof.
  induction s as [|a s IH]; simpl; [reflexivity|].
  destruct (Ascii.eqb a c) eqn:E; [reflexivity|].
  simpl. rewrite Ascii.eqb_sym, E. exact IH.
Qed.

Lemma drop_v_code (ver : str) :
  (if ((startswith "v" ver || startswith "V" ver) && (1 <? length ver))%bool
   then skipn 1 ver else ver) = drop_v ver.
Proof.
  destruct ver as [|c [|d r]]; [reflexivity| |].
  - cbn. rewrite andb_false_r. reflexivity.
  - unfold startswith, drop_v. cbn [lit list_ascii_of_string length firstn skipn].
    replace (1 <? S (S (length r))) with true by reflexivity.
    rewrite andb_true_r.
    assert (H : forall x : ascii, str_eqb [c] [x] = Ascii.eqb c x).
    { intros x. destruct (Ascii.eqb c x) eqn:E.
      - apply Ascii.eqb_eq in E. subst. apply str_eqb_refl.
      - apply str_eqb_neq. intros Heq. injection Heq as ->.
        rewrite Ascii.eqb_refl in E. discriminate. }
    rewrite !H. reflexivity.
Qed.

(** C4: a name [pkg_ver_arch.deb] whose last two segments hold no
    underscore is split from the right into exactly these three segments
    (the package keeps any further underscores); the version loses a
    leading [v] or [V] that is followed by a character; the architecture
    is cut at its first dot.  A name that ends in [.deb] but whose stem
    does not split into exactly three segments, which is the case when
    it has fewer than two underscores, gives [None].  The two examples of
    the specification evaluate as stated. *)
Theorem parse_deb_filename_derives :
  (forall pkg ver arch : str,
      contains_char "_"%char ver = false ->
      contains_char "_"%char arch = false ->
      parse_deb_filename (pkg ++ "_" ++ ver ++ "_" ++ arch ++ ".deb")
      = Some (pkg, drop_v ver, before_first "."%char arch))
  /\ (forall name : str,
        endswith ".deb" name = true ->
        length (rsplit "_"%char 2 (firstn (length name - 4) name)) <> 3 ->
        parse_deb_filename name = None)
  /\ (forall name : str,
        endswith ".deb" name = true ->
        count_char "_"%char (firstn (length name - 4) name) < 2 ->
        parse_deb_filename name = None)
  /\ parse_deb_filename "foo.bar_1.2.3-1_iphoneos-arm.deb"
     = Some ("foo.bar" : str, "1.2.3-1" : str, "iphoneos-arm" : str)
  /\ parse_deb_filename "foo_v2.0_arm.extra.deb"
     = Some ("foo" : str, "2.0" : str, "arm" : str).
Proof.
  assert (Hnone : forall name : str,
             endswith ".deb" name = true ->
             length (rsplit "_"%char 2 (firstn (length name - 4) name)) <> 3 ->
             parse_deb_filename name = None).
  { intros name He Hlen. unfold parse_deb_filename. rewrite He. cbn [negb].
    destruct (rsplit "_"%char 2 (firstn (length name - 4) name))
      as [|p [|v [|a [|x l]]]]; try reflexivity.
    exfalso. apply Hlen. reflexivity. }
  split; [|split; [exact Hnone|split; [|split; reflexivity]]].
  - intros pkg ver arch Hv Ha. unfold parse_deb_filename.
    replace (pkg ++ "_" ++ ver ++ "_" ++ arch ++ ".deb")
      with ((pkg ++ "_" ++ ver ++ "_" ++ arch) ++ ".deb")
      by (rewrite <- !app_assoc; reflexivity).
    rewrite endswith_app. cbn [negb].
    rewrite length_app.
    replace (length (pkg ++ "_" ++ ver ++ "_" ++ arch) + length (".deb" : str) - 4)
      with (length (pkg ++ "_" ++ ver ++ "_" ++ arch) + 0) by (cbn; lia).
    rewrite firstn_app_2, app_nil_r. cbn [firstn].
    cbn [rsplit].
    replace (pkg ++ "_" ++ ver ++ "_" ++ arch)
      with ((pkg ++ "_" ++ ver) ++ "_"%char :: arch)
      by (rewrite <- !app_assoc; reflexivity).
    rewrite (rpartition_last "_"%char _ arch Ha).
    change (pkg ++ "_" ++ ver) with (pkg ++ "_"%char :: ver).
    rewrite (rpartition_last "_"%char pkg ver Hv).
    cbn [app]. rewrite drop_v_code.
    destruct (contains_char "."%char arch) eqn:Ed; [reflexivity|].
    rewrite (before_first_absent _ _ Ed). reflexivity.
  - intros name He Hc. apply Hnone; [exact He|]. apply rsplit_short. exact Hc.
Qed.

Lemma parse_deb_filename_derives_witness :
  parse_deb_filename ("com_example_pkg" ++ "_" ++ "V1.0" ++ "_" ++ "arm.more.x" ++ ".deb")
  = Some ("com_example_pkg" : str, drop_v "V1.0", before_first "."%char "arm.more.x")
  /\ parse_deb_filename "onlyone_segment.deb" = None.
Proof.
  split.
  - apply (proj1 parse_deb_filename_derives); reflexivity.
  - apply (proj1 (proj2 (proj2 parse_deb_filename_derives))).
    + reflexivity.
    + vm_compute. lia.
Defined.

(* ================================================================== *)
(** * FieldAccessor: what the two patterns accept *)

Lemma isspace_lower_char (c : ascii) : isspace (lower_char c) = isspace c.
Proof. destruct c as [[] [] [] [] [] [] [] []]; reflexivity. Qed.

Lemma not_colon_lower_char (c : ascii) : not_colon (lower_char c) = not_colon c.
Proof. destruct c as [[] [] [] [] [] [] [] []]; reflexivity. Qed.

Lemma not_colon_space (c : ascii) : isspace c = true -> not_colon c = true.
Proof. destruct c as [[] [] [] [] [] [] [] []]; cbv; congruence. Qed.

Section RegexFacts.
Context {A : Type}.

Lemma re_star_sound (p : ascii -> bool) (k : str -> option A) (s : str) (r : A) :
  re_star p k s = Some r ->
  exists w s', s = w ++ s' /\ Forall (fun c => p c = true) w /\ k s' = Some r.
Proof.
  induction s as [|c s IH]; simpl; intros H.
  - exists [], []. repeat split; [constructor | exact H].
  - destruct (p c) eqn:Ep.
    + destruct (re_star p k s) as [r'|] eqn:E.
      * injection H as ->. destruct (IH eq_refl) as [w [s' [-> [Hw Hk]]]].
        exists (c :: w), s'. repeat split; [constructor; assumption | exact Hk].
      * exists [], (c :: s). repeat split; [constructor | exact H].
    + exists [], (c :: s). repeat split; [constructor | exact H].
Qed.

Lemma re_star_stop (p : ascii -> bool) (k : str -> option A) (s : str) :
  match s with [] => True | c :: _ => p c = false end ->
  re_star p k s = k s.
Proof. destruct s as [|c s]; simpl; [reflexivity|]. intros ->. reflexivity. Qed.

(** The longest stretch is tried first. *)
Lemma re_star_greedy (p : ascii -> bool) (k : str -> option A) (w s : str) (r : A) :
  Forall (fun c => p c = true) w ->
  k s = Some r ->
  match s with [] => True | c :: _ => p c = false end ->
  re_star p k (w ++ s) = Some r.
Proof.
  intros Hw Hk Hs. induction Hw as [|c w Hc _ IH]; simpl.
  - rewrite re_star_stop by exact Hs. exact Hk.
  - rewrite Hc, IH. reflexivity.
Qed.

Lemma re_star_const (p : ascii -> bool) (r : A) (s : str) :
  re_star p (fun _ => Some r) s = Some r.
Proof.
  induction s as [|c s IH]; simpl; [reflexivity|].
  rewrite IH. destruct (p c); reflexivity.
Qed.

Lemma re_lit_ci_sound (key : str) (k : str -> option A) (s : str) (r : A) :
  re_lit_ci key k s = Some r ->
  exists k' s', s = k' ++ s' /\ lower k' = lower key /\ k s' = Some r.
Proof.
  revert s. induction key as [|a key IH]; simpl; intros s H.
  - exists [], s. repeat split. exact H.
  - destruct s as [|c s]; [discriminate|].
    destruct (Ascii.eqb (lower_char c) (lower_char a)) eqn:E; [|discriminate].
    apply Ascii.eqb_eq in E.
    destruct (IH s H) as [k' [s' [-> [Hl Hk]]]].
    exists (c :: k'), s'. repeat split; [|exact Hk].
    simpl. rewrite E. f_equal. exact Hl.
Qed.

Lemma re_lit_ci_self (key : str) (k : str -> option A) (s : str) :
  re_lit_ci key k (key ++ s) = k s.
Proof.
  induction key as [|a key IH]; simpl; [reflexivity|].
  rewrite Ascii.eqb_refl. exact IH.
Qed.

Lemma re_chr_sound (a : ascii) (k : str -> option A) (s : str) (r : A) :
  re_chr a k s = Some r -> exists s', s = a :: s' /\ k s' = Some r.
Proof.
  destruct s as [|c s]; simpl; [discriminate|].
  destruct (Ascii.eqb c a) eqn:E; [|discriminate].
  apply Ascii.eqb_eq in E. subst. intros H. exists s. split; [reflexivity | exact H].
Qed.

Lemma re_star_cap_greedy (p : ascii -> bool) (k : str -> str -> option A)
    (w : str) : forall (g s : str) (r : A),
  Forall (fun c => p c = true) w ->
  k (g ++ w) s = Some r ->
  match s with [] => True | c :: _ => p c = false end ->
  re_star_cap p k g (w ++ s) = Some r.
Proof.
  induction w as [|c w IH]; intros g s r Hw Hk Hs; simpl.
  - rewrite app_nil_r in Hk. destruct s as [|c s]; simpl; [exact Hk|].
    rewrite Hs. exact Hk.
  - inversion Hw as [|? ? Hc Hw']; subst. rewrite Hc.
    rewrite (IH (g ++ [c]) s r Hw'); [reflexivity| |exact Hs].
    rewrite <- app_assoc. exact Hk.
Qed.
End RegexFacts.

Lemma lower_length (a b : str) : lower a = lower b -> length a = length b.
Proof.
  intros H. apply (f_equal (@length ascii)) in H.
  unfold lower in H. rewrite !length_map in H. exact H.
Qed.

(** A text that equals a plain key up to case is plain as well. *)
Lemma plain_key_lower (k' key : str) :
  plain_key key = true -> lower k' = lower key -> plain_key k' = true.
Proof.
  intros Hp Hl. unfold plain_key in *.
  destruct key as [|a key]; [discriminate|].
  destruct k' as [|c k']; [discriminate|].
  revert Hp Hl. generalize (a :: key). generalize (c :: k'). clear.
  induction l as [|c k' IH]; intros [|a key] Hp Hl; try discriminate; [reflexivity|].
  simpl in *. injection Hl as Hc Hl. apply andb_prop in Hp as [Ha Hp].
  rewrite (IH key Hp Hl), andb_true_r.
  rewrite <- isspace_lower_char, <- not_colon_lower_char, Hc.
  rewrite isspace_lower_char, not_colon_lower_char. exact Ha.
Qed.

Lemma plain_key_chars (key : str) :
  plain_key key = true ->
  key <> [] /\ Forall (fun c => isspace c = false) key
  /\ Forall (fun c => not_colon c = true) key.
Proof.
  unfold plain_key. destruct key as [|a key]; [discriminate|].
  intros H. split; [discriminate|]. rewrite forallb_forall in H.
  split; apply Forall_forall; intros c Hc; specialize (H c Hc);
    apply andb_prop in H as [H1 H2]; [|exact H2].
  now apply negb_true_iff in H1.
Qed.

Lemma plain_key_trimmed (key : str) :
  plain_key key = true -> head_nonspace key /\ last_nonspace key.
Proof.
  intros H. destruct (plain_key_chars key H) as [Hne [Hs _]].
  split.
  - destruct key; [exact I|]. now inversion Hs.
  - destruct (exists_last Hne) as [x0 [z E]]. exists x0, z. split; [exact E|].
    rewrite E in Hs. apply Forall_app in Hs as [_ Hz]. now inversion Hz.
Qed.

(** The name pattern on a line made of white space, a plain key, white
    space, a colon and anything: group 1 is the key with the white space
    that follows it. *)
Lemma match_name_key_line (w1 k w2 rest : str) :
  Forall (fun c => isspace c = true) w1 ->
  Forall (fun c => isspace c = true) w2 ->
  plain_key k = true ->
  match_name (w1 ++ k ++ w2 ++ ":"%char :: rest) = Some (k ++ w2).
Proof.
  intros H1 H2 Hk. unfold match_name.
  destruct (plain_key_chars k Hk) as [Hne [Hs Hc]].
  destruct k as [|c k]; [congruence|].
  inversion Hs as [|? ? Hcs Hs']; subst. inversion Hc as [|? ? Hcc Hc']; subst.
  apply re_star_greedy; [exact H1| |exact Hcs].
  cbn [app re_plus_cap]. rewrite Hcc.
  rewrite (app_assoc k w2).
  apply re_star_cap_greedy.
  - apply Forall_app. split; [exact Hc'|].
    eapply Forall_impl; [|exact H2]. apply not_colon_space.
  - rewrite re_star_stop by reflexivity. cbn [re_chr].
    rewrite Ascii.eqb_refl. apply re_star_const.
  - reflexivity.
Qed.

(** A line the field pattern accepts is white space, the key in some
    casing, white space, a colon and a value part. *)
Lemma match_field_shape (key ln g : str) :
  match_field key ln = Some g ->
  exists w1 k' w2 rest,
    ln = w1 ++ k' ++ w2 ++ ":"%char :: rest
    /\ Forall (fun c => isspace c = true) w1
    /\ Forall (fun c => isspace c = true) w2
    /\ lower k' = lower key
    /\ match_value rest = Some g.
Proof.
  unfold match_field. intros H.
  apply re_star_sound in H as [w1 [s1 [-> [Hw1 H]]]].
  apply re_lit_ci_sound in H as [k' [s2 [-> [Hk H]]]].
  apply re_star_sound in H as [w2 [s3 [-> [Hw2 H]]]].
  apply re_chr_sound in H as [rest [-> H]].
  exists w1, k', w2, rest. repeat split; assumption.
Qed.

Lemma strip_key_space (k w : str) :
  plain_key k = true -> Forall (fun c => isspace c = true) w ->
  strip (k ++ w) = k.
Proof.
  intros Hk Hw. destruct (plain_key_trimmed k Hk) as [Hh Hl].
  destruct (plain_key_chars k Hk) as [Hne _].
  rewrite strip_app_space by assumption. apply strip_fix; assumption.
Qed.

(** Both patterns agree on the name of a line. *)
Lemma key_of_field (key ln g : str) :
  plain_key key = true -> match_field key ln = Some g ->
  key_of ln = Some (lower key).
Proof.
  intros Hp H.
  apply match_field_shape in H as [w1 [k' [w2 [rest [-> [H1 [H2 [Hl _]]]]]]]].
  pose proof (plain_key_lower k' key Hp Hl) as Hk'.
  unfold key_of. rewrite match_name_key_line by assumption.
  rewrite strip_key_space by assumption. rewrite Hl. reflexivity.
Qed.

(** The name of a line written by [set_field]. *)
Lemma key_of_written (key value : str) :
  plain_key key = true -> key_of (key ++ ": " ++ value) = Some (lower key).
Proof.
  intros Hp. unfold key_of.
  change (key ++ ": " ++ value)
    with ([] ++ key ++ [] ++ ":"%char :: " "%char :: value).
  rewrite match_name_key_line by (assumption || constructor).
  rewrite strip_key_space by (assumption || constructor). reflexivity.
Qed.

(** On the code points of the model the two patterns read the same
    name: a line that [get_field] takes for [key] has, for
    [remove_fields], the name [key] lower-cased. *)
Lemma has_field_key_of (key ln : str) :
  plain_key key = true -> has_field key ln = true ->
  key_of ln = Some (lower key).
Proof.
  unfold has_field. intros Hp H.
  destruct (match_field key ln) as [g|] eqn:E; [|discriminate].
  eapply key_of_field; eassumption.
Qed.

(** A line is a field line of one key at most. *)
Lemma has_field_other (key key' ln : str) :
  plain_key key = true -> plain_key key' = true ->
  lower key <> lower key' ->
  key_of ln = Some (lower key') -> has_field key ln = false.
Proof.
  intros Hp Hp' Hne Hk. destruct (has_field key ln) eqn:E; [|reflexivity].
  apply has_field_key_of in E; [|exact Hp]. congruence.
Qed.

Lemma removed_key_of (keys_lc : list str) (ln : str) :
  removed keys_lc ln
  = match key_of ln with Some n => str_in n keys_lc | None => false end.
Proof. unfold removed, key_of. destruct (match_name ln); reflexivity. Qed.

(* ------------------------------------------------------------------ *)
(** ** [get_field] and [set_field] on a list of lines *)

Lemma get_field_from_snd (key : str) (lines : list str) : forall i,
  snd (get_field_from i lines key)
  = match find (has_field key) lines with
    | Some ln => option_map strip (match_field key ln)
    | None => None
    end.
Proof.
  induction lines as [|ln lines IH]; intros i; simpl; [reflexivity|].
  unfold has_field at 1. destruct (match_field key ln) as [g|] eqn:E.
  - simpl. rewrite E. reflexivity.
  - apply IH.
Qed.

Lemma get_field_snd (key : str) (lines : list str) :
  snd (get_field lines key)
  = match find (has_field key) lines with
    | Some ln => option_map strip (match_field key ln)
    | None => None
    end.
Proof. apply get_field_from_snd. Qed.

(** The index returned is the position of the first field line. *)
Lemma get_field_from_fst (key : str) (lines : list str) : forall i,
  (fst (get_field_from i lines key) = None
   /\ Forall (fun ln => has_field key ln = false) lines)
  \/ (exists pre ln post,
        lines = pre ++ ln :: post
        /\ Forall (fun ln => has_field key ln = false) pre
        /\ has_field key ln = true
        /\ fst (get_field_from i lines key) = Some (i + length pre)).
Proof.
  induction lines as [|ln lines IH]; intros i; simpl.
  - left. split; [reflexivity | constructor].
  - destruct (match_field key ln) as [g|] eqn:E.
    + right. exists [], ln, lines. repeat split.
      * constructor.
      * unfold has_field. rewrite E. reflexivity.
      * simpl. f_equal. lia.
    + assert (Hf : has_field key ln = false) by (unfold has_field; now rewrite E).
      destruct (IH (S i)) as [[Hn Ha]|[pre [l [post [-> [Hpre [Hl Hi]]]]]]].
      * left. split; [exact Hn | constructor; assumption].
      * right. exists (ln :: pre), l, post. repeat split.
        -- constructor; assumption.
        -- exact Hl.
        -- rewrite Hi. simpl. f_equal. lia.
Qed.

Lemma list_set_middle (pre post : list str) (ln line : str) :
  list_set (pre ++ ln :: post) (length pre) line = pre ++ line :: post.
Proof. induction pre as [|x pre IH]; simpl; [reflexivity|]. now rewrite IH. Qed.

(** [set_field] either appends the new line, when no line is a field
    line of the key, or replaces the first field line. *)
Lemma set_field_cases (lines : list str) (key value : str) :
  (Forall (fun ln => has_field key ln = false) lines
   /\ set_field lines key value = lines ++ [key ++ ": " ++ value])
  \/ (exists pre ln post,
        lines = pre ++ ln :: post
        /\ Forall (fun ln => has_field key ln = false) pre
        /\ has_field key ln = true
        /\ set_field lines key value = pre ++ (key ++ ": " ++ value) :: post).
Proof.
  unfold set_field, get_field.
  destruct (get_field_from_fst key lines 0)
    as [[Hn Ha]|[pre [l [post [-> [Hpre [Hl Hi]]]]]]].
  - left. rewrite Hn. split; [exact Ha | reflexivity].
  - right. exists pre, l, post. rewrite Hi. cbn [Nat.add].
    rewrite list_set_middle. repeat split; assumption.
Qed.

Lemma find_app_none {X : Type} (f : X -> bool) (l1 l2 : list X) :
  Forall (fun x => f x = false) l1 -> find f (l1 ++ l2) = find f l2.
Proof.
  induction 1 as [|x l Hx _ IH]; simpl; [reflexivity|]. now rewrite Hx.
Qed.

Lemma find_app_end {X : Type} (f : X -> bool) (l1 l2 : list X) :
  Forall (fun x => f x = false) l2 -> find f (l1 ++ l2) = find f l1.
Proof.
  intros H. induction l1 as [|x l1 IH]; simpl.
  - induction H as [|y l2 Hy _ IH]; simpl; [reflexivity|]. now rewrite Hy.
  - destruct (f x); [reflexivity | exact IH].
Qed.

Lemma find_filter_keep {X : Type} (f keep : X -> bool) (l : list X) :
  (forall x, f x = true -> keep x = true) ->
  find f (filter keep l) = find f l.
Proof.
  intros H. induction l as [|x l IH]; simpl; [reflexivity|].
  destruct (keep x) eqn:Ek; simpl.
  - destruct (f x); [reflexivity | exact IH].
  - destruct (f x) eqn:Ef; [|exact IH].
    rewrite (H x Ef) in Ek. discriminate.
Qed.

(** Setting one key leaves the first field line of any other key as it
    is. *)
Lemma find_set_field_other (key key' value : str) (lines : list str) :
  plain_key key = true -> plain_key key' = true ->
  lower key <> lower key' ->
  find (has_field key) (set_field lines key' value)
  = find (has_field key) lines.
Proof.
  intros Hp Hp' Hne.
  assert (Hw : has_field key (key' ++ ": " ++ value) = false).
  { apply (has_field_other key key'); try assumption.
    apply key_of_written. exact Hp'. }
  destruct (set_field_cases lines key' value)
    as [[_ ->]|[pre [l [post [-> [_ [Hl ->]]]]]]].
  - apply find_app_end. constructor; [exact Hw | constructor].
  - assert (Hl' : has_field key l = false).
    { apply (has_field_other key key'); try assumption.
      apply has_field_key_of; assumption. }
    clear - Hw Hl'. induction pre as [|x pre IH]; cbn [app find].
    + rewrite Hw, Hl'. reflexivity.
    + destruct (has_field key x); [reflexivity | exact IH].
Qed.

(* ================================================================== *)
(** * Applier *)

Lemma set_if_falsy (corr : option str) (key : str) (lines : list str) :
  truthy corr = false -> set_if corr key lines = lines.
Proof. destruct corr as [[|c v]|]; simpl; congruence. Qed.

Lemma field_line_set_if_other (key key' : str) (corr : option str)
    (lines : list str) :
  plain_key key = true -> plain_key key' = true ->
  lower key <> lower key' ->
  field_line key (set_if corr key' lines) = field_line key lines.
Proof.
  intros Hp Hp' Hne. destruct corr as [[|c v]|]; try reflexivity.
  apply find_set_field_other; assumption.
Qed.

Lemma field_line_remove_hash (key : str) (lines : list str) :
  plain_key key = true ->
  str_in (lower key) (map lower HASH_KEYS) = false ->
  field_line key (remove_fields lines HASH_KEYS) = field_line key lines.
Proof.
  intros Hp Hk. unfold field_line, remove_fields.
  apply find_filter_keep. intros ln Hf.
  rewrite removed_key_of, (has_field_key_of key ln Hp Hf), Hk. reflexivity.
Qed.

Lemma hash_lines_key_of (plan : UpdatePlan) :
  map key_of (hash_lines plan) = map (fun k => Some (lower k)) HASH_KEYS.
Proof.
  unfold hash_lines, HASH_KEYS. cbn [map]. repeat f_equal.
  - exact (key_of_written "Size" (str_of_int (size plan)) eq_refl).
  - exact (key_of_written "MD5sum" (md5 plan) eq_refl).
  - exact (key_of_written "SHA1" (sha1 plan) eq_refl).
  - exact (key_of_written "SHA256" (sha256 plan) eq_refl).
Qed.

Lemma has_field_written_other (key key' value : str) :
  plain_key key = true -> plain_key key' = true ->
  lower key <> lower key' ->
  has_field key (key' ++ ": " ++ value) = false.
Proof.
  intros Hp Hp' Hne. apply (has_field_other key key'); try assumption.
  apply key_of_written. exact Hp'.
Qed.

Lemma field_line_hash_lines (key : str) (body : list str) (plan : UpdatePlan) :
  plain_key key = true ->
  str_in (lower key) (map lower HASH_KEYS) = false ->
  field_line key (body ++ hash_lines plan) = field_line key body.
Proof.
  intros Hp Hk. apply find_app_end.
  cbn [str_in existsb map HASH_KEYS] in Hk.
  apply orb_false_elim in Hk as [K1 Hk]. apply orb_false_elim in Hk as [K2 Hk].
  apply orb_false_elim in Hk as [K3 Hk]. apply orb_false_elim in Hk as [K4 _].
  apply str_eqb_neq in K1, K2, K3, K4.
  unfold hash_lines. repeat apply Forall_cons; [| | | |constructor].
  - exact (has_field_written_other key "Size" _ Hp eq_refl K1).
  - exact (has_field_written_other key "MD5sum" _ Hp eq_refl K2).
  - exact (has_field_written_other key "SHA1" _ Hp eq_refl K3).
  - exact (has_field_written_other key "SHA256" _ Hp eq_refl K4).
Qed.

Ltac lower_neq := apply str_eqb_neq; reflexivity.

Ltac other_key :=
  rewrite field_line_set_if_other by (reflexivity || lower_neq).

Ltac same_key H := rewrite (set_if_falsy _ _ _ H).

Lemma field_line_updated (stanza : str) (plan : UpdatePlan) (key : str)
    (corr : option str) :
  In (key, corr)
     [("Package" : str, fix_pkg plan); ("Version" : str, fix_ver plan);
      ("Architecture" : str, fix_arch plan);
      ("Filename" : str, fix_filename plan); ("Icon" : str, icon_url plan)] ->
  truthy corr = false ->
  field_line key (updated_lines stanza plan) = field_line key (splitlines stanza).
Proof.
  intros Hin Hc. unfold updated_lines.
  assert (Hkey : plain_key key = true
                 /\ str_in (lower key) (map lower HASH_KEYS) = false).
  { simpl in Hin.
    destruct Hin as [E|[E|[E|[E|[E|[]]]]]]; injection E as <- _;
      split; reflexivity. }
  destruct Hkey as [Hp Hk].
  rewrite field_line_hash_lines by assumption.
  rewrite <- (field_line_remove_hash key (splitlines stanza)) by assumption.
  unfold corrected_lines.
  simpl in Hin.
  destruct Hin as [E|[E|[E|[E|[E|[]]]]]]; injection E as <- <-.
  - do 4 other_key. same_key Hc. reflexivity.
  - do 3 other_key. same_key Hc. other_key. reflexivity.
  - do 2 other_key. same_key Hc. do 2 other_key. reflexivity.
  - other_key. same_key Hc. do 3 other_key. reflexivity.
  - same_key Hc. do 4 other_key. reflexivity.
Qed.



(* ------------------------------------------------------------------ *)
(** ** The size and hash lines *)

Lemma remove_fields_clean (lines : list str) :
  Forall (fun ln => removed HASH_KEYS_LC ln = false)
         (remove_fields lines HASH_KEYS).
Proof.
  unfold remove_fields. apply Forall_forall. intros ln Hin.
  apply filter_In in Hin as [_ H]. apply negb_true_iff in H. exact H.
Qed.

Lemma set_if_clean (corr : option str) (key : str) (lines : list str) :
  plain_key key = true ->
  str_in (lower key) HASH_KEYS_LC = false ->
  Forall (fun ln => removed HASH_KEYS_LC ln = false) lines ->
  Forall (fun ln => removed HASH_KEYS_LC ln = false) (set_if corr key lines).
Proof.
  intros Hp Hk Hl. destruct corr as [[|c v]|]; try exact Hl.
  cbn [set_if].
  assert (Hnew : removed HASH_KEYS_LC (key ++ ": " ++ c :: v) = false).
  { rewrite removed_key_of, key_of_written by exact Hp. exact Hk. }
  destruct (set_field_cases lines key (c :: v))
    as [[_ ->]|[pre [l [post [-> [_ [_ ->]]]]]]].
  - apply Forall_app. split; [exact Hl|]. constructor; [exact Hnew|constructor].
  - apply Forall_app in Hl as [Hpre Hpost]. inversion Hpost; subst.
    apply Forall_app. split; [exact Hpre|]. constructor; assumption.
Qed.

Lemma corrected_lines_clean (lines : list str) (plan : UpdatePlan) :
  Forall (fun ln => removed HASH_KEYS_LC ln = false) (corrected_lines lines plan).
Proof.
  unfold corrected_lines.
  repeat (apply set_if_clean; [reflexivity|reflexivity|]).
  apply remove_fields_clean.
Qed.

Lemma is_field_line_clean (key ln : str) :
  In key HASH_KEYS -> removed HASH_KEYS_LC ln = false ->
  is_field_line key ln = false.
Proof.
  intros Hin H. unfold is_field_line. rewrite removed_key_of in *.
  destruct (key_of ln) as [n|]; [|reflexivity].
  cbn [str_in existsb]. rewrite orb_false_r.
  destruct (str_eqb n (lower key)) eqn:E; [|reflexivity].
  apply str_eqb_eq in E. subst n.
  assert (Hc : str_in (lower key) HASH_KEYS_LC = true).
  { unfold str_in, HASH_KEYS_LC. apply existsb_exists. exists (lower key).
    split; [apply in_map; exact Hin | apply str_eqb_refl]. }
  congruence.
Qed.

Lemma filter_none {X : Type} (f : X -> bool) (l : list X) :
  Forall (fun x => f x = false) l -> filter f l = [].
Proof.
  induction 1 as [|x l Hx _ IH]; simpl; [reflexivity|]. now rewrite Hx.
Qed.

(* ------------------------------------------------------------------ *)
(** ** The updated stanza as text *)

Lemma cons_first_no_break (c : ascii) (l : list str) :
  is_linebreak c = false ->
  Forall (fun x => no_break x = true) l ->
  Forall (fun x => no_break x = true) (cons_first c l).
Proof.
  intros Hc Hl. destruct l as [|x l]; simpl.
  - repeat constructor. simpl. now rewrite Hc.
  - inversion Hl; subst. constructor; [|assumption].
    simpl. rewrite Hc. assumption.
Qed.

Lemma splitlines_no_break_len (n : nat) : forall s,
  length s <= n -> Forall (fun x => no_break x = true) (splitlines s).
Proof.
  induction n as [|n IH]; intros s Hlen.
  - destruct s; [constructor | simpl in Hlen; lia].
  - destruct s as [|c s]; [constructor|]. simpl in Hlen. cbn [splitlines].
    destruct (is_linebreak c) eqn:Ec.
    + destruct s as [|d r]; [repeat constructor|].
      destruct (Ascii.eqb c CR && Ascii.eqb d LF)%bool;
        (constructor; [reflexivity|]); apply IH; simpl in *; lia.
    + apply cons_first_no_break; [exact Ec|]. apply IH. lia.
Qed.

(** The lines of a text hold no line boundary. *)
Lemma splitlines_no_break (s : str) :
  Forall (fun x => no_break x = true) (splitlines s).
Proof. apply (splitlines_no_break_len (length s)). apply le_n. Qed.

Lemma splitlines_line (l rest : str) :
  no_break l = true -> splitlines (l ++ EOL ++ rest) = l :: splitlines rest.
Proof.
  induction l as [|c l IH]; intros H.
  - reflexivity.
  - simpl in H. apply andb_prop in H as [Hc Hl]. apply negb_true_iff in Hc.
    cbn [app splitlines]. rewrite Hc, (IH Hl). reflexivity.
Qed.

Lemma splitlines_single (l : str) :
  no_break l = true -> l <> [] -> splitlines l = [l].
Proof.
  induction l as [|c l IH]; intros H Hne; [congruence|].
  simpl in H. apply andb_prop in H as [Hc Hl]. apply negb_true_iff in Hc.
  cbn [splitlines]. rewrite Hc. destruct l as [|d l]; [reflexivity|].
  rewrite (IH Hl); [reflexivity | discriminate].
Qed.

(** Lines without line boundaries, the last one not empty, are the lines
    of their join. *)
Lemma splitlines_join (lines : list str) :
  Forall (fun x => no_break x = true) lines ->
  last lines [] <> [] ->
  splitlines (join EOL lines) = lines.
Proof.
  induction lines as [|x lines IH]; intros Hall Hlast; [reflexivity|].
  inversion Hall as [|? ? Hx Hall']; subst.
  destruct lines as [|y lines].
  - cbn [join]. apply splitlines_single; assumption.
  - change (join EOL (x :: y :: lines)) with (x ++ EOL ++ join EOL (y :: lines)).
    rewrite splitlines_line by exact Hx. f_equal. apply IH; assumption.
Qed.

Lemma uint_no_break (d : Decimal.uint) :
  no_break (NilEmpty.string_of_uint d) = true.
Proof. induction d; simpl; try reflexivity; exact IHd. Qed.

Lemma str_of_int_no_break (n : Z) : no_break (str_of_int n) = true.
Proof.
  unfold str_of_int, NilZero.string_of_int, NilZero.string_of_uint.
  destruct (Z.to_int n) as [d|d]; destruct d; try reflexivity;
    apply (uint_no_break (_ d)) || (simpl; apply uint_no_break).
Qed.

Lemma no_break_app (a b : str) :
  no_break (a ++ b) = (no_break a && no_break b)%bool.
Proof. apply forallb_app. Qed.

Lemma set_if_no_break (corr : option str) (key : str) (lines : list str) :
  no_break key = true -> opt_no_break corr = true ->
  Forall (fun x => no_break x = true) lines ->
  Forall (fun x => no_break x = true) (set_if corr key lines).
Proof.
  intros Hk Hc Hl. destruct corr as [[|c v]|]; try exact Hl. cbn [set_if].
  assert (Hnew : no_break (key ++ ": " ++ c :: v) = true).
  { rewrite !no_break_app, Hk. exact Hc. }
  destruct (set_field_cases lines key (c :: v))
    as [[_ ->]|[pre [l [post [-> [_ [_ ->]]]]]]].
  - apply Forall_app. split; [exact Hl|]. constructor; [exact Hnew|constructor].
  - apply Forall_app in Hl as [Hpre Hpost]. inversion Hpost; subst.
    apply Forall_app. split; [exact Hpre|]. constructor; assumption.
Qed.

Lemma last_app_cons (l l' : list str) (x : str) :
  last (l ++ x :: l') [] = last (x :: l') [].
Proof.
  induction l as [|a l IH]; [reflexivity|].
  cbn [app]. cbn [last]. destruct (l ++ x :: l') eqn:E.
  - destruct l; discriminate.
  - exact IH.
Qed.

(** When the corrections and digests of the plan hold no line boundary,
    the lines of the new stanza, read back from its text, are the lines
    the applier joined. *)
Lemma new_stanza_lines (stanza : str) (plan : UpdatePlan) :
  plan_text_clean plan = true ->
  splitlines (new_stanza stanza plan) = updated_lines stanza plan.
Proof.
  unfold plan_text_clean. intros H.
  repeat (apply andb_prop in H as [H ?]).
  unfold new_stanza. apply splitlines_join.
  - unfold updated_lines. apply Forall_app. split.
    + unfold corrected_lines.
      repeat (apply set_if_no_break; [reflexivity|assumption|]).
      unfold remove_fields. apply Forall_forall. intros x Hx.
      apply filter_In in Hx as [Hx _].
      pose proof (splitlines_no_break stanza) as Hs.
      rewrite Forall_forall in Hs. apply Hs. exact Hx.
    + unfold hash_lines. repeat apply Forall_cons; [| | | |constructor];
        rewrite no_break_app, ?str_of_int_no_break, ?H, ?H6, ?H5;
        reflexivity.
  - unfold updated_lines, hash_lines. rewrite last_app_cons. discriminate.
Qed.

(* ================================================================== *)
(** * FieldAccessor: lines with an empty value *)

Lemma re_star_skip {A : Type} (p : ascii -> bool) (k : str -> option A) (s : str) :
  (forall c s', p c = true -> k (c :: s') = None) ->
  re_star p k s = k (dropwhile p s).
Proof.
  intros Hk. induction s as [|c s IH]; simpl; [reflexivity|].
  destruct (p c) eqn:Ep; [|reflexivity].
  rewrite IH. destruct (k (dropwhile p s)) eqn:E; [reflexivity|].
  apply Hk. exact Ep.
Qed.

Lemma re_lit_ci_match {A : Type} (key : str) (k : str -> option A) :
  forall (k' s : str),
  lower k' = lower key -> re_lit_ci key k (k' ++ s) = k s.
Proof.
  induction key as [|a key IH]; intros [|c k'] s H; try discriminate.
  - reflexivity.
  - simpl in H. injection H as Hc H. simpl. rewrite Hc, Ascii.eqb_refl.
    apply IH. exact H.
Qed.

Lemma lstrip_spaces (w s : str) :
  Forall (fun c => isspace c = true) w -> head_nonspace s ->
  lstrip (w ++ s) = s.
Proof.
  intros Hw Hs. unfold lstrip. rewrite dropwhile_all by exact Hw.
  apply dropwhile_fix. exact Hs.
Qed.

(** On a line made of white space, a plain key in some casing, white
    space and a colon, the field pattern is decided by what follows the
    colon. *)
Lemma match_field_key_line (key w1 k' w2 rest : str) :
  plain_key key = true -> lower k' = lower key ->
  Forall (fun c => isspace c = true) w1 ->
  Forall (fun c => isspace c = true) w2 ->
  match_field key (w1 ++ k' ++ w2 ++ ":"%char :: rest) = match_value rest.
Proof.
  intros Hp Hl H1 H2. unfold match_field.
  pose proof (plain_key_lower k' key Hp Hl) as Hp'.
  destruct (plain_key_trimmed key Hp) as [Hh _].
  destruct (plain_key_trimmed k' Hp') as [Hh' _].
  destruct (plain_key_chars key Hp) as [Hne _].
  destruct (plain_key_chars k' Hp') as [Hne' _].
  rewrite re_star_skip.
  2:{ intros c s' Hc. destruct key as [|a key]; [congruence|]. simpl.
      destruct (Ascii.eqb (lower_char c) (lower_char a)) eqn:E; [|reflexivity].
      apply Ascii.eqb_eq in E. simpl in Hh.
      rewrite <- isspace_lower_char, <- E, isspace_lower_char in Hh. congruence. }
  fold (lstrip (w1 ++ k' ++ w2 ++ ":"%char :: rest)).
  rewrite lstrip_spaces; [|exact H1|destruct k'; [congruence|exact Hh']].
  rewrite re_lit_ci_match by exact Hl.
  rewrite re_star_skip.
  2:{ intros c s' Hc. simpl. destruct (Ascii.eqb c ":") eqn:E; [|reflexivity].
      apply Ascii.eqb_eq in E. subst. discriminate. }
  fold (lstrip (w2 ++ ":"%char :: rest)).
  rewrite lstrip_spaces; [|exact H2|reflexivity].
  cbn [re_chr]. rewrite Ascii.eqb_refl. reflexivity.
Qed.

Lemma match_value_empty : match_value [] = None.
Proof. reflexivity. Qed.

(** White space after the colon is a value for the pattern: the greedy
    [\s*] gives its last character back to the group. *)
Lemma match_value_spaces (w : str) (z : ascii) :
  Forall (fun c => isspace c = true) w -> isspace z = true ->
  Ascii.eqb z LF = false ->
  match_value (w ++ [z]) = Some [z].
Proof.
  intros Hw Hz Hlf. unfold match_value.
  induction Hw as [|c w Hc _ IH].
  - cbn. rewrite Hz. unfold re_dot. rewrite Hlf. reflexivity.
  - cbn [app re_star]. rewrite Hc, IH. reflexivity.
Qed.

(** C10 (as amended): on a line [Key:] with nothing after the colon,
    [get_field] reports the key as not found, and [set_field] appends a
    new [Key: Value] line at the end and leaves the empty line in place,
    so that the stanza has both.  When white space that does not end in
    a line feed follows the colon, [get_field] finds the line, with the
    empty string as its value, and [set_field] replaces it in place. *)
Theorem empty_value_field (key k' w1 w2 value : str) (pre post : list str) :
  plain_key key = true -> lower k' = lower key ->
  Forall (fun c => isspace c = true) w1 ->
  Forall (fun c => isspace c = true) w2 ->
  Forall (fun ln => has_field key ln = false) pre ->
  Forall (fun ln => has_field key ln = false) post ->
  let ln := w1 ++ k' ++ w2 ++ [":"%char] in
  get_field [ln] key = (None, None)
  /\ get_field (pre ++ ln :: post) key = (None, None)
  /\ set_field (pre ++ ln :: post) key value
     = pre ++ ln :: post ++ [key ++ ": " ++ value]
  /\ (forall (w : str) (z : ascii),
        Forall (fun c => isspace c = true) (w ++ [z]) ->
        z <> LF ->
        get_field (pre ++ (ln ++ w ++ [z]) :: post) key
        = (Some (length pre), Some [])
        /\ set_field (pre ++ (ln ++ w ++ [z]) :: post) key value
           = pre ++ (key ++ ": " ++ value) :: post).
Proof.
  intros Hp Hl H1 H2 Hpre Hpost ln.
  assert (Hln : has_field key ln = false).
  { unfold has_field, ln.
    rewrite (match_field_key_line key w1 k' w2 []) by assumption.
    reflexivity. }
  assert (Hall : Forall (fun l => has_field key l = false) (pre ++ ln :: post)).
  { apply Forall_app. split; [exact Hpre|]. constructor; assumption. }
  assert (Hnone : forall lines i,
             Forall (fun l => has_field key l = false) lines ->
             get_field_from i lines key = (None, None)).
  { induction lines as [|l lines IH]; intros i HF; [reflexivity|].
    inversion HF as [|? ? Hh HF']; subst. simpl. unfold has_field in Hh.
    destruct (match_field key l); [discriminate|]. apply IH. exact HF'. }
  split; [apply Hnone; constructor; [exact Hln|constructor]|].
  split; [apply Hnone; exact Hall|].
  split.
  - unfold set_field, get_field. rewrite (Hnone _ 0 Hall). cbn [fst].
    rewrite <- app_assoc. reflexivity.
  - intros w z Hw Hz.
    apply Forall_app in Hw as [Hw Hzs]. inversion Hzs as [|? ? Hzs' _]; subst.
    assert (Hlf : Ascii.eqb z LF = false).
    { destruct (Ascii.eqb z LF) eqn:E; [|reflexivity].
      apply Ascii.eqb_eq in E. congruence. }
    assert (Hm : match_field key (ln ++ w ++ [z]) = Some [z]).
    { unfold ln. rewrite <- !app_assoc. cbn [app].
      rewrite (match_field_key_line key w1 k' w2 (w ++ [z])) by assumption.
      apply match_value_spaces; assumption. }
    assert (Hget : forall l i,
               Forall (fun l => has_field key l = false) l ->
               get_field_from i (l ++ (ln ++ w ++ [z]) :: post) key
               = (Some (i + length l), Some [])).
    { induction l as [|x l IH]; intros i HF.
      - cbn [app get_field_from]. rewrite Hm. cbn [length].
        rewrite Nat.add_0_r. f_equal. f_equal.
        unfold strip, lstrip, rstrip. cbn. rewrite Hzs'. reflexivity.
      - inversion HF as [|? ? Hh HF']; subst. cbn [app get_field_from].
        unfold has_field in Hh. destruct (match_field key x); [discriminate|].
        rewrite (IH (S i) HF'). cbn [length]. do 2 f_equal. lia. }
    split; [exact (Hget pre 0 Hpre)|].
    unfold set_field, get_field. rewrite (Hget pre 0 Hpre). cbn [fst Nat.add].
    apply list_set_middle.
Qed.

Lemma empty_value_field_witness :
  get_field [("  package :" : str)] "Package" = (None, None)
  /\ set_field ["Name: x" : str; "  package :" : str; "Depends: y" : str] "Package" "p"
     = ["Name: x" : str; "  package :" : str; "Depends: y" : str; "Package: p" : str]
  /\ get_field ["Name: x" : str; "  package :  " : str; "Depends: y" : str] "Package"
     = (Some 1, Some [])
  /\ set_field ["Name: x" : str; "  package :  " : str; "Depends: y" : str] "Package" "p"
     = ["Name: x" : str; "Package: p" : str; "Depends: y" : str].
Proof.
  pose proof (empty_value_field "Package" "package" "  " " " "p"
                ["Name: x" : str] ["Depends: y" : str]
                eq_refl eq_refl
                ltac:(repeat constructor) ltac:(repeat constructor)
                ltac:(repeat constructor) ltac:(repeat constructor)) as H.
  cbv zeta in H. destruct H as [H1 [_ [H3 H4]]].
  split; [exact H1|]. split; [exact H3|].
  destruct (H4 " " " "%char) as [H5 H6].
  - repeat constructor.
  - discriminate.
  - split; [exact H5 | exact H6].
Defined.

(** C10 (as stated) fails on a value made of one space: the line is
    found, with an empty value, and [set_field] replaces it instead of
    appending. *)
Lemma whitespace_value_is_found :
  isspace " " = true
  /\ get_field ["Package: " : str] "Package" = (Some 0, Some [])
  /\ set_field ["Package: " : str] "Package" "x" = ["Package: x" : str]
  /\ set_field ["Package: " : str] "Package" "x"
     <> ["Package: " : str; "Package: x" : str].
Proof. repeat split. discriminate. Qed.

(* ================================================================== *)
(** * ArtifactResolver: the order of names and [sorted] *)

Lemma code_inj (x y : ascii) : code x = code y -> x = y.
Proof.
  unfold code. intros H.
  rewrite <- (ascii_N_embedding x), <- (ascii_N_embedding y), H. reflexivity.
Qed.

Lemma str_leb_refl (a : str) : str_leb a a = true.
Proof.
  induction a as [|x a IH]; simpl; [reflexivity|].
  rewrite N.ltb_irrefl. exact IH.
Qed.

Lemma str_leb_total (a : str) : forall b,
  str_leb a b = false -> str_leb b a = true.
Proof.
  induction a as [|x a IH]; intros [|y b]; simpl; try congruence.
  destruct (code x <? code y)%N eqn:E1; [discriminate|].
  destruct (code y <? code x)%N eqn:E2; [reflexivity|].
  apply IH.
Qed.

Lemma str_leb_trans (a : str) : forall b c,
  str_leb a b = true -> str_leb b c = true -> str_leb a c = true.
Proof.
  induction a as [|x a IH]; intros [|y b] [|z c]; simpl; try congruence.
  destruct (code x <? code y)%N eqn:Exy;
    destruct (code y <? code x)%N eqn:Eyx;
    destruct (code y <? code z)%N eqn:Eyz;
    destruct (code z <? code y)%N eqn:Ezy;
    destruct (code x <? code z)%N eqn:Exz;
    destruct (code z <? code x)%N eqn:Ezx;
    try reflexivity; try discriminate;
    repeat match goal with
           | H : (_ <? _)%N = true |- _ => apply N.ltb_lt in H
           | H : (_ <? _)%N = false |- _ => apply N.ltb_ge in H
           end; try lia.
  apply IH.
Qed.

Lemma str_leb_antisym (a : str) : forall b,
  str_leb a b = true -> str_leb b a = true -> a = b.
Proof.
  induction a as [|x a IH]; intros [|y b]; simpl; try congruence.
  destruct (code x <? code y)%N eqn:Exy;
    destruct (code y <? code x)%N eqn:Eyx; try discriminate.
  - apply N.ltb_lt in Exy, Eyx. lia.
  - intros H1 H2. apply N.ltb_ge in Exy, Eyx.
    assert (E : x = y) by (apply code_inj; lia).
    subst. f_equal. apply IH; assumption.
Qed.

Lemma insert_sorted_perm (x : str) (l : list str) :
  Permutation (insert_sorted x l) (x :: l).
Proof.
  induction l as [|y l IH]; simpl; [reflexivity|].
  destruct (str_leb x y); [reflexivity|].
  rewrite IH. apply perm_swap.
Qed.

Lemma sorted_perm (l : list str) : Permutation (sorted l) l.
Proof.
  induction l as [|x l IH]; simpl; [reflexivity|].
  rewrite insert_sorted_perm. constructor. exact IH.
Qed.

Lemma insert_sorted_head (x : str) (l : list str) :
  head_least l -> head_least (insert_sorted x l).
Proof.
  destruct l as [|y l]; simpl; [constructor|]. intros H.
  destruct (str_leb x y) eqn:E.
  - constructor; [exact E|].
    eapply Forall_impl; [|exact H]. intros z Hz.
    eapply str_leb_trans; eassumption.
  - simpl. apply str_leb_total in E.
    apply (Permutation_Forall (Permutation_sym (insert_sorted_perm x l))).
    constructor; assumption.
Qed.

Lemma sorted_head_least (l : list str) : head_least (sorted l).
Proof.
  induction l as [|x l IH]; simpl; [exact I|].
  apply insert_sorted_head. exact IH.
Qed.

(** [sorted(l)[0]] is an element of [l] and is below all of them. *)
Lemma sorted_first (l : list str) (first : str) (rest : list str) :
  sorted l = first :: rest ->
  In first l /\ forall y, In y l -> str_leb first y = true.
Proof.
  intros E. pose proof (sorted_perm l) as P. pose proof (sorted_head_least l) as H.
  rewrite E in P, H. simpl in H. split.
  - apply (Permutation_in _ P). now left.
  - intros y Hy. apply (Permutation_in _ (Permutation_sym P)) in Hy.
    destruct Hy as [<-|Hy]; [apply str_leb_refl|].
    rewrite Forall_forall in H. apply H. exact Hy.
Qed.

Lemma sorted_nil (l : list str) : sorted l = [] -> l = [].
Proof.
  intros E. pose proof (sorted_perm l) as P. rewrite E in P.
  apply Permutation_nil in P. exact P.
Qed.

(** The first element after sorting does not depend on the order of the
    input. *)
Lemma sorted_first_perm (l l' : list str) :
  Permutation l l' -> hd_error (sorted l) = hd_error (sorted l').
Proof.
  intros P.
  destruct (sorted l) as [|x r] eqn:E; destruct (sorted l') as [|x' r'] eqn:E'.
  - reflexivity.
  - apply sorted_nil in E. subst. apply Permutation_nil in P. subst. discriminate.
  - apply sorted_nil in E'. subst. apply Permutation_sym, Permutation_nil in P.
    subst. discriminate.
  - apply sorted_first in E as [Hin Hmin]. apply sorted_first in E' as [Hin' Hmin'].
    simpl. f_equal. apply str_leb_antisym.
    + apply Hmin. apply (Permutation_in _ (Permutation_sym P)). exact Hin'.
    + apply Hmin'. apply (Permutation_in _ P). exact Hin.
Qed.

(* ================================================================== *)
(** * ArtifactResolver *)

Lemma is_file_in (d : directory) (name : str) :
  is_file d name = true <-> In name (map fst d).
Proof.
  unfold is_file. induction d as [|[n c] d IH]; simpl.
  - split; [discriminate | tauto].
  - destruct (str_eqb n name) eqn:E.
    + apply str_eqb_eq in E. split; [now left | reflexivity].
    + apply str_eqb_neq in E. rewrite IH. split; [now right|].
      intros [H|H]; [congruence | exact H].
Qed.

Lemma is_file_perm (d d' : directory) (name : str) :
  Permutation d d' -> is_file d name = is_file d' name.
Proof.
  intros P.
  assert (H : In name (map fst d) <-> In name (map fst d')).
  { split; apply Permutation_in; [|symmetry]; apply Permutation_map; exact P. }
  rewrite <- !is_file_in in H.
  destruct (is_file d name), (is_file d' name); try reflexivity;
    destruct H as [H1 H2]; [symmetry; now apply H1 | now apply H2].
Qed.

Lemma path_exists_perm (d d' : directory) (name : str) :
  Permutation d d' -> path_exists d name = path_exists d' name.
Proof.
  intros P. unfold path_exists. now rewrite (is_file_perm d d' name P).
Qed.

(** A path that does not exist is neither a file nor the directory. *)
Lemma path_missing (d : directory) (name : str) :
  path_exists d name = false ->
  dir_lookup d name = None /\ is_folder_name name = false.
Proof.
  unfold path_exists, is_file. intros H. apply orb_false_elim in H as [H1 H2].
  split; [|exact H2]. destruct (dir_lookup d name); [discriminate|reflexivity].
Qed.

Lemma folder_name_no_deb (name : str) :
  is_folder_name name = true -> endswith ".deb" name = false.
Proof.
  unfold is_folder_name. destruct name as [|c name]; [reflexivity|].
  intros H. apply orb_prop in H as [H|H]; apply str_eqb_eq in H;
    rewrite H; reflexivity.
Qed.

Lemma filter_perm {X : Type} (f : X -> bool) (l l' : list X) :
  Permutation l l' -> Permutation (filter f l) (filter f l').
Proof.
  induction 1 as [|x l l' _ IH|x y l|l l' l'' _ IH1 _ IH2]; simpl.
  - constructor.
  - destruct (f x); [constructor|]; exact IH.
  - destruct (f x), (f y); try reflexivity. apply perm_swap.
  - etransitivity; eassumption.
Qed.

Lemma glob_perm (fnmatch : str -> str -> bool) (d d' : directory) (pat : str) :
  Permutation d d' -> Permutation (glob fnmatch d pat) (glob fnmatch d' pat).
Proof. intros P. unfold glob. apply filter_perm, Permutation_map, P. Qed.

Lemma resolve_deb_perm (fnmatch : str -> str -> bool) (d d' : directory)
    (deb_name : str) :
  Permutation d d' ->
  resolve_deb fnmatch d' deb_name = resolve_deb fnmatch d deb_name.
Proof.
  intros P. unfold resolve_deb.
  rewrite <- (path_exists_perm d d' deb_name P).
  destruct (path_exists d deb_name); [reflexivity|]. cbn [negb].
  destruct (endswith ".deb" deb_name); [|reflexivity].
  pose proof (sorted_first_perm _ _
                (glob_perm fnmatch d d'
                   (firstn (length deb_name - 4) deb_name ++ "*.deb") P)) as H.
  destruct (sorted (glob fnmatch d _)), (sorted (glob fnmatch d' _));
    simpl in H; try discriminate; [reflexivity|].
  injection H as ->. reflexivity.
Qed.

(** C5 (as amended): a declared base name that does not exist in the
    artifact directory is searched for only when it ends in [.deb].
    Then, when some file of the directory matches the pattern
    [stem*.deb], the resolver keeps a file that matches the pattern and
    that is, in the order of strings, below every file that matches; it
    records the correction [./debs/] followed by that name; the choice is
    the same for every order in which the directory is enumerated; and
    the plan of a stanza that declares this name carries that file name
    and that correction.  A declared name that does not end in [.deb] is
    kept as it is, no correction is recorded, and a stanza that declares
    it is skipped. *)
Theorem fuzzy_match_first (hexdigest : str -> content -> str)
    (fnmatch : str -> str -> bool) (DEBS : directory)
    (ICONS_DIR_DEFAULT : icon_directory) (deb_name : str) :
  path_exists DEBS deb_name = false ->
  (endswith ".deb" deb_name = true ->
   (exists n, In n (map fst DEBS)
              /\ fnmatch (fuzzy_pattern deb_name) n = true) ->
   exists first,
     resolve_deb fnmatch DEBS deb_name = (first, Some ("./debs/" ++ first))
     /\ In first (map fst DEBS)
     /\ fnmatch (fuzzy_pattern deb_name) first = true
     /\ (forall n, In n (map fst DEBS) ->
                   fnmatch (fuzzy_pattern deb_name) n = true ->
                   str_leb first n = true)
     /\ (forall DEBS', Permutation DEBS DEBS' ->
           resolve_deb fnmatch DEBS' deb_name
           = (first, Some ("./debs/" ++ first)))
     /\ (forall only fix_metadata add_icons icons_dir icon_url_prefix i
                stanza,
           option_map basename
             (snd (get_field (splitlines stanza) "Filename"))
           = Some deb_name ->
           only_excludes only deb_name = false ->
           exists plan,
             plan_stanza hexdigest fnmatch DEBS ICONS_DIR_DEFAULT only
               fix_metadata add_icons icons_dir icon_url_prefix i stanza
             = Planned plan
             /\ filename plan = first
             /\ fix_filename plan = Some ("./debs/" ++ first)))
  /\ (endswith ".deb" deb_name = false ->
      resolve_deb fnmatch DEBS deb_name = (deb_name, None)
      /\ forall only fix_metadata add_icons icons_dir icon_url_prefix i
                stanza,
           option_map basename
             (snd (get_field (splitlines stanza) "Filename"))
           = Some deb_name ->
           plan_stanza hexdigest fnmatch DEBS ICONS_DIR_DEFAULT only
             fix_metadata add_icons icons_dir icon_url_prefix i stanza
           = Skipped).
Proof.
  intros Hex. split.
  - intros Hend [n [Hn Hm]].
    assert (Hres : exists first rest,
               sorted (glob fnmatch DEBS (fuzzy_pattern deb_name))
               = first :: rest).
    { destruct (sorted (glob fnmatch DEBS (fuzzy_pattern deb_name)))
        as [|x r] eqn:E.
      - apply sorted_nil in E. exfalso.
        assert (Hin : In n (glob fnmatch DEBS (fuzzy_pattern deb_name))).
        { unfold glob. apply filter_In. split; assumption. }
        rewrite E in Hin. exact Hin.
      - exists x, r. reflexivity. }
    destruct Hres as [first [rest Hs]].
    assert (Hr : resolve_deb fnmatch DEBS deb_name
                 = (first, Some ("./debs/" ++ first))).
    { unfold resolve_deb. rewrite Hex, Hend. cbn [negb].
      unfold fuzzy_pattern in Hs. rewrite Hs. reflexivity. }
    apply sorted_first in Hs as [Hin Hmin].
    unfold glob in Hin. apply filter_In in Hin as [Hin Hf].
    exists first. split; [exact Hr|]. split; [exact Hin|].
    split; [exact Hf|]. split; [|split].
    + intros m Hm1 Hm2. apply Hmin. unfold glob. apply filter_In.
      split; assumption.
    + intros DEBS' P. rewrite (resolve_deb_perm fnmatch DEBS DEBS' deb_name P).
      exact Hr.
    + intros only fix_metadata add_icons icons_dir icon_url_prefix i stanza
        Hbase Hallow.
      unfold plan_stanza.
      destruct (snd (get_field (splitlines stanza) "Filename"))
        as [[|c f]|] eqn:Ef; [| |discriminate].
      * simpl in Hbase. injection Hbase as <-.
        exfalso. clear - Hend. vm_compute in Hend. discriminate.
      * simpl in Hbase. injection Hbase as Hb. rewrite Hb, Hallow, Hr.
        apply is_file_in in Hin. unfold is_file in Hin.
        destruct (dir_lookup DEBS first) as [data|]; [|discriminate].
        destruct (reconcile fix_metadata (splitlines stanza) first)
          as [[[p v] a] pid].
        eexists. split; [reflexivity|]. split; reflexivity.
  - intros Hend.
    assert (Hr : resolve_deb fnmatch DEBS deb_name = (deb_name, None)).
    { unfold resolve_deb. rewrite Hex, Hend. reflexivity. }
    split; [exact Hr|].
    intros only fix_metadata add_icons icons_dir icon_url_prefix i stanza
      Hbase.
    unfold plan_stanza.
    destruct (snd (get_field (splitlines stanza) "Filename"))
      as [[|c f]|] eqn:Ef; [reflexivity| |discriminate].
    simpl in Hbase. injection Hbase as Hb. rewrite Hb, Hr.
    destruct (only_excludes only deb_name); [reflexivity|].
    destruct (path_missing DEBS deb_name Hex) as [Hd Hf].
    rewrite Hd, Hf. reflexivity.
Qed.

Lemma fuzzy_match_first_witness :
  exists first,
    resolve_deb wild_match
      [("stem.b.deb" : str, []); ("other.deb" : str, []); ("stem.a.deb" : str, [])]
      "stem.deb"
    = (first, Some ("./debs/" ++ first))
    /\ first = ("stem.a.deb" : str).
Proof.
  destruct (proj1 (fuzzy_match_first (fun _ _ => []) wild_match
              [("stem.b.deb" : str, []); ("other.deb" : str, []); ("stem.a.deb" : str, [])]
              None "stem.deb" eq_refl) eq_refl)
    as [first [Hr _]].
  - exists ("stem.b.deb" : str). split; [left; reflexivity | reflexivity].
  - exists first. split; [exact Hr|].
    vm_compute in Hr. injection Hr as Hr _. symmetry. exact Hr.
Defined.

(** C5 (as stated) fails on a declared name without the [.deb] suffix:
    [foo] is not in the directory and [foo.deb] matches [foo*.deb], yet
    no candidate is selected, no correction is recorded and the stanza
    gets no plan. *)
Lemma fuzzy_search_needs_deb_suffix :
  let DEBS : directory := [("foo.deb" : str, [])] in
  path_exists DEBS "foo" = false
  /\ glob wild_match DEBS ("foo" ++ "*.deb") = ["foo.deb" : str]
  /\ resolve_deb wild_match DEBS "foo" = ("foo" : str, None)
  /\ build_update_plans (fun _ _ => "00" : str) wild_match DEBS None
       ["Filename: foo" : str] None false false None None = Some [].
Proof. intros DEBS. repeat split. Qed.

(* ================================================================== *)
(** * Planner *)

Section PlannerFacts.
Variable hexdigest : str -> content -> str.
Variable fnmatch : str -> str -> bool.
Variable DEBS : directory.
Variable ICONS_DIR_DEFAULT : icon_directory.
Variable only : option (list str).
Variable fix_metadata add_icons : bool.
Variable icons_dir : option icon_directory.
Variable icon_url_prefix : option str.

(** What a plan records, read off the body of the loop. *)
Lemma plan_stanza_some (i : nat) (stanza : str) (plan : UpdatePlan) :
  plan_stanza hexdigest fnmatch DEBS ICONS_DIR_DEFAULT only fix_metadata
    add_icons icons_dir icon_url_prefix i stanza
  = Planned plan ->
  exists c f data pkg_id,
    snd (get_field (splitlines stanza) "Filename") = Some (c :: f)
    /\ only_excludes only (basename (c :: f)) = false
    /\ resolve_deb fnmatch DEBS (basename (c :: f))
       = (filename plan, fix_filename plan)
    /\ dir_lookup DEBS (filename plan) = Some data
    /\ reconcile fix_metadata (splitlines stanza) (filename plan)
       = (fix_pkg plan, fix_ver plan, fix_arch plan, pkg_id)
    /\ stanza_index plan = Z.of_nat i
    /\ size plan = Z.of_nat (length data)
    /\ md5 plan = hexdigest "md5" data
    /\ sha1 plan = hexdigest "sha1" data
    /\ sha256 plan = hexdigest "sha256" data.
Proof.
  unfold plan_stanza. intros H.
  destruct (snd (get_field (splitlines stanza) "Filename")) as [[|c f]|];
    try discriminate.
  destruct (only_excludes only (basename (c :: f))) eqn:Eo; [discriminate|].
  destruct (resolve_deb fnmatch DEBS (basename (c :: f))) as [actual fixf] eqn:Er.
  destruct (dir_lookup DEBS actual) as [data|] eqn:Ed;
    [|destruct (is_folder_name actual); discriminate].
  destruct (reconcile fix_metadata (splitlines stanza) actual)
    as [[[p v] a] pid] eqn:Erec.
  injection H as <-. cbn [filename fix_filename fix_pkg fix_ver fix_arch
                           stanza_index size md5 sha1 sha256].
  exists c, f, data, pid. repeat split; assumption || reflexivity.
Qed.

End PlannerFacts.

(* ================================================================== *)
(** * MetadataReconciler: corrections *)

Lemma opt_differs_spec (cur : option str) (v : str) :
  (if opt_differs cur v then Some v else None)
  = match cur with
    | Some c => if str_eqb c v then None else Some v
    | None => Some v
    end.
Proof. destruct cur as [c|]; simpl; [|reflexivity]. destruct (str_eqb c v); reflexivity. Qed.



(* ================================================================== *)
(** * File names recorded and written *)

Lemma rpartition_none_inv (c : ascii) (s : str) :
  rpartition c s = None -> contains_char c s = false.
Proof.
  induction s as [|a s IH]; simpl; [reflexivity|].
  destruct (rpartition c s) as [[b0 a0]|]; [discriminate|].
  destruct (Ascii.eqb a c) eqn:E; [discriminate|]. intros _.
  rewrite Ascii.eqb_sym, E. apply IH. reflexivity.
Qed.

Lemma basename_no_slash (p : str) : contains_char "/" (basename p) = false.
Proof.
  unfold basename. destruct (rpartition "/" p) as [[b a]|] eqn:E.
  - apply rpartition_some in E as [_ H]. exact H.
  - apply rpartition_none_inv. exact E.
Qed.

Lemma no_slash_no_dot_slash (s : str) :
  contains_char "/" s = false -> startswith "./" s = false.
Proof.
  intros H. apply str_eqb_neq. destruct s as [|c [|d r]]; try discriminate.
  cbn. intros E. injection E as -> ->. discriminate.
Qed.

Lemma in_set_field (lines : list str) (key value : str) :
  In (key ++ ": " ++ value) (set_field lines key value).
Proof.
  destruct (set_field_cases lines key value)
    as [[_ ->]|[pre [l [post [-> [_ [_ ->]]]]]]];
    apply in_or_app; right; left; reflexivity.
Qed.

Lemma in_set_if_other (x : str) (corr : option str) (key : str)
    (lines : list str) :
  has_field key x = false -> In x lines -> In x (set_if corr key lines).
Proof.
  intros Hx Hin. destruct corr as [[|c v]|]; try exact Hin. cbn [set_if].
  destruct (set_field_cases lines key (c :: v))
    as [[_ ->]|[pre [l [post [-> [_ [Hl ->]]]]]]].
  - apply in_or_app. left. exact Hin.
  - apply in_app_or in Hin as [Hin|[<-|Hin]].
    + apply in_or_app. left. exact Hin.
    + congruence.
    + apply in_or_app. right. right. exact Hin.
Qed.

(** C8 (as amended): the file name a plan records is a bare name, without
    any slash and so without a leading [./], provided the names of the
    artifact directory hold no slash.  The corrected [Filename] value of
    a fuzzily matched stanza is [./debs/] followed by that name: it does
    start with [./], and the updated stanza has the line
    [Filename: ./debs/<name>]. *)
Theorem recorded_filenames (hexdigest : str -> content -> str)
    (fnmatch : str -> str -> bool) (DEBS : directory)
    (ICONS_DIR_DEFAULT : icon_directory) (only : option (list str))
    (fix_metadata add_icons : bool) (icons_dir : option icon_directory)
    (icon_url_prefix : option str) (i : nat) (stanza : str)
    (plan : UpdatePlan) :
  Forall (fun n => contains_char "/" n = false) (map fst DEBS) ->
  plan_stanza hexdigest fnmatch DEBS ICONS_DIR_DEFAULT only fix_metadata
    add_icons icons_dir icon_url_prefix i stanza = Planned plan ->
  contains_char "/" (filename plan) = false
  /\ startswith "./" (filename plan) = false
  /\ (fix_filename plan = None
      \/ fix_filename plan = Some ("./debs/" ++ filename plan))
  /\ (forall v, fix_filename plan = Some v ->
        v = "./debs/" ++ filename plan
        /\ startswith "./" v = true
        /\ In ("Filename: " ++ v) (updated_lines stanza plan)).
Proof.
  intros Hnames Hplan.
  apply plan_stanza_some in Hplan
    as [c [f [data [pid [_ [_ [Hr [Hd _]]]]]]]].
  assert (Hin : In (filename plan) (map fst DEBS)).
  { apply is_file_in. unfold is_file. rewrite Hd. reflexivity. }
  assert (Hslash : contains_char "/" (filename plan) = false).
  { rewrite Forall_forall in Hnames. apply Hnames. exact Hin. }
  assert (Hfix : fix_filename plan = None
                 \/ fix_filename plan = Some ("./debs/" ++ filename plan)).
  { unfold resolve_deb in Hr.
    destruct (negb (path_exists DEBS (basename (c :: f))));
      [|injection Hr as _ <-; now left].
    destruct (endswith ".deb" (basename (c :: f)));
      [|injection Hr as _ <-; now left].
    destruct (sorted _) as [|first rest];
      injection Hr as Hn <-; [now left|right]. rewrite Hn. reflexivity. }
  split; [exact Hslash|]. split; [now apply no_slash_no_dot_slash|].
  split; [exact Hfix|].
  intros v Hv. destruct Hfix as [E|E]; rewrite E in Hv; [discriminate|].
  injection Hv as <-. split; [reflexivity|]. split; [reflexivity|].
  unfold updated_lines. apply in_or_app. left. unfold corrected_lines.
  rewrite E. apply in_set_if_other.
  - exact (has_field_written_other "Icon" "Filename" _ eq_refl eq_refl
             ltac:(apply str_eqb_neq; reflexivity)).
  - exact (in_set_field _ "Filename" ("./debs/" ++ filename plan)).
Qed.

Lemma recorded_filenames_witness :
  exists plan,
    plan_stanza (fun _ _ => "00" : str) wild_match
      [("pkg_1.0_arm.extra.deb" : str, [])] None None false false None None 0
      "Filename: debs/pkg_1.0_arm.deb"
    = Planned plan
    /\ contains_char "/" (filename plan) = false
    /\ startswith "./" (filename plan) = false
    /\ fix_filename plan = Some ("./debs/pkg_1.0_arm.extra.deb" : str).
Proof.
  eexists. split; [vm_compute; reflexivity|].
  match goal with
  | |- contains_char _ (filename ?p) = _ /\ _ =>
      destruct (recorded_filenames (fun _ _ => "00" : str) wild_match
                  [("pkg_1.0_arm.extra.deb" : str, [])] None None false false
                  None None 0 "Filename: debs/pkg_1.0_arm.deb" p
                  ltac:(repeat constructor) eq_refl)
        as [H1 [H2 _]]
  end.
  split; [exact H1|]. split; [exact H2|]. reflexivity.
Defined.

(** C8 (as stated) fails on a fuzzily matched stanza: the correction
    recorded and the [Filename] line written both start with [./]. *)
Lemma fuzzy_correction_has_dot_slash :
  let stanza : str := "Filename: debs/pkg_1.0_arm.deb" in
  let DEBS : directory := [("pkg_1.0_arm.extra.deb" : str, [])] in
  exists plan,
    build_update_plans (fun _ _ => "00" : str) wild_match DEBS None
      [stanza] None false false None None = Some [plan]
    /\ fix_filename plan = Some ("./debs/pkg_1.0_arm.extra.deb" : str)
    /\ startswith "./" ("./debs/pkg_1.0_arm.extra.deb" : str) = true
    /\ apply_plans [stanza] [plan]
       = Some [ "Filename: ./debs/pkg_1.0_arm.extra.deb" ++ EOL
                ++ "Size: 0" ++ EOL ++ "MD5sum: 00" ++ EOL
                ++ "SHA1: 00" ++ EOL ++ "SHA256: 00" ].
Proof.
  intros stanza DEBS. eexists. split; [vm_compute; reflexivity|].
  repeat split.
Qed.

(* ================================================================== *)
(** * Planner and Applier on a whole index *)

Lemma existsb_filter {X : Type} (f : X -> bool) (l : list X) :
  existsb f l = match filter f l with [] => false | _ :: _ => true end.
Proof.
  induction l as [|x l IH]; simpl; [reflexivity|].
  destruct (f x); [reflexivity | exact IH].
Qed.

Lemma list_set_length (l : list str) : forall i x,
  length (list_set l i x) = length l.
Proof.
  induction l as [|y l IH]; intros [|i] x; simpl; try reflexivity.
  now rewrite IH.
Qed.

Lemma list_set_other (l : list str) : forall i j x,
  i <> j -> nth_error (list_set l j x) i = nth_error l i.
Proof.
  induction l as [|y l IH]; intros [|i] [|j] x H; simpl; try reflexivity.
  - congruence.
  - apply IH. congruence.
Qed.

Lemma py_index_in_range (n : nat) (j : nat) :
  j < n -> py_index n (Z.of_nat j) = Some j.
Proof.
  intros H. unfold py_index.
  destruct (Z.leb_spec 0 (Z.of_nat j)); [|lia].
  destruct (Z.ltb_spec (Z.of_nat j) (Z.of_nat n)); [|lia].
  rewrite Nat2Z.id. reflexivity.
Qed.

(** Plans whose indices are positions of the list are all applied; the
    list keeps its length, and a position no plan names keeps its
    stanza. *)
Lemma apply_plans_frame (plans : list UpdatePlan) : forall stanzas,
  Forall (fun p => exists j, j < length stanzas
                             /\ stanza_index p = Z.of_nat j) plans ->
  exists out,
    apply_plans stanzas plans = Some out
    /\ length out = length stanzas
    /\ forall i, (forall p, In p plans -> stanza_index p <> Z.of_nat i) ->
                 nth_error out i = nth_error stanzas i.
Proof.
  induction plans as [|p plans IH]; intros stanzas Hall.
  - exists stanzas. repeat split.
  - inversion Hall as [|? ? [j [Hj Hidx]] Hall']; subst.
    cbn [apply_plans]. rewrite Hidx, (py_index_in_range _ _ Hj).
    destruct (IH (list_set stanzas j (new_stanza (nth j stanzas []) p)))
      as [out [Hout [Hlen Hframe]]].
    { rewrite list_set_length. exact Hall'. }
    exists out. split; [exact Hout|].
    rewrite list_set_length in Hlen. split; [exact Hlen|].
    intros i Hi. rewrite Hframe.
    + apply list_set_other. intros ->. apply (Hi p); [now left | exact Hidx].
    + intros q Hq. apply Hi. now right.
Qed.

Section IndexFacts.
Variable hexdigest : str -> content -> str.
Variable fnmatch : str -> str -> bool.
Variable DEBS : directory.
Variable ICONS_DIR_DEFAULT : icon_directory.
Variable only : option (list str).
Variable fix_metadata add_icons : bool.
Variable icons_dir : option icon_directory.
Variable icon_url_prefix : option str.

(** A stanza gets a plan exactly when its file name resolves and the
    allow-list admits it; its turn raises exactly when the name it
    declares is the directory and the allow-list admits it. *)
Lemma plan_stanza_cases (i : nat) (stanza : str) :
  is_planned (plan_stanza hexdigest fnmatch DEBS ICONS_DIR_DEFAULT only
                fix_metadata add_icons icons_dir icon_url_prefix i stanza)
  = resolvable fnmatch DEBS stanza && allowed only stanza
  /\ is_raised (plan_stanza hexdigest fnmatch DEBS ICONS_DIR_DEFAULT only
                  fix_metadata add_icons icons_dir icon_url_prefix i stanza)
     = names_folder DEBS stanza && allowed only stanza.
Proof.
  unfold plan_stanza, resolvable, allowed, names_folder.
  destruct (snd (get_field (splitlines stanza) "Filename")) as [[|c f]|];
    try (split; reflexivity).
  set (n := basename (c :: f)).
  destruct (only_excludes only n);
    [cbn; rewrite !andb_false_r; split; reflexivity|].
  cbn [negb]. rewrite !andb_true_r.
  unfold resolve_deb, fuzzy_pattern, path_exists, is_file.
  destruct (dir_lookup DEBS n) as [data|] eqn:Ed; cbn [negb orb andb].
  - rewrite Ed. destruct (reconcile _ _ _) as [[[? ?] ?] ?].
    split; reflexivity.
  - destruct (is_folder_name n) eqn:Ef; cbn [negb].
    + rewrite Ed, Ef, (folder_name_no_deb n Ef). split; reflexivity.
    + destruct (endswith ".deb" n); cbn [andb].
      * rewrite existsb_filter.
        fold (glob fnmatch DEBS (firstn (length n - 4) n ++ "*.deb")).
        destruct (sorted (glob fnmatch DEBS _)) as [|first rest] eqn:Es.
        -- apply sorted_nil in Es. rewrite Es, Ed, Ef. split; reflexivity.
        -- pose proof (sorted_first _ _ _ Es) as [Hin _].
           destruct (glob fnmatch DEBS _) as [|g gs] eqn:Eg; [destruct Hin|].
           assert (Hp : is_file DEBS first = true).
           { apply is_file_in.
             assert (Hin' : In first (glob fnmatch DEBS
                                        (firstn (length n - 4) n ++ "*.deb")))
               by (rewrite Eg; exact Hin).
             unfold glob in Hin'. apply filter_In in Hin'. tauto. }
           unfold is_file in Hp.
           destruct (dir_lookup DEBS first); [|discriminate].
           destruct (reconcile _ _ _) as [[[? ?] ?] ?]. split; reflexivity.
      * rewrite Ed, Ef. split; reflexivity.
Qed.

(** The loop returns unless a turn raises; the list it returns has one
    plan for each stanza that gets one. *)
Lemma build_from_result (stanzas : list str) : forall i,
  match build_from hexdigest fnmatch DEBS ICONS_DIR_DEFAULT only
          fix_metadata add_icons icons_dir icon_url_prefix i stanzas with
  | Some plans =>
      existsb (fun s => names_folder DEBS s && allowed only s) stanzas
      = false
      /\ length plans
         = length (filter (fun s => resolvable fnmatch DEBS s
                                    && allowed only s) stanzas)
  | None =>
      existsb (fun s => names_folder DEBS s && allowed only s) stanzas
      = true
  end.
Proof.
  induction stanzas as [|s stanzas IH]; intros i; [split; reflexivity|].
  cbn [build_from filter existsb].
  destruct (plan_stanza_cases i s) as [Hp Hr].
  rewrite <- Hp, <- Hr. specialize (IH (S i)).
  destruct (plan_stanza _ _ _ _ _ _ _ _ _ i s); cbn [is_planned is_raised orb].
  - exact IH.
  - destruct (build_from _ _ _ _ _ _ _ _ _ (S i) stanzas);
      [|exact IH]. destruct IH as [H1 H2]. split; [exact H1|].
    cbn [length]. now rewrite H2.
  - reflexivity.
Qed.

(** Every plan built is the plan of the stanza at its index. *)
Lemma build_from_index (stanzas : list str) : forall i plans p,
  build_from hexdigest fnmatch DEBS ICONS_DIR_DEFAULT only fix_metadata
    add_icons icons_dir icon_url_prefix i stanzas = Some plans ->
  In p plans ->
  exists j stanza,
    nth_error stanzas j = Some stanza
    /\ plan_stanza hexdigest fnmatch DEBS ICONS_DIR_DEFAULT only fix_metadata
    add_icons icons_dir icon_url_prefix (i + j) stanza = Planned p.
Proof.
  induction stanzas as [|s stanzas IH]; intros i plans p Hb Hin.
  { injection Hb as <-. destruct Hin. }
  cbn [build_from] in Hb.
  assert (Hrest : forall tail,
            build_from hexdigest fnmatch DEBS ICONS_DIR_DEFAULT only
              fix_metadata add_icons icons_dir icon_url_prefix (S i) stanzas
            = Some tail -> In p tail ->
            exists j stanza,
              nth_error (s :: stanzas) j = Some stanza
              /\ plan_stanza hexdigest fnmatch DEBS ICONS_DIR_DEFAULT only
                   fix_metadata add_icons icons_dir icon_url_prefix (i + j)
                   stanza = Planned p).
  { intros tail Ht H. destruct (IH (S i) tail p Ht H) as [j [st [Hn Hp]]].
    exists (S j), st. split; [exact Hn|].
    replace (i + S j) with (S i + j) by lia. exact Hp. }
  destruct (plan_stanza _ _ _ _ _ _ _ _ _ i s) as [|q|] eqn:E.
  - now apply (Hrest plans).
  - destruct (build_from _ _ _ _ _ _ _ _ _ (S i) stanzas) as [tail|] eqn:Et;
      [|discriminate].
    injection Hb as <-. destruct Hin as [<-|Hin]; [|now apply (Hrest tail)].
    exists 0, s. split; [reflexivity|]. rewrite Nat.add_0_r. exact E.
  - discriminate.
Qed.

Lemma build_indices_in_range (stanzas : list str) (plans : list UpdatePlan) :
  build_from hexdigest fnmatch DEBS ICONS_DIR_DEFAULT only fix_metadata
    add_icons icons_dir icon_url_prefix 0 stanzas = Some plans ->
  Forall (fun p => exists j, j < length stanzas
                             /\ stanza_index p = Z.of_nat j) plans.
Proof.
  intros Hb. apply Forall_forall. intros p Hin.
  destruct (build_from_index stanzas 0 plans p Hb Hin) as [j [st [Hn Hp]]].
  exists j. split.
  - apply nth_error_Some. congruence.
  - apply plan_stanza_some in Hp. destruct Hp as [? [? [? [? H]]]].
    apply H.
Qed.

End IndexFacts.

Lemma filter_length_le {X : Type} (f g : X -> bool) (l : list X) :
  length (filter (fun x => f x && g x) l) <= length (filter f l).
Proof.
  induction l as [|x l IH]; simpl; [lia|].
  destruct (f x), (g x); simpl; lia.
Qed.

Lemma allowed_without_list (only : option (list str)) (stanza : str) :
  only = None \/ only = Some [] -> allowed only stanza = true.
Proof.
  intros [-> | ->]; unfold allowed;
    destruct (snd (get_field (splitlines stanza) "Filename")) as [[|c f]|];
    reflexivity.
Qed.

(** X1: on an artifact directory of regular files, the planner returns
    unless a stanza that the allow-list admits declares the directory
    itself or its parent (an empty base name, [.] or [..]): then, and
    only then, it raises [IsADirectoryError].  When it returns, for an index of [N] stanzas of which [M] have a
    [Filename] field that resolves, exactly or by the fuzzy search, to a
    file of the artifact directory, it returns one plan for each such
    stanza that the allow-list admits: exactly [M] plans without an
    allow-list, at most [M] with one; applying these plans succeeds and
    returns a list of exactly [N] stanzas. *)
Theorem plan_count (hexdigest : str -> content -> str)
    (fnmatch : str -> str -> bool) (DEBS : directory)
    (ICONS_DIR_DEFAULT : icon_directory) (stanzas : list str)
    (only : option (list str)) (fix_metadata add_icons : bool)
    (icons_dir : option icon_directory) (icon_url_prefix : option str) :
  let run := build_update_plans hexdigest fnmatch DEBS ICONS_DIR_DEFAULT
               stanzas only fix_metadata add_icons icons_dir
               icon_url_prefix in
  let N := length stanzas in
  let M := length (filter (resolvable fnmatch DEBS) stanzas) in
  (run = None
   <-> existsb (fun s => names_folder DEBS s && allowed only s) stanzas
       = true)
  /\ forall plans,
       run = Some plans ->
       length plans
       = length (filter (fun s => resolvable fnmatch DEBS s
                                  && allowed only s) stanzas)
       /\ length plans <= M
       /\ (only = None \/ only = Some [] -> length plans = M)
       /\ exists out, apply_plans stanzas plans = Some out /\ length out = N.
Proof.
  intros run N M. subst run N M. unfold build_update_plans.
  pose proof (build_from_result hexdigest fnmatch DEBS ICONS_DIR_DEFAULT only
                fix_metadata add_icons icons_dir icon_url_prefix stanzas 0)
    as Hres.
  split.
  - destruct (build_from _ _ _ _ _ _ _ _ _ 0 stanzas) as [plans|].
    + destruct Hres as [H _]. rewrite H. split; discriminate.
    + rewrite Hres. split; reflexivity.
  - intros plans Hb. rewrite Hb in Hres. destruct Hres as [_ Hlen].
    rewrite Hlen. split; [reflexivity|].
    split; [apply filter_length_le|]. split.
    + intros Hon. f_equal. apply filter_ext. intros s.
      rewrite (allowed_without_list only s Hon). apply andb_true_r.
    + destruct (apply_plans_frame _ stanzas
                  (build_indices_in_range hexdigest fnmatch DEBS
                     ICONS_DIR_DEFAULT only fix_metadata add_icons icons_dir
                     icon_url_prefix stanzas plans Hb))
        as [out [Hout [Hl _]]].
      exists out. split; assumption.
Qed.

Lemma plan_count_witness :
  let DEBS : directory :=
    [("pkg1_1.0_arm.deb" : str, []); ("pkg3_2.0_arm.more.deb" : str, [])] in
  let stanzas : list str :=
    [ "Package: pkg1" ++ [LF] ++ "Filename: ./debs/pkg1_1.0_arm.deb";
      "Package: pkg2" ++ [LF] ++ "Filename: ./debs/pkg2_1.0_arm.deb";
      "Package: pkg3" ++ [LF] ++ "Filename: ./debs/pkg3_2.0_arm.deb";
      "Package: pkg4" : str ] in
  length (filter (resolvable wild_match DEBS) stanzas) = 2
  /\ exists plans,
       build_update_plans (fun _ _ => "00" : str) wild_match DEBS None
         stanzas (Some []) true false None None = Some plans
       /\ length plans = 2.
Proof.
  intros DEBS stanzas.
  split; [reflexivity|]. eexists. split; [vm_compute; reflexivity|].
  match goal with
  | |- length ?ps = 2 =>
      destruct (proj2 (plan_count (fun _ _ => "00" : str) wild_match DEBS
                         None stanzas (Some []) true false None None)
                  ps eq_refl) as [_ [_ [H _]]]
  end.
  apply H. right. reflexivity.
Defined.

(** C2: the claim fails where a stanza declares the artifact directory
    itself.  With [Filename: ./debs/] the base name is empty, the path
    [DEBS / ''] exists, so the stanza is not skipped as a missing
    artifact, and hashing it raises [IsADirectoryError]: of two stanzas
    one resolves to an artifact ([M = 1]), yet the planner returns no
    list of plans at all. *)
Theorem folder_name_stops_planner :
  let DEBS : directory := [("pkg1_1.0_arm.deb" : str, [])] in
  let stanzas : list str :=
    [ "Package: pkg1" ++ [LF] ++ "Filename: ./debs/pkg1_1.0_arm.deb";
      "Package: pkg2" ++ [LF] ++ "Filename: ./debs/" ] in
  length (filter (resolvable wild_match DEBS) stanzas) = 1
  /\ plan_stanza (fun _ _ => "00" : str) wild_match DEBS None None false
       false None None 1
       ("Package: pkg2" ++ [LF] ++ "Filename: ./debs/")
     = IsADirectoryError
  /\ build_update_plans (fun _ _ => "00" : str) wild_match DEBS None
       stanzas None false false None None = None.
Proof. intros DEBS stanzas. repeat split. Qed.


(** X16: a stanza for which the planner produces no plan is, at its
    index, the same string in the list returned by [apply_plans],
    whenever the planner returns; and the stanza is skipped when it has
    no non-empty [Filename] value, when the allow-list excludes it, and
    when its artifact is not found and the name it declares is not the
    directory itself. *)
Theorem unplanned_stanza_unchanged (hexdigest : str -> content -> str)
    (fnmatch : str -> str -> bool) (DEBS : directory)
    (ICONS_DIR_DEFAULT : icon_directory) (stanzas : list str)
    (only : option (list str)) (fix_metadata add_icons : bool)
    (icons_dir : option icon_directory) (icon_url_prefix : option str)
    (i : nat) (stanza : str) :
  nth_error stanzas i = Some stanza ->
  truthy (snd (get_field (splitlines stanza) "Filename")) = false
  \/ allowed only stanza = false
  \/ (resolvable fnmatch DEBS stanza = false
      /\ names_folder DEBS stanza = false) ->
  plan_stanza hexdigest fnmatch DEBS ICONS_DIR_DEFAULT only fix_metadata
    add_icons icons_dir icon_url_prefix i stanza = Skipped
  /\ forall plans,
       build_update_plans hexdigest fnmatch DEBS ICONS_DIR_DEFAULT
         stanzas only fix_metadata add_icons icons_dir icon_url_prefix
       = Some plans ->
       exists out,
         apply_plans stanzas plans = Some out
         /\ length out = length stanzas
         /\ nth_error out i = Some stanza.
Proof.
  intros Hnth Hwhy.
  assert (Hnone : forall k,
             plan_stanza hexdigest fnmatch DEBS ICONS_DIR_DEFAULT only
               fix_metadata add_icons icons_dir icon_url_prefix k stanza
             = Skipped).
  { intros k.
    destruct (plan_stanza_cases hexdigest fnmatch DEBS ICONS_DIR_DEFAULT
                only fix_metadata add_icons icons_dir icon_url_prefix
                k stanza) as [Hp Hr].
    assert (E : resolvable fnmatch DEBS stanza && allowed only stanza = false
                /\ names_folder DEBS stanza && allowed only stanza = false).
    { destruct Hwhy as [Ht|[Ha|[Hr1 Hr2]]].
      - unfold resolvable, names_folder.
        destruct (snd (get_field (splitlines stanza) "Filename"))
          as [[|c f]|]; try (split; reflexivity). discriminate.
      - rewrite Ha, !andb_false_r. split; reflexivity.
      - rewrite Hr1, Hr2. split; reflexivity. }
    destruct E as [E1 E2]. rewrite E1 in Hp. rewrite E2 in Hr.
    destruct (plan_stanza _ _ _ _ _ _ _ _ _ k stanza);
      [reflexivity | discriminate | discriminate]. }
  split; [apply Hnone|].
  unfold build_update_plans. intros plans Hb.
  destruct (apply_plans_frame _ stanzas
              (build_indices_in_range hexdigest fnmatch DEBS
                 ICONS_DIR_DEFAULT only fix_metadata add_icons icons_dir
                 icon_url_prefix stanzas plans Hb))
    as [out [Hout [Hlen Hframe]]].
  exists out. split; [exact Hout|]. split; [exact Hlen|].
  rewrite Hframe; [exact Hnth|].
  intros p Hin Hidx.
  destruct (build_from_index hexdigest fnmatch DEBS ICONS_DIR_DEFAULT only
              fix_metadata add_icons icons_dir icon_url_prefix stanzas 0
              plans p Hb Hin)
    as [j [st [Hj Hp]]].
  pose proof Hp as Hp'.
  apply plan_stanza_some in Hp' as [? [? [? [? [_ [_ [_ [_ [_ [Hi _]]]]]]]]]].
  rewrite Hi in Hidx. apply Nat2Z.inj in Hidx. cbn [Nat.add] in Hidx. subst j.
  rewrite Hnth in Hj. injection Hj as <-.
  cbn [Nat.add] in Hp. rewrite Hnone in Hp. discriminate.
Qed.

Lemma unplanned_stanza_unchanged_witness :
  let DEBS : directory := [("pkg1_1.0_arm.deb" : str, [])] in
  let stanzas : list str :=
    [ "Package: pkg1" ++ [LF] ++ "Filename: pkg1_1.0_arm.deb";
      "Package: pkg2" ++ [LF] ++ "SIZE: 7" ++ [LF]
      ++ "Filename: pkg2_1.0_arm.deb" ] in
  exists plans out,
    build_update_plans (fun _ _ => "00" : str) wild_match DEBS None
      stanzas None true false None None = Some plans
    /\ apply_plans stanzas plans = Some out
    /\ length out = 2
    /\ nth_error out 1
       = Some ("Package: pkg2" ++ [LF] ++ "SIZE: 7" ++ [LF]
               ++ "Filename: pkg2_1.0_arm.deb").
Proof.
  intros DEBS stanzas.
  destruct (unplanned_stanza_unchanged (fun _ _ => "00" : str) wild_match
              DEBS None stanzas None true false None None 1
              ("Package: pkg2" ++ [LF] ++ "SIZE: 7" ++ [LF]
               ++ "Filename: pkg2_1.0_arm.deb") eq_refl)
    as [_ Hout].
  - right. right. split; reflexivity.
  - eexists. destruct (Hout _ ltac:(vm_compute; reflexivity))
      as [out [H1 [H2 H3]]].
    exists out. split; [vm_compute; reflexivity|].
    split; [exact H1|]. split; [exact H2|exact H3].
Defined.

(* ================================================================== *)
(** * Further properties of the field accessor *)

Lemma get_field_none (key : str) (lines : list str) : forall i,
  Forall (fun ln => has_field key ln = false) lines ->
  get_field_from i lines key = (None, None).
Proof.
  induction lines as [|ln lines IH]; intros i H; [reflexivity|].
  inversion H as [|? ? Hh H']; subst. cbn [get_field_from].
  unfold has_field in Hh. destruct (match_field key ln); [discriminate|].
  apply IH. exact H'.
Qed.

Lemma get_field_at (key : str) (pre : list str) (ln g : str)
    (post : list str) : forall i,
  Forall (fun l => has_field key l = false) pre ->
  match_field key ln = Some g ->
  get_field_from i (pre ++ ln :: post) key
  = (Some (i + length pre), Some (strip g)).
Proof.
  induction pre as [|x pre IH]; intros i Hpre Hm.
  - cbn [app get_field_from length]. rewrite Hm, Nat.add_0_r. reflexivity.
  - inversion Hpre as [|? ? Hx Hpre']; subst. cbn [app get_field_from length].
    unfold has_field in Hx. destruct (match_field key x); [discriminate|].
    rewrite (IH (S i) Hpre' Hm). do 2 f_equal. lia.
Qed.

(** X2: [get_field] returns the first line that matches the key: the
    index is a position of the list, the line there matches and the value
    is its group 1 trimmed, and no line before it matches; when no line
    matches, both components are [None].  The two components are never
    one [None] and one [Some]. *)
Theorem get_field_first_occurrence (lines : list str) (key : str) :
  match get_field lines key with
  | (Some i, Some v) =>
      exists ln g,
        nth_error lines i = Some ln
        /\ match_field key ln = Some g
        /\ v = strip g
        /\ strip v = v
        /\ forall j ln', j < i -> nth_error lines j = Some ln' ->
                         match_field key ln' = None
  | (None, None) => forall ln, In ln lines -> match_field key ln = None
  | _ => False
  end.
Proof.
  unfold get_field.
  destruct (get_field_from_fst key lines 0)
    as [[Hn Hall]|[pre [ln [post [-> [Hpre [Hl Hi]]]]]]].
  - rewrite (get_field_none key lines 0 Hall).
    intros ln Hin. rewrite Forall_forall in Hall. specialize (Hall ln Hin).
    unfold has_field in Hall. destruct (match_field key ln); [discriminate|reflexivity].
  - unfold has_field in Hl. destruct (match_field key ln) as [g|] eqn:Hm; [|discriminate].
    rewrite (get_field_at key pre ln g post 0 Hpre Hm). cbn [Nat.add].
    exists ln, g. split.
    + rewrite nth_error_app2 by lia. now rewrite Nat.sub_diag.
    + split; [exact Hm|]. split; [reflexivity|]. split; [apply strip_idem|].
      intros j ln' Hj Hnth. rewrite nth_error_app1 in Hnth by exact Hj.
      apply nth_error_In in Hnth. rewrite Forall_forall in Hpre.
      specialize (Hpre ln' Hnth). unfold has_field in Hpre.
      destruct (match_field key ln'); [discriminate|reflexivity].
Qed.

Lemma lstrip_all_space (w : str) :
  Forall (fun c => isspace c = true) w -> lstrip w = [].
Proof.
  intros H. unfold lstrip. rewrite <- (app_nil_r w).
  rewrite dropwhile_all by exact H. reflexivity.
Qed.

Lemma strip_all_space (w : str) :
  Forall (fun c => isspace c = true) w -> strip w = [].
Proof. intros H. unfold strip. rewrite lstrip_all_space by exact H. reflexivity. Qed.

Lemma strip_lstrip (s : str) : strip (lstrip s) = strip s.
Proof.
  unfold strip. f_equal. unfold lstrip. apply dropwhile_fix.
  apply (dropwhile_head isspace).
Qed.

(** Without a line feed in it, any non-empty text after the colon is a
    value for the field pattern, and the value read is that text
    trimmed. *)
Lemma match_value_no_lf (rest : str) :
  rest <> [] -> no_lf rest = true ->
  exists g, match_value rest = Some g /\ strip g = strip rest.
Proof.
  intros Hne Hlf.
  destruct (dropwhile_split isspace rest) as [w [Hsplit Hw]].
  pose proof (dropwhile_head isspace rest) as Hhead.
  fold (lstrip rest) in Hsplit, Hhead.
  destruct (lstrip rest) as [|c t] eqn:Et.
  - rewrite app_nil_r in Hsplit. subst w.
    destruct (exists_last Hne) as [w0 [z Ez]].
    rewrite Ez in Hw, Hlf |- *.
    apply Forall_app in Hw as [Hw0 Hz]. inversion Hz as [|? ? Hz' _]; subst.
    unfold no_lf in Hlf. rewrite forallb_app in Hlf.
    apply andb_prop in Hlf as [_ Hlf]. simpl in Hlf. rewrite andb_true_r in Hlf.
    unfold re_dot in Hlf. apply negb_true_iff in Hlf.
    exists [z]. split; [apply match_value_spaces; assumption|].
    rewrite !strip_all_space; [reflexivity| |repeat constructor; exact Hz'].
    apply Forall_app. split; [exact Hw0 | repeat constructor; exact Hz'].
  - assert (Hdot : Forall (fun x => re_dot x = true) (c :: t)).
    { unfold no_lf in Hlf. rewrite Hsplit, forallb_app in Hlf.
      apply andb_prop in Hlf as [_ Hlf]. apply Forall_forall.
      rewrite forallb_forall in Hlf. exact Hlf. }
    apply Forall_cons_iff in Hdot as [Hc Ht].
    exists (c :: t). split.
    + unfold match_value. rewrite Hsplit.
      apply re_star_greedy; [exact Hw| |exact Hhead].
      cbn [re_plus_cap]. rewrite Hc.
      rewrite <- (app_nil_r t) at 1.
      apply re_star_cap_greedy; [exact Ht|reflexivity|exact I].
    + rewrite <- Et. apply strip_lstrip.
Qed.

(** The line written by [set_field] is a line of its key, with the value
    trimmed, when the value holds no line feed. *)
Lemma match_field_written (key value : str) :
  plain_key key = true -> no_lf value = true ->
  exists g, match_field key (key ++ ": " ++ value) = Some g
            /\ strip g = strip value.
Proof.
  intros Hp Hlf.
  destruct (match_value_no_lf (" "%char :: value)) as [g [Hg Hs]].
  - discriminate.
  - simpl. exact Hlf.
  - exists g. split.
    + change (key ++ ": " ++ value)
        with ([] ++ key ++ [] ++ ":"%char :: " "%char :: value).
      rewrite match_field_key_line by (assumption || constructor || reflexivity).
      exact Hg.
    + rewrite Hs, <- (strip_lstrip (" "%char :: value)).
      change (lstrip (" "%char :: value)) with (lstrip value).
      apply strip_lstrip.
Qed.

(** Where [set_field] puts its line: in place of the first line of the
    key, or at the end when there is none. *)
Lemma set_field_shape (lines : list str) (key value : str) :
  exists pre post,
    set_field lines key value = pre ++ (key ++ ": " ++ value) :: post
    /\ Forall (fun ln => has_field key ln = false) pre
    /\ (forall value', set_field lines key value'
                       = pre ++ (key ++ ": " ++ value') :: post).
Proof.
  destruct (set_field_cases lines key value)
    as [[Hall E]|[pre [l [post [E0 [Hpre [Hl E]]]]]]].
  - exists lines, []. split; [exact E|]. split; [exact Hall|].
    intros value'. unfold set_field, get_field.
    rewrite (get_field_none key lines 0 Hall). reflexivity.
  - exists pre, post. split; [exact E|]. split; [exact Hpre|].
    intros value'. subst lines. unfold set_field, get_field.
    unfold has_field in Hl. destruct (match_field key l) as [g|] eqn:Hm; [|discriminate].
    rewrite (get_field_at key pre l g post 0 Hpre Hm). cbn [fst Nat.add].
    apply list_set_middle.
Qed.

(** X3: after [set_field(lines, key, value)], for a key without white
    space or colon and a value without line feed, [get_field] finds the
    key at the line just written and returns the value trimmed. *)
Theorem get_after_set_field (lines : list str) (key value : str) :
  plain_key key = true -> no_lf value = true ->
  exists i,
    get_field (set_field lines key value) key = (Some i, Some (strip value))
    /\ nth_error (set_field lines key value) i = Some (key ++ ": " ++ value).
Proof.
  intros Hp Hlf.
  destruct (set_field_shape lines key value) as [pre [post [E [Hpre _]]]].
  destruct (match_field_written key value Hp Hlf) as [g [Hg Hs]].
  exists (length pre). rewrite E. split.
  - pose proof (get_field_at key pre _ g post 0 Hpre Hg) as Hget.
    rewrite Hs in Hget. exact Hget.
  - rewrite nth_error_app2 by apply le_n. now rewrite Nat.sub_diag.
Qed.

Lemma get_after_set_field_witness :
  exists i,
    get_field (set_field ["Name: x" : str; "version: 1" : str; "Version: 0" : str]
                 "Version" " 2.0 ") "Version"
    = (Some i, Some (strip " 2.0 "))
    /\ nth_error (set_field ["Name: x" : str; "version: 1" : str; "Version: 0" : str]
                    "Version" " 2.0 ") i
       = Some ("Version" ++ ": " ++ " 2.0 ").
Proof. apply get_after_set_field; reflexivity. Defined.

(** X4: [set_field] overwrites: for a key without white space or colon
    and a first value without line feed, setting the key twice gives the
    lines that the second call alone gives; in particular setting the
    same value twice changes nothing more, and the number of lines grows
    by one at most. *)
Theorem set_field_twice (lines : list str) (key value value' : str) :
  plain_key key = true -> no_lf value = true ->
  set_field (set_field lines key value) key value' = set_field lines key value'
  /\ set_field (set_field lines key value) key value = set_field lines key value
  /\ length lines <= length (set_field lines key value) <= S (length lines).
Proof.
  intros Hp Hlf.
  destruct (set_field_shape lines key value) as [pre [post [E [Hpre Hany]]]].
  destruct (match_field_written key value Hp Hlf) as [g [Hg _]].
  assert (Hre : forall v, set_field (set_field lines key value) key v
                          = pre ++ (key ++ ": " ++ v) :: post).
  { intros v. rewrite E. unfold set_field at 1, get_field.
    pose proof (get_field_at key pre _ g post 0 Hpre Hg) as Hget.
    cbn [Nat.add] in Hget.
    replace (get_field_from 0 (pre ++ (key ++ ": " ++ value) :: post) key)
      with (Some (length pre), Some (strip g)) by (symmetry; exact Hget).
    cbn [fst]. apply list_set_middle. }
  split; [rewrite Hre, Hany; reflexivity|].
  split; [rewrite Hre, E; reflexivity|].
  destruct (set_field_cases lines key value)
    as [[_ ->]|[p [l [q [-> [_ [_ ->]]]]]]];
    rewrite !length_app; simpl; lia.
Qed.

Lemma set_field_twice_witness :
  set_field (set_field ["Name: x" : str] "Icon" "a.png") "Icon" "b.png"
  = set_field ["Name: x" : str] "Icon" "b.png"
  /\ set_field (set_field ["Name: x" : str] "Icon" "a.png") "Icon" "a.png"
     = set_field ["Name: x" : str] "Icon" "a.png"
  /\ length ["Name: x" : str]
     <= length (set_field ["Name: x" : str] "Icon" "a.png")
     <= S (length ["Name: x" : str]).
Proof. apply set_field_twice; reflexivity. Defined.

(** X5: [set_field] on one key leaves every other key alone: for two
    keys without white space or colon that differ beyond casing, the
    value [get_field] returns for the first is the same before and after
    the second is set. *)
Theorem set_field_keeps_other_keys (lines : list str) (key key' value : str) :
  plain_key key = true -> plain_key key' = true ->
  lower key <> lower key' ->
  snd (get_field (set_field lines key' value) key) = snd (get_field lines key)
  /\ field_line key (set_field lines key' value) = field_line key lines.
Proof.
  intros Hp Hp' Hne.
  pose proof (find_set_field_other key key' value lines Hp Hp' Hne) as H.
  split; [|exact H]. rewrite !get_field_snd, H. reflexivity.
Qed.

Lemma set_field_keeps_other_keys_witness :
  snd (get_field (set_field ["package: p" : str; "Version: 1" : str] "Version" "2")
         "Package")
  = snd (get_field ["package: p" : str; "Version: 1" : str] "Package")
  /\ field_line "Package"
       (set_field ["package: p" : str; "Version: 1" : str] "Version" "2")
     = field_line "Package" ["package: p" : str; "Version: 1" : str].
Proof.
  apply set_field_keeps_other_keys; try reflexivity.
  apply str_eqb_neq. reflexivity.
Defined.

Lemma str_in_spec (x : str) (l : list str) : str_in x l = true <-> In x l.
Proof.
  unfold str_in. rewrite existsb_exists. split.
  - intros [y [Hy E]]. apply str_eqb_eq in E. now subst.
  - intros H. exists x. split; [exact H | apply str_eqb_refl].
Qed.

Lemma remove_fields_kept (lines keys : list str) :
  Forall (fun ln => removed (map lower keys) ln = false)
         (remove_fields lines keys).
Proof.
  unfold remove_fields. apply Forall_forall. intros ln Hin.
  apply filter_In in Hin as [_ H]. apply negb_true_iff in H. exact H.
Qed.

Lemma re_star_cap_sound {A : Type} (p : ascii -> bool)
    (k : str -> str -> option A) (s : str) : forall (g : str) (r : A),
  re_star_cap p k g s = Some r ->
  exists w s', s = w ++ s' /\ Forall (fun c => p c = true) w
               /\ k (g ++ w) s' = Some r.
Proof.
  induction s as [|c s IH]; intros g r H; cbn [re_star_cap] in H.
  - exists [], []. rewrite (app_nil_r g).
    split; [reflexivity|]. split; [constructor|exact H].
  - assert (Hstop : k g (c :: s) = Some r ->
              exists w s', c :: s = w ++ s' /\ Forall (fun c => p c = true) w
                           /\ k (g ++ w) s' = Some r).
    { intros Hk. exists [], (c :: s). rewrite (app_nil_r g).
      split; [reflexivity|]. split; [constructor|exact Hk]. }
    destruct (p c) eqn:Ep; [|exact (Hstop H)].
    destruct (re_star_cap p k (g ++ [c]) s) as [r'|] eqn:E; [|exact (Hstop H)].
    injection H as ->. destruct (IH _ _ E) as [w [s' [-> [Hw Hk]]]].
    exists (c :: w), s'. rewrite <- app_assoc in Hk.
    split; [reflexivity|]. split; [constructor; assumption|exact Hk].
Qed.

Lemma contains_char_app (c : ascii) (a b : str) :
  contains_char c (a ++ b) = contains_char c a || contains_char c b.
Proof. unfold contains_char. apply existsb_app. Qed.

Lemma match_name_needs_colon (ln : str) :
  contains_char ":" ln = false -> match_name ln = None.
Proof.
  intros Hc. destruct (match_name ln) as [g|] eqn:E; [|reflexivity].
  exfalso. unfold match_name in E.
  apply re_star_sound in E as [w [s1 [-> [_ E]]]].
  destruct s1 as [|c s1]; [discriminate|]. cbn [re_plus_cap] in E.
  destruct (not_colon c); [|discriminate].
  apply re_star_cap_sound in E as [w2 [s2 [-> [_ E]]]].
  apply re_star_sound in E as [w3 [s3 [-> [_ E]]]].
  destruct s3 as [|d s3]; [discriminate|]. cbn [re_chr] in E.
  destruct (Ascii.eqb d ":") eqn:Ed; [|discriminate].
  apply Ascii.eqb_eq in Ed. subst d.
  assert (Ht : contains_char ":" (w ++ c :: w2 ++ w3 ++ ":"%char :: s3) = true).
  { apply existsb_exists. exists ":"%char. split; [|reflexivity].
    apply in_or_app. right. right. apply in_or_app. right.
    apply in_or_app. right. now left. }
  congruence.
Qed.

Lemma match_name_no_name (rest : str) : match_name (":"%char :: rest) = None.
Proof. reflexivity. Qed.

Lemma re_star_last {A : Type} (p : ascii -> bool) (k : str -> option A)
    (w : str) (z : ascii) (s : str) (r : A) :
  Forall (fun c => p c = true) w -> p z = true ->
  match s with [] => True | c :: _ => p c = false end ->
  k s = None -> k (z :: s) = Some r ->
  re_star p k (w ++ z :: s) = Some r.
Proof.
  intros Hw Hz Hs Hn Hk. induction Hw as [|c w Hc _ IH].
  - cbn [app re_star]. rewrite Hz, (re_star_stop p k s Hs), Hn. exact Hk.
  - cbn [app re_star]. rewrite Hc, IH. reflexivity.
Qed.

Lemma not_colon_clean (s : str) :
  contains_char ":" s = false -> Forall (fun c => not_colon c = true) s.
Proof.
  induction s as [|c s IH]; intros H; [constructor|].
  unfold contains_char in H. cbn [existsb] in H.
  apply orb_false_elim in H as [Hc Hs].
  constructor; [|exact (IH Hs)].
  unfold not_colon. now rewrite Ascii.eqb_sym, Hc.
Qed.

(** Group 1 of the pattern of [remove_fields], trimmed, is the text
    before the first colon, trimmed. *)
Lemma match_name_colon (pre rest : str) :
  contains_char ":" pre = false -> pre <> [] ->
  exists g, match_name (pre ++ ":"%char :: rest) = Some g /\ strip g = strip pre.
Proof.
  intros Hc Hne. pose proof (not_colon_clean pre Hc) as Hnc.
  destruct (dropwhile_split isspace pre) as [w [Hpre Hw]].
  pose proof (dropwhile_head isspace pre) as Hhead.
  destruct (dropwhile isspace pre) as [|c b] eqn:Eb.
  - (* the name is white space only *)
    rewrite app_nil_r in Hpre. subst w.
    destruct (rev pre) as [|z rw] eqn:Er.
    { apply (f_equal (@rev ascii)) in Er. rewrite rev_involutive in Er.
      now subst pre. }
    apply (f_equal (@rev ascii)) in Er. rewrite rev_involutive in Er.
    cbn [rev] in Er. subst pre.
    apply Forall_app in Hw as [Hw Hz]. inversion Hz as [|? ? Hz' _]; subst.
    exists [z]. split.
    + unfold match_name. rewrite <- app_assoc. cbn [app].
      apply re_star_last; [exact Hw|exact Hz'|reflexivity|reflexivity|].
      cbn [re_plus_cap]. rewrite (not_colon_space z Hz').
      cbn [re_star_cap not_colon Ascii.eqb]. cbn.
      now rewrite re_star_const.
    + rewrite !strip_all_space; [reflexivity| |].
      * apply Forall_app. split; [exact Hw|]. now constructor.
      * now constructor.
  - exists (c :: b). split.
    + unfold match_name. rewrite Hpre, <- app_assoc.
      apply re_star_greedy; [exact Hw| |exact Hhead].
      rewrite Hpre in Hnc. apply Forall_app in Hnc as [_ Hnc].
      inversion Hnc as [|? ? Hc1 Hb]; subst.
      cbn [app re_plus_cap]. rewrite Hc1.
      apply re_star_cap_greedy; [exact Hb| |reflexivity].
      cbn. now rewrite re_star_const.
    + rewrite <- Eb. apply strip_lstrip.
Qed.

Lemma before_first_split (c : ascii) (s : str) :
  contains_char c s = true ->
  exists rest, s = before_first c s ++ c :: rest.
Proof.
  induction s as [|a s IH]; [discriminate|].
  unfold contains_char. cbn [existsb before_first]. intros H.
  destruct (Ascii.eqb a c) eqn:E.
  - apply Ascii.eqb_eq in E. subst. exists s. reflexivity.
  - rewrite Ascii.eqb_sym, E in H. destruct (IH H) as [rest Hr].
    exists rest. cbn [app]. now rewrite <- Hr.
Qed.

(** The test of [remove_fields] without the regular expression: the line
    holds a colon, and the text before the first colon, trimmed and
    lower-cased, is one of the keys. *)
Lemma removed_names (keys_lc : list str) (ln : str) :
  ~ In [] keys_lc ->
  removed keys_lc ln
  = contains_char ":" ln
    && str_in (lower (strip (before_first ":" ln))) keys_lc.
Proof.
  intros Hk. unfold removed.
  destruct (contains_char ":" ln) eqn:Ec.
  2:{ now rewrite (match_name_needs_colon ln Ec). }
  destruct (before_first_split ":" ln Ec) as [rest Hs].
  pose proof (before_first_clean ":" ln) as Hclean.
  destruct (before_first ":" ln) as [|c pre] eqn:Eb.
  - rewrite Hs. cbn [app]. rewrite match_name_no_name. cbn.
    symmetry. apply not_true_is_false. intros H. apply Hk.
    unfold str_in in H. apply existsb_exists in H as [x [Hin Hx]].
    apply str_eqb_eq in Hx. now subst x.
  - destruct (match_name_colon (c :: pre) rest Hclean) as [g [Hm Hg]];
      [discriminate|].
    rewrite Hs at 1. rewrite Hm, Hg. reflexivity.
Qed.

Lemma lower_nil (k : str) : lower k = [] -> k = [].
Proof. destruct k; [reflexivity|discriminate]. Qed.

Lemma removed_names_field (keys : list str) (ln : str) :
  ~ In [] keys ->
  removed (map lower keys) ln = existsb (fun k => names_field k ln) keys.
Proof.
  intros Hk. rewrite removed_names.
  2:{ intros H. apply in_map_iff in H as [k [Hl Hin]].
      apply lower_nil in Hl. now subst k. }
  unfold names_field, str_in. clear Hk.
  induction keys as [|k keys IH]; cbn [map existsb].
  - apply andb_false_r.
  - rewrite <- IH. destruct (contains_char ":" ln); reflexivity.
Qed.

(** [remove_fields] keeps, in order, the lines that name none of the
    keys. *)
Lemma remove_fields_names (lines keys : list str) :
  ~ In [] keys ->
  remove_fields lines keys
  = filter (fun ln => negb (existsb (fun k => names_field k ln) keys)) lines.
Proof.
  intros Hk. unfold remove_fields. apply filter_ext. intros ln.
  now rewrite removed_names_field.
Qed.

Lemma hash_keys_named : ~ In [] HASH_KEYS.
Proof. intros H. cbn in H. intuition discriminate. Qed.

(** X6: [remove_fields(lines, keys)], for keys none of which is empty,
    keeps exactly the lines that name none of the keys, in their order: a
    line names a key when it holds a colon and the text before its first
    colon, trimmed and lower-cased, is the key lower-cased.  So no line
    kept names a key, every line that names none is kept, and removing
    again changes nothing. *)
Theorem remove_fields_by_name (lines keys : list str) :
  ~ In [] keys ->
  remove_fields lines keys
  = filter (fun ln => negb (existsb (fun k => names_field k ln) keys)) lines
  /\ (forall k ln, In k keys -> In ln (remove_fields lines keys) ->
        names_field k ln = false)
  /\ (forall ln, In ln lines ->
        (forall k, In k keys -> names_field k ln = false) ->
        In ln (remove_fields lines keys))
  /\ remove_fields (remove_fields lines keys) keys = remove_fields lines keys.
Proof.
  intros Hk.
  assert (E : forall l, remove_fields l keys
              = filter (fun ln => negb (existsb (fun k => names_field k ln) keys)) l)
    by (intros l; now apply remove_fields_names).
  split; [apply E|]. split; [|split].
  - intros k ln Hin Hln. rewrite E in Hln. apply filter_In in Hln as [_ Hln].
    apply negb_true_iff in Hln.
    destruct (names_field k ln) eqn:En; [|reflexivity].
    rewrite <- Hln. symmetry. apply existsb_exists. exists k. now split.
  - intros ln Hin Hno. rewrite E. apply filter_In. split; [exact Hin|].
    apply negb_true_iff. apply not_true_is_false. intros H.
    apply existsb_exists in H as [k [Hkin Hn]]. rewrite (Hno k Hkin) in Hn.
    discriminate.
  - rewrite !E. induction lines as [|ln lines IH]; [reflexivity|].
    cbn [filter].
    destruct (negb (existsb (fun k => names_field k ln) keys)) eqn:En;
      [|exact IH].
    cbn [filter]. rewrite En. now f_equal.
Qed.

Lemma remove_fields_by_name_witness :
  remove_fields
    [ "Package: a" : str; " sIzE : 1" : str; "Sizes: 2" : str;
      "note: Size: 3" : str; "SHA1:" : str ]
    [ "Size" : str; "sha1" : str ]
  = [ "Package: a" : str; "Sizes: 2" : str; "note: Size: 3" : str ].
Proof.
  rewrite (proj1 (remove_fields_by_name
                    [ "Package: a" : str; " sIzE : 1" : str; "Sizes: 2" : str;
                      "note: Size: 3" : str; "SHA1:" : str ]
                    [ "Size" : str; "sha1" : str ]
                    ltac:(cbn; intuition discriminate))).
  reflexivity.
Defined.

(** X7: [remove_fields] leaves the other fields alone: for a key without
    white space or colon that is, lower-cased, none of the lower-cased
    keys removed, [get_field] returns the same value before and after,
    read from the same line. *)
Theorem remove_fields_keeps_other_keys (lines keys : list str) (key : str) :
  plain_key key = true ->
  ~ In (lower key) (map lower keys) ->
  snd (get_field (remove_fields lines keys) key) = snd (get_field lines key)
  /\ field_line key (remove_fields lines keys) = field_line key lines.
Proof.
  intros Hp Hnot.
  assert (H : field_line key (remove_fields lines keys) = field_line key lines).
  { unfold field_line, remove_fields. apply find_filter_keep. intros ln Hf.
    rewrite removed_key_of, (has_field_key_of key ln Hp Hf).
    destruct (str_in (lower key) (map lower keys)) eqn:E; [|reflexivity].
    apply str_in_spec in E. contradiction. }
  split; [|exact H]. rewrite !get_field_snd. unfold field_line in H.
  rewrite H. reflexivity.
Qed.

Lemma remove_fields_keeps_other_keys_witness :
  snd (get_field (remove_fields ["Size: 1" : str; "Package: p" : str] ["size" : str])
         "Package")
  = snd (get_field ["Size: 1" : str; "Package: p" : str] "Package")
  /\ field_line "Package"
       (remove_fields ["Size: 1" : str; "Package: p" : str] ["size" : str])
     = field_line "Package" ["Size: 1" : str; "Package: p" : str].
Proof.
  apply remove_fields_keeps_other_keys; [reflexivity|].
  intros [H|[]]. discriminate.
Defined.

(* ================================================================== *)
(** * Further properties of the file-name convention *)

Lemma endswith_split (p s : str) :
  endswith p s = true -> s = firstn (length s - length p) s ++ p.
Proof.
  unfold endswith. intros H. apply str_eqb_eq in H.
  transitivity (firstn (length s - length p) s ++ skipn (length s - length p) s).
  - symmetry. apply firstn_skipn.
  - rewrite H. reflexivity.
Qed.

Lemma before_first_keeps_clean (c d : ascii) (s : str) :
  contains_char d s = false -> contains_char d (before_first c s) = false.
Proof.
  induction s as [|a s IH]; simpl; [reflexivity|].
  intros H. apply orb_false_elim in H as [Ha Hs].
  destruct (Ascii.eqb a c); [reflexivity|]. simpl. rewrite Ha. now apply IH.
Qed.

Lemma drop_v_keeps_clean (d : ascii) (ver : str) :
  contains_char d ver = false -> contains_char d (drop_v ver) = false.
Proof.
  destruct ver as [|c [|e r]]; try (intros H; exact H).
  unfold drop_v. destruct (Ascii.eqb c "v" || Ascii.eqb c "V")%bool; [|trivial].
  intros H. simpl in H. apply orb_false_elim in H as [_ H]. exact H.
Qed.

(** X8: whenever [parse_deb_filename] returns a triple, the name is
    [pkg_ver0_arch0.deb] for some [ver0] and [arch0] without underscore;
    the version returned is [ver0] without its leading [v]/[V] and the
    architecture is [arch0] cut at its first dot; so the version and the
    architecture returned hold no underscore, and the architecture no
    dot. *)
Theorem parse_deb_filename_inverts (name pkg ver arch : str) :
  parse_deb_filename name = Some (pkg, ver, arch) ->
  exists ver0 arch0,
    name = pkg ++ "_" ++ ver0 ++ "_" ++ arch0 ++ ".deb"
    /\ contains_char "_" ver0 = false
    /\ contains_char "_" arch0 = false
    /\ ver = drop_v ver0
    /\ arch = before_first "." arch0
    /\ contains_char "_" ver = false
    /\ contains_char "_" arch = false
    /\ contains_char "." arch = false.
Proof.
  unfold parse_deb_filename. intros H.
  destruct (endswith ".deb" name) eqn:He; [|discriminate]. cbn [negb] in H.
  apply endswith_split in He.
  change (length (".deb" : str)) with 4 in He.
  set (base := firstn (length name - 4) name) in *.
  cbn [rsplit] in H.
  destruct (rpartition "_" base) as [[b1 arch0]|] eqn:E1; [|discriminate].
  destruct (rpartition "_" b1) as [[pkg0 ver0]|] eqn:E2; [|discriminate].
  cbn [app] in H. rewrite drop_v_code in H.
  apply rpartition_some in E1 as [Eb Ha]. apply rpartition_some in E2 as [Eb1 Hv].
  assert (Harch : (if contains_char "." arch0 then before_first "." arch0 else arch0)
                  = before_first "." arch0).
  { destruct (contains_char "." arch0) eqn:Ed; [reflexivity|].
    symmetry. now apply before_first_absent. }
  rewrite Harch in H. injection H as <- <- <-.
  exists ver0, arch0. split.
  - rewrite He, Eb, Eb1. rewrite <- !app_assoc. reflexivity.
  - repeat split; try assumption; try reflexivity.
    + now apply drop_v_keeps_clean.
    + now apply before_first_keeps_clean.
    + apply before_first_clean.
Qed.

Lemma parse_deb_filename_inverts_witness :
  exists ver0 arch0,
    ("a_b_v1.2_arm.x.deb" : str) = "a_b" ++ "_" ++ ver0 ++ "_" ++ arch0 ++ ".deb"
    /\ contains_char "_" ver0 = false
    /\ contains_char "_" arch0 = false
    /\ ("1.2" : str) = drop_v ver0
    /\ ("arm" : str) = before_first "." arch0
    /\ contains_char "_" ("1.2" : str) = false
    /\ contains_char "_" ("arm" : str) = false
    /\ contains_char "." ("arm" : str) = false.
Proof. apply (parse_deb_filename_inverts "a_b_v1.2_arm.x.deb"). reflexivity. Defined.

(* ================================================================== *)
(** * Further properties of the stanza store *)

Lemma re_split_go_plain (a : str) : forall cur,
  no_blank_run a = true -> re_split_go 0 cur a = [cur ++ a].
Proof.
  induction a as [|c a IH]; intros cur H.
  - cbn. now rewrite app_nil_r.
  - cbn [no_blank_run] in H. apply andb_prop in H as [Hs Hn].
    apply Nat.eqb_eq in Hs. cbn [re_split_go]. rewrite Hs, (IH _ Hn).
    rewrite <- app_assoc. reflexivity.
Qed.

(** X9: a text in which no run of two or more line breaks occurs is one
    stanza: [parse_stanzas] returns the text itself, untrimmed, when it
    is not blank, and nothing when it is blank or empty. *)
Theorem parse_stanzas_single (text : str) :
  no_blank_run text = true ->
  parse_stanzas text = if nonblank text then [text] else [].
Proof.
  intros H. unfold parse_stanzas, re_split_blank.
  rewrite (re_split_go_plain text [] H). cbn [app filter].
  destruct (nonblank text); reflexivity.
Qed.

Lemma parse_stanzas_single_witness :
  parse_stanzas (" Package: a" ++ [CR; LF] ++ "Version: 1" ++ [LF])
  = [" Package: a" ++ [CR; LF] ++ "Version: 1" ++ [LF]]
  /\ parse_stanzas (" " ++ [LF]) = [].
Proof.
  split.
  - apply (parse_stanzas_single (" Package: a" ++ [CR; LF] ++ "Version: 1" ++ [LF])).
    reflexivity.
  - apply (parse_stanzas_single (" " ++ [LF])). reflexivity.
Defined.

Lemma eol_run_length (n : nat) : forall s,
  length s <= n ->
  2 * fst (eol_run s) + length (snd (eol_run s)) >= length s
  /\ fst (eol_run s) + length (snd (eol_run s)) <= length s.
Proof.
  induction n as [|n IH]; intros s Hlen.
  - destruct s; [cbn; lia | simpl in Hlen; lia].
  - destruct s as [|c s1]; [cbn; lia|]. simpl in Hlen.
    destruct (Ascii.eqb c LF) eqn:ELF.
    + apply Ascii.eqb_eq in ELF. subst c. rewrite eol_run_LF. cbn [fst snd length].
      destruct (IH s1) as [H1 H2]; lia.
    + destruct (Ascii.eqb c CR) eqn:ECR.
      2:{ rewrite eol_run_other by assumption. cbn [fst snd length]. lia. }
      apply Ascii.eqb_eq in ECR. subst c.
      destruct s1 as [|d s2]; [cbn; lia|].
      destruct (Ascii.eqb d LF) eqn:ELF2.
      2:{ rewrite eol_run_CR_other by assumption. cbn [fst snd length]. lia. }
      apply Ascii.eqb_eq in ELF2. subst d. rewrite eol_run_CRLF.
      cbn [fst snd length]. simpl in Hlen.
      destruct (IH s2) as [H1 H2]; lia.
Qed.

(** Cutting a text short does not lengthen the run of line breaks at its
    head. *)
Lemma eol_run_prefix (n : nat) : forall a t,
  length a <= n -> fst (eol_run a) <= fst (eol_run (a ++ t)).
Proof.
  induction n as [|n IH]; intros a t Hlen.
  - destruct a; [cbn; lia | simpl in Hlen; lia].
  - destruct a as [|c a1]; [cbn; lia|]. simpl in Hlen.
    rewrite <- app_comm_cons.
    destruct (Ascii.eqb c LF) eqn:ELF.
    + apply Ascii.eqb_eq in ELF. subst c. rewrite !eol_run_LF. cbn [fst].
      apply le_n_S, IH. lia.
    + destruct (Ascii.eqb c CR) eqn:ECR.
      2:{ rewrite (eol_run_other c a1) by assumption. cbn [fst]. lia. }
      apply Ascii.eqb_eq in ECR. subst c.
      destruct a1 as [|d a2]; [cbn; lia|].
      rewrite <- app_comm_cons.
      destruct (Ascii.eqb d LF) eqn:ELF2.
      2:{ rewrite (eol_run_CR_other d a2) by assumption. cbn [fst]. lia. }
      apply Ascii.eqb_eq in ELF2. subst d. rewrite !eol_run_CRLF. cbn [fst].
      apply le_n_S, IH. simpl in Hlen. lia.
Qed.

Lemma sep_len_zero (s : str) : sep_len s = 0 <-> fst (eol_run s) < 2.
Proof.
  unfold sep_len. destruct (eol_run_length (length s) s (le_n _)) as [_ H].
  destruct (eol_run s) as [k r]. cbn [fst snd] in *.
  destruct (Nat.leb_spec 2 k); split; intros; try lia.
Qed.

Lemma no_blank_run_suffixes (s : str) :
  no_blank_run s = true
  <-> forall u v, s = u ++ v -> v <> [] -> fst (eol_run v) < 2.
Proof.
  induction s as [|c s IH].
  - split; [|reflexivity]. intros _ u v E Hv.
    symmetry in E. apply app_eq_nil in E as [_ E]. congruence.
  - cbn [no_blank_run]. rewrite andb_true_iff, Nat.eqb_eq, sep_len_zero, IH.
    split.
    + intros [H0 H] u v E Hv. destruct u as [|a u].
      * simpl in E. subst v. exact H0.
      * simpl in E. injection E as _ E. exact (H u v E Hv).
    + intros H. split.
      * apply (H [] (c :: s)); [reflexivity | discriminate].
      * intros u v E Hv. apply (H (c :: u) v); [now rewrite E | exact Hv].
Qed.

Lemma no_blank_run_app (a b : str) :
  no_blank_run (a ++ b) = true ->
  no_blank_run a = true /\ no_blank_run b = true.
Proof.
  rewrite !no_blank_run_suffixes. intros H. split.
  - intros u v E Hv.
    eapply Nat.le_lt_trans; [apply (eol_run_prefix (length v) v b (le_n _))|].
    apply (H u (v ++ b)).
    + rewrite E, <- app_assoc. reflexivity.
    + destruct v; [congruence | discriminate].
  - intros u v E Hv. apply (H (a ++ u) v); [|exact Hv].
    rewrite E, <- app_assoc. reflexivity.
Qed.

Lemma no_blank_run_strip (s : str) :
  no_blank_run s = true -> no_blank_run (strip s) = true.
Proof.
  intros H. unfold strip.
  destruct (dropwhile_split isspace s) as [w [Hs _]]. fold (lstrip s) in Hs.
  rewrite Hs in H. apply no_blank_run_app in H as [_ H].
  destruct (rstrip_split (lstrip s)) as [w' [Hr _]].
  rewrite Hr in H. apply no_blank_run_app in H as [H _]. exact H.
Qed.

(** The pieces cut by the split hold no separator. *)
Lemma re_split_go_pieces (s : str) : forall skip cur,
  (skip <> 0 -> cur = []) ->
  (forall u v, cur = u ++ v -> v <> [] -> fst (eol_run (v ++ s)) < 2) ->
  Forall (fun p => no_blank_run p = true) (re_split_go skip cur s).
Proof.
  induction s as [|c s IH]; intros skip cur Hskip HQ.
  - cbn. constructor; [|constructor]. apply no_blank_run_suffixes.
    intros u v E Hv. specialize (HQ u v E Hv). now rewrite app_nil_r in HQ.
  - cbn [re_split_go]. destruct skip as [|k].
    + destruct (sep_len (c :: s)) as [|m] eqn:Es.
      * apply IH; [congruence|]. intros u v E Hv.
        destruct (exists_last Hv) as [v0 [z Ez]]. subst v.
        rewrite app_assoc in E. apply app_inj_tail in E as [E ->].
        rewrite <- app_assoc. cbn [app].
        destruct v0 as [|a v0].
        -- cbn [app]. apply sep_len_zero. exact Es.
        -- apply (HQ u (a :: v0)); [exact E | discriminate].
      * constructor.
        -- apply no_blank_run_suffixes. intros u v E Hv.
           eapply Nat.le_lt_trans;
             [apply (eol_run_prefix (length v) v (c :: s) (le_n _))|].
           exact (HQ u v E Hv).
        -- apply IH; [reflexivity|]. intros u v E Hv.
           symmetry in E. apply app_eq_nil in E as [_ E]. congruence.
    + rewrite (Hskip ltac:(discriminate)). apply IH; [reflexivity|].
      intros u v E Hv. symmetry in E. apply app_eq_nil in E as [_ E]. congruence.
Qed.

Lemma parse_stanzas_pieces (text : str) :
  Forall (fun p => nonblank p = true /\ no_blank_run p = true)
         (parse_stanzas text).
Proof.
  unfold parse_stanzas, re_split_blank. apply Forall_forall. intros p Hin.
  apply filter_In in Hin as [Hin Hnb]. split; [exact Hnb|].
  assert (H : Forall (fun p => no_blank_run p = true) (re_split_go 0 [] text)).
  { apply re_split_go_pieces; [congruence|].
    intros u v E Hv. symmetry in E. apply app_eq_nil in E as [_ E]. congruence. }
  rewrite Forall_forall in H. apply H. exact Hin.
Qed.

(** X10: every stanza returned by [parse_stanzas] is non-blank and holds
    no run of two or more line breaks, neither as it is nor once
    trimmed. *)
Theorem parse_stanzas_well_formed (text : str) :
  Forall (fun p => nonblank p = true
                   /\ no_blank_run p = true
                   /\ no_blank_run (strip p) = true)
         (parse_stanzas text).
Proof.
  eapply Forall_impl; [|apply parse_stanzas_pieces].
  intros p [H1 H2]. split; [exact H1|]. split; [exact H2|].
  now apply no_blank_run_strip.
Qed.

Lemma parse_joined (S : list str) :
  S <> [] ->
  Forall (fun s => nonblank s = true) S ->
  Forall (fun s => no_blank_run (strip s) = true) S ->
  parse_stanzas (join_stanzas S)
  = map strip (removelast S) ++ [strip (last S []) ++ EOL].
Proof.
  intros Hne Hnb Hrun. destruct S as [|s S]; [congruence|].
  unfold parse_stanzas, join_stanzas, re_split_blank.
  rewrite (re_split_joined S s [] Hnb Hrun).
  destruct (map strip (removelast (s :: S))) as [|x rest] eqn:E;
    cbn [app]; apply filter_all.
  - repeat constructor. apply nonblank_trimmed_eol.
    rewrite Forall_forall in Hnb. apply Hnb, last_in.
  - rewrite app_comm_cons, <- E. apply Forall_app. split.
    + apply Forall_map. rewrite Forall_forall in *. intros y Hy.
      apply nonblank_trimmed, Hnb, removelast_in, Hy.
    + repeat constructor. apply nonblank_trimmed_eol.
      rewrite Forall_forall in Hnb. apply Hnb, last_in.
Qed.

Lemma map_strip_parsed (S : list str) :
  S <> [] -> nonblank (last S []) = true ->
  map strip (map strip (removelast S) ++ [strip (last S []) ++ EOL])
  = map strip S.
Proof.
  intros Hne Hl. rewrite map_app, map_map.
  change (map strip [strip (last S []) ++ EOL])
    with [strip (strip (last S []) ++ EOL)].
  rewrite strip_app_space;
    [|now apply nonblank_strip|apply strip_head|repeat constructor].
  rewrite strip_idem.
  rewrite (map_ext (fun x => strip (strip x)) strip) by apply strip_idem.
  change [strip (last S [])] with (map strip [last S []]).
  rewrite <- map_app. f_equal. symmetry. apply app_removelast_last. exact Hne.
Qed.

(** X11: the text written for a parsed index is stable: with
    [c = join_stanzas(parse_stanzas(text))], parsing [c] gives as many
    stanzas as parsing [text], and joining them gives [c] again, for
    every text (also one without any stanza). *)
Theorem canonical_text_stable (text : str) :
  let c := join_stanzas (parse_stanzas text) in
  join_stanzas (parse_stanzas c) = c
  /\ length (parse_stanzas c) = length (parse_stanzas text).
Proof.
  intros c. subst c.
  pose proof (parse_stanzas_well_formed text) as Hwf.
  destruct (parse_stanzas text) as [|s S] eqn:E.
  - split; reflexivity.
  - assert (Hnb : Forall (fun s => nonblank s = true) (s :: S)).
    { eapply Forall_impl; [|exact Hwf]. intros p H. apply H. }
    assert (Hrun : Forall (fun s => no_blank_run (strip s) = true) (s :: S)).
    { eapply Forall_impl; [|exact Hwf]. intros p H. apply H. }
    rewrite (parse_joined (s :: S) ltac:(discriminate) Hnb Hrun). split.
    + unfold join_stanzas. rewrite map_strip_parsed; [reflexivity|discriminate|].
      rewrite Forall_forall in Hnb. apply Hnb, last_in.
    + rewrite length_app, length_map. cbn [length].
      assert (Hl : length (removelast (s :: S)) + 1 = length (s :: S)).
      { rewrite (app_removelast_last [] (l := s :: S)) at 2 by discriminate.
        rewrite length_app. reflexivity. }
      cbn [length] in Hl. lia.
Qed.

(* ================================================================== *)
(** * Further properties of the applier *)

Lemma py_index_none (n : nat) (i : Z) :
  py_index n i = None <-> (i < - Z.of_nat n \/ Z.of_nat n <= i)%Z.
Proof.
  unfold py_index.
  destruct (Z.leb_spec 0 i); [destruct (Z.ltb_spec i (Z.of_nat n))
                             |destruct (Z.leb_spec (- Z.of_nat n) i)];
    split; intros Hx; try discriminate; try reflexivity; try lia.
Qed.

Lemma py_index_some (n : nat) (i : Z) (j : nat) :
  py_index n i = Some j -> j < n.
Proof.
  unfold py_index.
  destruct (Z.leb_spec 0 i); [destruct (Z.ltb_spec i (Z.of_nat n))
                             |destruct (Z.leb_spec (- Z.of_nat n) i)];
    intros Hx; try discriminate; injection Hx as <-; lia.
Qed.

Lemma apply_plans_length (plans : list UpdatePlan) : forall stanzas out,
  apply_plans stanzas plans = Some out -> length out = length stanzas.
Proof.
  induction plans as [|p plans IH]; intros stanzas out H.
  - injection H as <-. reflexivity.
  - cbn [apply_plans] in H.
    destruct (py_index (length stanzas) (stanza_index p)) as [i|]; [|discriminate].
    apply IH in H. now rewrite list_set_length in H.
Qed.

(** X12: [apply_plans] fails (with [IndexError]) exactly when some plan
    has an index outside [-N, N), [N] being the number of stanzas;
    otherwise it returns a list of [N] stanzas. *)
Theorem apply_plans_index_error (stanzas : list str) (plans : list UpdatePlan) :
  (apply_plans stanzas plans = None
   <-> exists p, In p plans
                 /\ (stanza_index p < - Z.of_nat (length stanzas)
                     \/ Z.of_nat (length stanzas) <= stanza_index p)%Z)
  /\ (forall out, apply_plans stanzas plans = Some out ->
                  length out = length stanzas).
Proof.
  split; [|intros out; apply apply_plans_length].
  revert stanzas. induction plans as [|p plans IH]; intros stanzas.
  - split; [discriminate | intros [p [[] _]]].
  - cbn [apply_plans].
    destruct (py_index (length stanzas) (stanza_index p)) as [i|] eqn:Ei.
    + rewrite IH, list_set_length. split.
      * intros [q [Hq Hr]]. exists q. split; [now right | exact Hr].
      * intros [q [[<-|Hq] Hr]].
        -- apply py_index_none in Hr. congruence.
        -- exists q. split; assumption.
    + split; [|reflexivity]. intros _. exists p. split; [now left|].
      apply py_index_none. exact Ei.
Qed.

Lemma apply_plans_app (ps : list UpdatePlan) : forall qs stanzas,
  apply_plans stanzas (ps ++ qs)
  = match apply_plans stanzas ps with
    | Some mid => apply_plans mid qs
    | None => None
    end.
Proof.
  induction ps as [|p ps IH]; intros qs stanzas; [reflexivity|].
  cbn [app apply_plans].
  destruct (py_index (length stanzas) (stanza_index p)); [apply IH | reflexivity].
Qed.

Lemma list_set_same (l : list str) : forall i x,
  i < length l -> nth_error (list_set l i x) i = Some x.
Proof.
  induction l as [|y l IH]; intros [|i] x H; simpl in *; try lia; [reflexivity|].
  apply IH. lia.
Qed.

Lemma apply_plans_untouched (plans : list UpdatePlan) : forall stanzas out i,
  apply_plans stanzas plans = Some out ->
  (forall p, In p plans ->
             py_index (length stanzas) (stanza_index p) <> Some i) ->
  nth_error out i = nth_error stanzas i.
Proof.
  induction plans as [|p plans IH]; intros stanzas out i H Hno.
  - injection H as <-. reflexivity.
  - cbn [apply_plans] in H.
    destruct (py_index (length stanzas) (stanza_index p)) as [j|] eqn:Ej;
      [|discriminate].
    rewrite (IH _ _ i H).
    + apply list_set_other. intros ->. apply (Hno p); [now left | exact Ej].
    + intros q Hq. rewrite list_set_length. apply Hno. now right.
Qed.

(** X13: for any list of plans that [apply_plans] accepts: a position
    that no plan addresses, counting negative indices from the end,
    keeps its stanza; a single plan replaces the stanza it addresses by
    the updated stanza, so that index [-1] updates the last stanza; and
    the plans of a list are applied one after the other. *)
Theorem apply_plans_positions (stanzas : list str) (plans : list UpdatePlan)
    (out : list str) :
  apply_plans stanzas plans = Some out ->
  (forall i, (forall p, In p plans ->
                py_index (length stanzas) (stanza_index p) <> Some i) ->
             nth_error out i = nth_error stanzas i)
  /\ (forall plan i, plans = [plan] ->
        py_index (length stanzas) (stanza_index plan) = Some i ->
        nth_error out i = Some (new_stanza (nth i stanzas []) plan))
  /\ (forall plan, plans = [plan] -> stanza_index plan = (-1)%Z ->
        nth_error out (length stanzas - 1)
        = Some (new_stanza (last stanzas []) plan))
  /\ (forall ps qs, plans = ps ++ qs ->
        exists mid, apply_plans stanzas ps = Some mid
                    /\ apply_plans mid qs = Some out).
Proof.
  intros H.
  assert (Hone : forall plan i, plans = [plan] ->
             py_index (length stanzas) (stanza_index plan) = Some i ->
             nth_error out i = Some (new_stanza (nth i stanzas []) plan)).
  { intros plan i -> Hi. cbn [apply_plans] in H. rewrite Hi in H.
    injection H as <-. apply list_set_same. eapply py_index_some, Hi. }
  split; [|split; [exact Hone|split]].
  - intros i Hno. eapply apply_plans_untouched; eassumption.
  - intros plan Hp Hidx.
    destruct stanzas as [|s stanzas].
    { subst plans. cbn [apply_plans] in H. rewrite Hidx in H. discriminate. }
    assert (Hi : py_index (length (s :: stanzas)) (stanza_index plan)
                 = Some (length (s :: stanzas) - 1)).
    { rewrite Hidx. unfold py_index.
      destruct (Z.leb_spec 0 (-1)); [lia|].
      destruct (Z.leb_spec (- Z.of_nat (length (s :: stanzas))) (-1));
        [|cbn [length] in *; lia].
      f_equal. cbn [length]. lia. }
    rewrite (Hone plan _ Hp Hi). do 2 f_equal.
    cbn [length]. rewrite Nat.sub_succ, Nat.sub_0_r.
    clear. revert s. induction stanzas as [|t stanzas IH]; intros s; [reflexivity|].
    cbn [length nth]. change (last (s :: t :: stanzas) []) with (last (t :: stanzas) []).
    apply IH.
  - intros ps qs ->. rewrite apply_plans_app in H.
    destruct (apply_plans stanzas ps) as [mid|]; [|discriminate].
    exists mid. split; [reflexivity | exact H].
Qed.

Lemma apply_plans_positions_witness :
  let plan := mkPlan (-1) "b.deb" 3 "aa" "bb" "cc" None None None None None in
  nth_error [ "Package: a" : str;
              "Package: b" ++ EOL ++ "Size: 3" ++ EOL ++ "MD5sum: aa" ++ EOL
              ++ "SHA1: bb" ++ EOL ++ "SHA256: cc" ] 0
  = nth_error ["Package: a" : str; "Package: b" : str] 0.
Proof.
  intros plan.
  apply (apply_plans_positions ["Package: a" : str; "Package: b" : str] [plan]).
  - reflexivity.
  - intros p [<-|[]]. discriminate.
Defined.

Lemma no_break_no_lf (v : str) : no_break v = true -> no_lf v = true.
Proof.
  unfold no_break, no_lf. rewrite !forallb_forall. intros H c Hc.
  specialize (H c Hc). unfold re_dot. apply negb_true_iff in H.
  destruct (Ascii.eqb c LF) eqn:E; [|reflexivity].
  apply Ascii.eqb_eq in E. subst c. discriminate.
Qed.

Lemma has_field_written (key value : str) :
  plain_key key = true -> no_lf value = true ->
  has_field key (key ++ ": " ++ value) = true.
Proof.
  intros Hp Hlf. unfold has_field.
  destruct (match_field_written key value Hp Hlf) as [g [-> _]]. reflexivity.
Qed.

(** After [set_field], the first line of the key is the line written. *)
Lemma field_line_set_field (lines : list str) (key value : str) :
  plain_key key = true -> no_lf value = true ->
  field_line key (set_field lines key value) = Some (key ++ ": " ++ value).
Proof.
  intros Hp Hlf.
  destruct (set_field_shape lines key value) as [pre [post [E [Hpre _]]]].
  unfold field_line. rewrite E, find_app_none by exact Hpre.
  cbn [find]. rewrite has_field_written by assumption. reflexivity.
Qed.

Lemma find_split {X : Type} (f : X -> bool) (l : list X) (x : X) :
  find f l = Some x ->
  exists pre post, l = pre ++ x :: post
                   /\ Forall (fun y => f y = false) pre /\ f x = true.
Proof.
  induction l as [|y l IH]; [discriminate|]. cbn [find].
  destruct (f y) eqn:E.
  - intros H. injection H as <-. exists [], l. repeat split; [constructor|exact E].
  - intros H. destruct (IH H) as [pre [post [-> [Hpre Hx]]]].
    exists (y :: pre), post. repeat split; [constructor; assumption|exact Hx].
Qed.

Lemma set_field_at (key : str) (pre : list str) (ln g : str)
    (post : list str) (value : str) :
  Forall (fun l => has_field key l = false) pre ->
  match_field key ln = Some g ->
  set_field (pre ++ ln :: post) key value
  = pre ++ (key ++ ": " ++ value) :: post.
Proof.
  intros Hpre Hm. unfold set_field, get_field.
  rewrite (get_field_at key pre ln g post 0 Hpre Hm). cbn [fst Nat.add].
  apply list_set_middle.
Qed.

(** Setting a key to the value its first line already has changes
    nothing. *)
Lemma set_field_fixpoint (lines : list str) (key value : str) :
  field_line key lines = Some (key ++ ": " ++ value) ->
  set_field lines key value = lines.
Proof.
  intros H. apply find_split in H as [pre [post [-> [Hpre Hx]]]].
  unfold has_field in Hx.
  destruct (match_field key (key ++ ": " ++ value)) as [g|] eqn:Hm; [|discriminate].
  exact (set_field_at key pre _ g post value Hpre Hm).
Qed.

(** In the lines corrected by a plan, the first line of each key that
    the plan corrects is the line written for it. *)
Lemma field_line_corrected (lines : list str) (plan : UpdatePlan)
    (key : str) (corr : option str) (c : ascii) (v : str) :
  In (key, corr)
     [("Package" : str, fix_pkg plan); ("Version" : str, fix_ver plan);
      ("Architecture" : str, fix_arch plan);
      ("Filename" : str, fix_filename plan); ("Icon" : str, icon_url plan)] ->
  corr = Some (c :: v) -> no_lf (c :: v) = true ->
  field_line key (corrected_lines lines plan) = Some (key ++ ": " ++ c :: v).
Proof.
  intros Hin Hc Hlf. unfold corrected_lines. simpl in Hin.
  destruct Hin as [E|[E|[E|[E|[E|[]]]]]]; injection E as <- <-; rewrite Hc;
    repeat other_key; cbn [set_if];
    apply field_line_set_field; (reflexivity || exact Hlf).
Qed.

Lemma set_if_fixpoint (lines : list str) (key : str) (corr : option str) :
  (forall c v, corr = Some (c :: v) ->
               field_line key lines = Some (key ++ ": " ++ c :: v)) ->
  set_if corr key lines = lines.
Proof.
  intros H. destruct corr as [[|c v]|]; try reflexivity.
  cbn [set_if]. apply set_field_fixpoint. now apply H.
Qed.

Lemma hash_lines_removed (plan : UpdatePlan) :
  filter (fun ln => negb (removed HASH_KEYS_LC ln)) (hash_lines plan) = [].
Proof.
  apply filter_none. pose proof (hash_lines_key_of plan) as H.
  unfold hash_lines in *. cbn [map HASH_KEYS] in H.
  assert (K1 : key_of ("Size: " ++ str_of_int (size plan)) = Some (lower "Size"))
    by exact (key_of_written "Size" _ eq_refl).
  assert (K2 : key_of ("MD5sum: " ++ md5 plan) = Some (lower "MD5sum"))
    by exact (key_of_written "MD5sum" _ eq_refl).
  assert (K3 : key_of ("SHA1: " ++ sha1 plan) = Some (lower "SHA1"))
    by exact (key_of_written "SHA1" _ eq_refl).
  assert (K4 : key_of ("SHA256: " ++ sha256 plan) = Some (lower "SHA256"))
    by exact (key_of_written "SHA256" _ eq_refl).
  repeat apply Forall_cons; [| | | |constructor];
    rewrite removed_key_of, ?K1, ?K2, ?K3, ?K4; reflexivity.
Qed.

(** Correcting again the lines a plan has produced gives these lines. *)
Lemma corrected_lines_again (lines : list str) (plan : UpdatePlan) :
  plan_text_clean plan = true ->
  corrected_lines (corrected_lines lines plan ++ hash_lines plan) plan
  = corrected_lines lines plan.
Proof.
  unfold plan_text_clean. intros H. repeat (apply andb_prop in H as [H ?]).
  set (body := corrected_lines lines plan).
  assert (Hrm : remove_fields (body ++ hash_lines plan) HASH_KEYS = body).
  { unfold remove_fields. rewrite filter_app.
    change (map lower HASH_KEYS) with HASH_KEYS_LC.
    rewrite hash_lines_removed, app_nil_r. apply filter_all.
    eapply Forall_impl; [|apply corrected_lines_clean].
    intros ln Hr. cbv beta in Hr. now rewrite Hr. }
  assert (Hfix : forall key corr,
             In (key, corr)
                [("Package" : str, fix_pkg plan); ("Version" : str, fix_ver plan);
                 ("Architecture" : str, fix_arch plan);
                 ("Filename" : str, fix_filename plan);
                 ("Icon" : str, icon_url plan)] ->
             opt_no_break corr = true ->
             set_if corr key body = body).
  { intros key corr Hin Hnb. apply set_if_fixpoint. intros c v Hc.
    apply (field_line_corrected lines plan key corr c v Hin Hc).
    apply no_break_no_lf. rewrite Hc in Hnb. exact Hnb. }
  unfold corrected_lines at 1. rewrite Hrm.
  rewrite (Hfix "Package" (fix_pkg plan)) by (simpl; tauto || assumption).
  rewrite (Hfix "Version" (fix_ver plan)) by (simpl; tauto || assumption).
  rewrite (Hfix "Architecture" (fix_arch plan)) by (simpl; tauto || assumption).
  rewrite (Hfix "Filename" (fix_filename plan)) by (simpl; tauto || assumption).
  apply (Hfix "Icon" (icon_url plan)); [simpl; tauto | assumption].
Qed.

Lemma list_set_twice (l : list str) : forall i x y,
  list_set (list_set l i x) i y = list_set l i y.
Proof.
  induction l as [|a l IH]; intros [|i] x y; simpl; try reflexivity.
  now rewrite IH.
Qed.

Lemma nth_list_set (l : list str) : forall i x,
  i < length l -> nth i (list_set l i x) [] = x.
Proof.
  induction l as [|a l IH]; intros [|i] x H; simpl in *; try lia; [reflexivity|].
  apply IH. lia.
Qed.

(** X14: applying a plan is idempotent: when the corrections and digests
    of the plan hold no line boundary, applying the plan to the stanza it
    has produced gives that stanza again, and [apply_plans] with the plan
    listed twice returns what it returns with the plan listed once. *)
Theorem apply_plan_twice (stanza : str) (plan : UpdatePlan) :
  plan_text_clean plan = true ->
  new_stanza (new_stanza stanza plan) plan = new_stanza stanza plan
  /\ forall stanzas,
       apply_plans stanzas [plan; plan] = apply_plans stanzas [plan].
Proof.
  intros Hclean.
  assert (Hone : forall s, new_stanza (new_stanza s plan) plan = new_stanza s plan).
  { intros s. unfold new_stanza at 1 3. f_equal. unfold updated_lines at 1.
    rewrite (new_stanza_lines s plan Hclean). unfold updated_lines.
    rewrite corrected_lines_again by exact Hclean. reflexivity. }
  split; [apply Hone|].
  intros stanzas. cbn [apply_plans].
  destruct (py_index (length stanzas) (stanza_index plan)) as [i|] eqn:Ei;
    [|reflexivity].
  rewrite list_set_length, Ei.
  rewrite nth_list_set by (eapply py_index_some, Ei).
  rewrite Hone, list_set_twice. reflexivity.
Qed.

Lemma apply_plan_twice_witness :
  let plan := mkPlan 0 "p_2_arm.deb" 3 "aa" "bb" "cc"
                (Some ("p" : str)) (Some ("2" : str)) None
                (Some ("./debs/p_2_arm.deb" : str)) None in
  new_stanza (new_stanza ("package: q" ++ [LF] ++ "size: 1") plan) plan
  = new_stanza ("package: q" ++ [LF] ++ "size: 1") plan
  /\ forall stanzas,
       apply_plans stanzas [plan; plan] = apply_plans stanzas [plan].
Proof. intros plan. apply apply_plan_twice. reflexivity. Defined.

(* ================================================================== *)
(** * Further properties of the reconciler and the planner *)

Lemma tidy_spec (v : str) :
  tidy v = true -> v <> [] /\ strip v = v /\ no_lf v = true.
Proof.
  unfold tidy. destruct v as [|c v]; [discriminate|].
  intros H. apply andb_prop in H as [H1 H2]. apply str_eqb_eq in H1.
  split; [discriminate|]. split; assumption.
Qed.

(** After a plan is applied, a field that the plan corrects to a tidy
    value holds that value. *)
Lemma get_field_corrected (stanza : str) (plan : UpdatePlan) (key : str)
    (corr : option str) (derived : str) :
  In (key, corr)
     [("Package" : str, fix_pkg plan); ("Version" : str, fix_ver plan);
      ("Architecture" : str, fix_arch plan);
      ("Filename" : str, fix_filename plan); ("Icon" : str, icon_url plan)] ->
  corr = Some derived -> tidy derived = true ->
  snd (get_field (updated_lines stanza plan) key) = Some derived.
Proof.
  intros Hin Hc Ht. apply tidy_spec in Ht as [Hne [Hs Hlf]].
  destruct derived as [|c v]; [congruence|].
  assert (Hkey : plain_key key = true
                 /\ str_in (lower key) (map lower HASH_KEYS) = false).
  { simpl in Hin.
    destruct Hin as [E|[E|[E|[E|[E|[]]]]]]; injection E as <- _;
      split; reflexivity. }
  destruct Hkey as [Hp Hk].
  rewrite get_field_snd. unfold updated_lines.
  pose proof (field_line_hash_lines key
                (corrected_lines (splitlines stanza) plan) plan Hp Hk) as Hh.
  unfold field_line in Hh. rewrite Hh.
  pose proof (field_line_corrected (splitlines stanza) plan key corr c v
                Hin Hc Hlf) as Hl.
  unfold field_line in Hl. rewrite Hl.
  destruct (match_field_written key (c :: v) Hp Hlf) as [g [Hg Hsg]].
  rewrite Hg. cbn [option_map]. rewrite Hsg, Hs. reflexivity.
Qed.

Lemma last_nonspace_app (a x : str) :
  last_nonspace x -> last_nonspace (a ++ x).
Proof.
  intros [x0 [z [-> Hz]]]. exists (a ++ x0), z.
  split; [now rewrite app_assoc|exact Hz].
Qed.

Lemma basename_under (dir name : str) :
  contains_char "/" name = false -> basename (dir ++ "/" ++ name) = name.
Proof.
  intros H. unfold basename.
  change (dir ++ "/" ++ name) with (dir ++ "/"%char :: name).
  rewrite (rpartition_last "/" dir name H). reflexivity.
Qed.

(** When the plan records no correction of [Filename], the file it names
    is the base name the stanza declares. *)
Lemma resolve_deb_kept (fnmatch : str -> str -> bool) (DEBS : directory)
    (deb_name actual : str) :
  resolve_deb fnmatch DEBS deb_name = (actual, None) -> actual = deb_name.
Proof.
  unfold resolve_deb.
  destruct (negb (path_exists DEBS deb_name)); [|congruence].
  destruct (endswith ".deb" deb_name); [|congruence].
  destruct (sorted _); [congruence|discriminate].
Qed.

Lemma resolve_deb_fixed (fnmatch : str -> str -> bool) (DEBS : directory)
    (deb_name actual v : str) :
  resolve_deb fnmatch DEBS deb_name = (actual, Some v) ->
  v = "./debs/" ++ actual.
Proof.
  unfold resolve_deb.
  destruct (negb (path_exists DEBS deb_name)); [|discriminate].
  destruct (endswith ".deb" deb_name); [|discriminate].
  destruct (sorted _); [discriminate|]. intros H. injection H as <- <-.
  reflexivity.
Qed.

Lemma resolve_deb_file (fnmatch : str -> str -> bool) (DEBS : directory)
    (name : str) (data : content) :
  dir_lookup DEBS name = Some data ->
  resolve_deb fnmatch DEBS name = (name, None).
Proof.
  intros H. unfold resolve_deb, path_exists, is_file. rewrite H. reflexivity.
Qed.

(** A name the convention accepts ends with a character that is not
    white space. *)
Lemma parsed_name_last (name pkg ver arch : str) :
  parse_deb_filename name = Some (pkg, ver, arch) -> last_nonspace name.
Proof.
  unfold parse_deb_filename.
  destruct (endswith ".deb" name) eqn:E; [|discriminate]. intros _.
  apply endswith_split in E. rewrite E.
  exists (firstn (length name - length (".deb" : str)) name ++ ".de"), "b"%char.
  split; [|reflexivity]. rewrite <- app_assoc. reflexivity.
Qed.

(** X21: reconciliation settles in one run.  With metadata fixing
    enabled, let a stanza get a plan whose artifact name follows the
    convention, with derived values that are tidy (not empty, trimmed,
    without line feed), corrections and digests without line boundary,
    and an artifact name without slash that the allow-list admits.  Then
    the text of the updated stanza, read again, holds the derived
    package, version and architecture, and a second turn of the planner
    on that text gives a plan for the same artifact, with the same size
    and digests, that records no correction of [Package], [Version],
    [Architecture] or [Filename]. *)
Theorem reconcile_settles (hexdigest : str -> content -> str)
    (fnmatch : str -> str -> bool) (DEBS : directory)
    (ICONS_DIR_DEFAULT : icon_directory) (only : option (list str))
    (add_icons : bool) (icons_dir : option icon_directory)
    (icon_url_prefix : option str) (i : nat) (stanza : str)
    (plan : UpdatePlan) (pkg ver arch : str) :
  plan_stanza hexdigest fnmatch DEBS ICONS_DIR_DEFAULT only true add_icons
    icons_dir icon_url_prefix i stanza = Planned plan ->
  parse_deb_filename (filename plan) = Some (pkg, ver, arch) ->
  tidy pkg = true -> tidy ver = true -> tidy arch = true ->
  plan_text_clean plan = true ->
  contains_char "/" (filename plan) = false ->
  only_excludes only (filename plan) = false ->
  let text := new_stanza stanza plan in
  snd (get_field (splitlines text) "Package") = Some pkg
  /\ snd (get_field (splitlines text) "Version") = Some ver
  /\ snd (get_field (splitlines text) "Architecture") = Some arch
  /\ exists plan',
       plan_stanza hexdigest fnmatch DEBS ICONS_DIR_DEFAULT only true
         add_icons icons_dir icon_url_prefix i text = Planned plan'
       /\ filename plan' = filename plan
       /\ fix_pkg plan' = None /\ fix_ver plan' = None
       /\ fix_arch plan' = None /\ fix_filename plan' = None
       /\ size plan' = size plan /\ md5 plan' = md5 plan
       /\ sha1 plan' = sha1 plan /\ sha256 plan' = sha256 plan.
Proof.
  intros Hplan Hparse Tp Tv Ta Hclean Hslash Hallow text.
  pose proof (new_stanza_lines stanza plan Hclean) as Hlines.
  fold text in Hlines. rewrite Hlines.
  set (after := updated_lines stanza plan) in *.
  apply plan_stanza_some in Hplan
    as [c [f [data [pid [Hfn [_ [Hres [Hdata [Hrec [_ [Hsz [Hm [Hs1 Hs2]]]]]]]]]]]]].
  unfold reconcile in Hrec. rewrite Hparse in Hrec.
  rewrite !opt_differs_spec in Hrec.
  injection Hrec as Hp Hv Ha _.
  assert (Hgen : forall key derived corr,
             In (key, corr)
                [("Package" : str, fix_pkg plan); ("Version" : str, fix_ver plan);
                 ("Architecture" : str, fix_arch plan);
                 ("Filename" : str, fix_filename plan);
                 ("Icon" : str, icon_url plan)] ->
             tidy derived = true ->
             match snd (get_field (splitlines stanza) key) with
             | Some c => if str_eqb c derived then None else Some derived
             | None => Some derived
             end = corr ->
             snd (get_field after key) = Some derived).
  { intros key derived corr Hin Ht Hc.
    destruct (snd (get_field (splitlines stanza) key)) as [c0|] eqn:Ecur.
    - destruct (str_eqb c0 derived) eqn:E.
      + apply str_eqb_eq in E. subst c0 corr.
        pose proof (field_line_updated stanza plan key None Hin eq_refl) as Hl.
        unfold after. rewrite get_field_snd. unfold field_line in Hl. rewrite Hl.
        rewrite <- get_field_snd. exact Ecur.
      + apply (get_field_corrected stanza plan key corr derived Hin);
          [now symmetry | exact Ht].
    - apply (get_field_corrected stanza plan key corr derived Hin);
        [now symmetry | exact Ht]. }
  assert (H1 : snd (get_field after "Package") = Some pkg)
    by (apply (Hgen _ _ (fix_pkg plan)); [simpl; tauto | assumption | assumption]).
  assert (H2 : snd (get_field after "Version") = Some ver)
    by (apply (Hgen _ _ (fix_ver plan)); [simpl; tauto | assumption | assumption]).
  assert (H3 : snd (get_field after "Architecture") = Some arch)
    by (apply (Hgen _ _ (fix_arch plan)); [simpl; tauto | assumption | assumption]).
  split; [exact H1|]. split; [exact H2|]. split; [exact H3|].
  (* the Filename value of the updated stanza *)
  assert (Hname : exists c' f',
             snd (get_field after "Filename") = Some (c' :: f')
             /\ basename (c' :: f') = filename plan).
  { destruct (fix_filename plan) as [v|] eqn:Efix.
    - pose proof (resolve_deb_fixed _ _ _ _ _ Hres) as Hv0. subst v.
      assert (Ht : tidy ("./debs/" ++ filename plan) = true).
      { assert (Hnb : no_lf ("./debs/" ++ filename plan) = true).
        { apply no_break_no_lf. unfold plan_text_clean in Hclean.
          repeat (apply andb_prop in Hclean as [Hclean ?]).
          rewrite Efix in *. assumption. }
        change ("./debs/" ++ filename plan)
          with ("."%char :: ("/debs/" ++ filename plan)) in *.
        cbn [tidy]. rewrite Hnb, andb_true_r. apply str_eqb_eq.
        apply strip_fix; [reflexivity|].
        change ("."%char :: ("/debs/" ++ filename plan))
          with ("./debs/" ++ filename plan).
        apply last_nonspace_app.
        exact (parsed_name_last _ _ _ _ Hparse). }
      exists "."%char, ("/debs/" ++ filename plan). split.
      + apply (get_field_corrected stanza plan "Filename"
                 (fix_filename plan) ("./debs/" ++ filename plan));
          [simpl; tauto | exact Efix | exact Ht].
      + exact (basename_under "./debs" (filename plan) Hslash).
    - exists c, f. split.
      + pose proof (field_line_updated stanza plan "Filename" None) as Hl.
        rewrite Efix in Hl. specialize (Hl ltac:(simpl; tauto) eq_refl).
        unfold after. rewrite get_field_snd. unfold field_line in Hl.
        rewrite Hl, <- get_field_snd. exact Hfn.
      + symmetry. exact (resolve_deb_kept _ _ _ _ Hres). }
  destruct Hname as [c' [f' [Hfn' Hbase]]].
  unfold plan_stanza. rewrite Hlines. fold after.
  rewrite Hfn', Hbase, Hallow, (resolve_deb_file fnmatch DEBS _ data Hdata),
    Hdata.
  assert (Hrec' : reconcile true after (filename plan)
                  = (None, None, None, Some pkg)).
  { unfold reconcile. rewrite Hparse, H1, H2, H3.
    unfold opt_differs. rewrite !str_eqb_refl. reflexivity. }
  rewrite Hrec'. eexists. split; [reflexivity|].
  cbn [filename fix_pkg fix_ver fix_arch fix_filename size md5 sha1 sha256].
  unfold file_hash. rewrite Hsz, Hm, Hs1, Hs2. repeat split.
Qed.

Lemma reconcile_settles_witness :
  let stanza : str :=
    "package:  old" ++ [LF] ++ "Filename: ./debs/pkg_1.0_arm.deb" in
  let DEBS : directory := [("pkg_1.0_arm.more.deb" : str, [])] in
  exists plan plan',
    plan_stanza (fun _ _ => "00" : str) wild_match DEBS None None true false
      None None 0 stanza = Planned plan
    /\ fix_filename plan = Some ("./debs/pkg_1.0_arm.more.deb" : str)
    /\ plan_stanza (fun _ _ => "00" : str) wild_match DEBS None None true
         false None None 0 (new_stanza stanza plan) = Planned plan'
    /\ fix_pkg plan' = None /\ fix_filename plan' = None.
Proof.
  intros stanza DEBS. eexists.
  match goal with
  | |- exists plan', ?P = Planned ?p /\ _ =>
      assert (Hp : P = Planned p) by (vm_compute; reflexivity);
      destruct (reconcile_settles (fun _ _ => "00" : str) wild_match DEBS
                  None None false None None 0 stanza p "pkg" "1.0" "arm"
                  Hp eq_refl eq_refl eq_refl eq_refl eq_refl eq_refl eq_refl)
        as [_ [_ [_ [plan' [H1 [_ [H2 [_ [_ [H3 _]]]]]]]]]]
  end.
  exists plan'. split; [exact Hp|]. split; [reflexivity|].
  split; [exact H1|]. split; [exact H2|exact H3].
Defined.

Section PlanListFacts.
Variable hexdigest : str -> content -> str.
Variable fnmatch : str -> str -> bool.
Variable DEBS : directory.
Variable ICONS_DIR_DEFAULT : icon_directory.
Variable only : option (list str).
Variable fix_metadata add_icons : bool.
Variable icons_dir : option icon_directory.
Variable icon_url_prefix : option str.

Lemma build_from_plan_index (stanzas : list str) (i : nat)
    (plans : list UpdatePlan) (p : UpdatePlan) :
  build_from hexdigest fnmatch DEBS ICONS_DIR_DEFAULT only fix_metadata
    add_icons icons_dir icon_url_prefix i stanzas = Some plans ->
  In p plans ->
  exists j stanza,
    stanza_index p = Z.of_nat (i + j)
    /\ nth_error stanzas j = Some stanza
    /\ plan_stanza hexdigest fnmatch DEBS ICONS_DIR_DEFAULT only fix_metadata
         add_icons icons_dir icon_url_prefix (i + j) stanza = Planned p.
Proof.
  intros Hb Hin.
  destruct (build_from_index hexdigest fnmatch DEBS ICONS_DIR_DEFAULT only
              fix_metadata add_icons icons_dir icon_url_prefix stanzas i
              plans p Hb Hin)
    as [j [st [Hn Hp]]].
  exists j, st. split; [|split; assumption].
  apply plan_stanza_some in Hp. destruct Hp as [? [? [? [? H]]]]. apply H.
Qed.

Lemma build_from_order (stanzas : list str) : forall i plans l1 a l2 b,
  build_from hexdigest fnmatch DEBS ICONS_DIR_DEFAULT only fix_metadata
    add_icons icons_dir icon_url_prefix i stanzas = Some plans ->
  plans = l1 ++ a :: l2 ->
  In b l2 -> (stanza_index a < stanza_index b)%Z.
Proof.
  induction stanzas as [|s stanzas IH]; intros i plans l1 a l2 b Hb E Hin.
  - injection Hb as <-. destruct l1; discriminate.
  - cbn [build_from] in Hb.
    destruct (plan_stanza hexdigest fnmatch DEBS ICONS_DIR_DEFAULT only
                fix_metadata add_icons icons_dir icon_url_prefix i s)
      as [|p|] eqn:Ep; [exact (IH (S i) plans l1 a l2 b Hb E Hin)| |discriminate].
    destruct (build_from hexdigest fnmatch DEBS ICONS_DIR_DEFAULT only
                fix_metadata add_icons icons_dir icon_url_prefix (S i) stanzas)
      as [tail|] eqn:Et; [|discriminate].
    injection Hb as <-.
    destruct l1 as [|x l1].
    + cbn [app] in E. injection E as <- E.
      apply plan_stanza_some in Ep. destruct Ep as [? [? [? [? Hp]]]].
      assert (Ha : stanza_index p = Z.of_nat i) by apply Hp.
      rewrite <- E in Hin.
      destruct (build_from_plan_index stanzas (S i) tail b Et Hin)
        as [j [st [Hj _]]].
      lia.
    + cbn [app] in E. injection E as _ E.
      exact (IH (S i) tail l1 a l2 b Et E Hin).
Qed.

End PlanListFacts.

(** X15: the plans returned by [build_update_plans] follow the order of
    the stanzas: each plan is the plan of the stanza at its index, which
    is a position of the list, and a plan that comes later in the list
    has a strictly larger index, so that no stanza has two plans. *)
Theorem plans_in_stanza_order (hexdigest : str -> content -> str)
    (fnmatch : str -> str -> bool) (DEBS : directory)
    (ICONS_DIR_DEFAULT : icon_directory) (stanzas : list str)
    (only : option (list str)) (fix_metadata add_icons : bool)
    (icons_dir : option icon_directory) (icon_url_prefix : option str)
    (plans : list UpdatePlan) :
  build_update_plans hexdigest fnmatch DEBS ICONS_DIR_DEFAULT stanzas only
    fix_metadata add_icons icons_dir icon_url_prefix = Some plans ->
  (forall p, In p plans ->
     exists j stanza,
       stanza_index p = Z.of_nat j
       /\ nth_error stanzas j = Some stanza
       /\ plan_stanza hexdigest fnmatch DEBS ICONS_DIR_DEFAULT only
            fix_metadata add_icons icons_dir icon_url_prefix j stanza
          = Planned p)
  /\ (forall l1 a l2 b, plans = l1 ++ a :: l2 -> In b l2 ->
        (stanza_index a < stanza_index b)%Z).
Proof.
  unfold build_update_plans. intros Hb. split.
  - intros p Hin.
    destruct (build_from_plan_index hexdigest fnmatch DEBS ICONS_DIR_DEFAULT
                only fix_metadata add_icons icons_dir icon_url_prefix
                stanzas 0 plans p Hb Hin) as [j [st H]].
    exists j, st. exact H.
  - intros l1 a l2 b E Hin.
    exact (build_from_order hexdigest fnmatch DEBS ICONS_DIR_DEFAULT only
             fix_metadata add_icons icons_dir icon_url_prefix stanzas 0
             plans l1 a l2 b Hb E Hin).
Qed.

Lemma plans_in_stanza_order_witness :
  let DEBS : directory := [("a_1_arm.deb" : str, []); ("b_1_arm.deb" : str, [])] in
  let stanzas : list str :=
    ["Filename: a_1_arm.deb" : str; "Package: none" : str;
     "Filename: b_1_arm.deb" : str] in
  exists a b,
    build_update_plans (fun _ _ => "00" : str) wild_match DEBS None stanzas
      None false false None None = Some [a; b]
    /\ (stanza_index a < stanza_index b)%Z.
Proof.
  intros DEBS stanzas. eexists. eexists.
  match goal with
  | |- ?P = Some [?a; ?b] /\ _ =>
      assert (Hp : P = Some [a; b]) by (vm_compute; reflexivity);
      split; [exact Hp|];
      exact (proj2 (plans_in_stanza_order (fun _ _ => "00" : str) wild_match
                      DEBS None stanzas None false false None None [a; b] Hp)
               [] a [b] b eq_refl (or_introl eq_refl))
  end.
Defined.



(** X18: without metadata fixing and without icons a plan records no
    correction of package, version, architecture or icon; if it records
    no [Filename] correction either (the exact match), applying it only
    drops the lines of the stanza that name [Size], [MD5sum], [SHA1] or
    [SHA256] (a colon, and before the first colon, trimmed and in any
    casing, one of these names) and appends the four new lines: every
    other line is kept, in order, and the stanza stored is these lines
    joined by the line terminator. *)
Theorem plain_run_touches_hashes_only (hexdigest : str -> content -> str)
    (fnmatch : str -> str -> bool) (DEBS : directory)
    (ICONS_DIR_DEFAULT : icon_directory) (only : option (list str))
    (icons_dir : option icon_directory) (icon_url_prefix : option str)
    (i : nat) (stanza : str) (plan : UpdatePlan) :
  plan_stanza hexdigest fnmatch DEBS ICONS_DIR_DEFAULT only false false
    icons_dir icon_url_prefix i stanza = Planned plan ->
  fix_pkg plan = None /\ fix_ver plan = None /\ fix_arch plan = None
  /\ icon_url plan = None
  /\ (fix_filename plan = None ->
      let kept :=
        filter (fun ln => negb (existsb (fun k => names_field k ln) HASH_KEYS))
          (splitlines stanza) in
      updated_lines stanza plan = kept ++ hash_lines plan
      /\ new_stanza stanza plan = join EOL (kept ++ hash_lines plan)).
Proof.
  intros Hplan. unfold plan_stanza in Hplan.
  destruct (snd (get_field (splitlines stanza) "Filename")) as [[|c f]|];
    try discriminate.
  destruct (only_excludes only (basename (c :: f))); [discriminate|].
  destruct (resolve_deb fnmatch DEBS (basename (c :: f))) as [actual fixf].
  destruct (dir_lookup DEBS actual) as [data|].
  2:{ destruct (is_folder_name actual); discriminate. }
  cbn in Hplan. injection Hplan as <-. cbn [fix_pkg fix_ver fix_arch icon_url fix_filename].
  split; [reflexivity|]. split; [reflexivity|]. split; [reflexivity|].
  split; [reflexivity|]. intros ->. cbv zeta.
  match goal with
  | |- updated_lines stanza ?p = _ /\ _ =>
      assert (E : updated_lines stanza p
                  = filter (fun ln => negb (existsb (fun k => names_field k ln)
                                              HASH_KEYS)) (splitlines stanza)
                    ++ hash_lines p)
  end.
  { unfold updated_lines, corrected_lines.
    cbn [fix_pkg fix_ver fix_arch icon_url fix_filename set_if].
    f_equal. apply remove_fields_names. exact hash_keys_named. }
  split; [exact E|]. unfold new_stanza. now rewrite E.
Qed.

Lemma plain_run_touches_hashes_only_witness :
  exists plan,
    plan_stanza (fun _ _ => "00" : str) wild_match
      [("p_1_arm.deb" : str, [])] None None false false None None 0
      ("SIZE: 9" ++ [LF] ++ "Filename: p_1_arm.deb" ++ [LF] ++ "Name: n")
    = Planned plan
    /\ fix_pkg plan = None /\ icon_url plan = None
    /\ updated_lines
         ("SIZE: 9" ++ [LF] ++ "Filename: p_1_arm.deb" ++ [LF] ++ "Name: n")
         plan
       = [ "Filename: p_1_arm.deb" : str; "Name: n" : str; "Size: 0" : str;
           "MD5sum: 00" : str; "SHA1: 00" : str; "SHA256: 00" : str ].
Proof.
  eexists. split; [vm_compute; reflexivity|].
  match goal with
  | |- fix_pkg ?p = _ /\ _ =>
      destruct (plain_run_touches_hashes_only (fun _ _ => "00" : str) wild_match
                  [("p_1_arm.deb" : str, [])] None None None None 0
                  ("SIZE: 9" ++ [LF] ++ "Filename: p_1_arm.deb" ++ [LF] ++ "Name: n")
                  p eq_refl)
        as [H1 [_ [_ [H4 H5]]]]
  end.
  split; [exact H1|]. split; [exact H4|].
  rewrite (proj1 (H5 eq_refl)). reflexivity.
Defined.

(* ================================================================== *)
(** * The icon resolver *)

Lemma rstrip_slash_slash (pre : str) :
  rstrip_slash (pre ++ "/") = rstrip_slash pre.
Proof.
  unfold rstrip_slash. rewrite rev_app_distr. reflexivity.
Qed.

Lemma rstrip_slash_end (pre : str) (c : ascii) (r : str) :
  rev (rstrip_slash pre) = c :: r -> c <> "/"%char.
Proof.
  unfold rstrip_slash. rewrite rev_involutive.
  pose proof (dropwhile_head (Ascii.eqb "/") (rev pre)) as H.
  intros E. rewrite E in H. intros ->. discriminate.
Qed.

Lemma find_first {X : Type} (f : X -> bool) (before : list X) (x : X)
    (after : list X) :
  f x = true -> (forall e, In e before -> f e = false) ->
  find f (before ++ x :: after) = Some x.
Proof.
  intros Hx Hb. induction before as [|b before IH]; cbn [app find].
  - now rewrite Hx.
  - rewrite (Hb b (or_introl eq_refl)). apply IH.
    intros e He. apply Hb. now right.
Qed.

Lemma find_nothing {X : Type} (f : X -> bool) (l : list X) :
  (forall e, In e l -> f e = false) -> find f l = None.
Proof.
  intros H. induction l as [|a l IH]; [reflexivity|]. cbn [find].
  rewrite (H a (or_introl eq_refl)). apply IH. intros e He. apply H. now right.
Qed.

(** X20: the icon resolver returns nothing without a package id or
    without an icon directory.  Otherwise it goes through [.png], [.jpg],
    [.jpeg], [.webp] in this order: for the first of them whose file
    exists it returns the URL of that file, and it returns nothing when
    none exists.  The URL is [icons/<name>] without a prefix, and with a
    prefix it is the prefix without its trailing slashes, one slash and
    the name, so that a prefix gives the same URL with or without a final
    slash. *)
Theorem find_icon_for_package_url (package_id icon_url_prefix : option str)
    (icons_dir : icon_directory) :
  let exts := [".png" : str; ".jpg" : str; ".jpeg" : str; ".webp" : str] in
  let url_of (pid ext : str) :=
    (match icon_url_prefix with
     | Some (c :: p) => rstrip_slash (c :: p) ++ "/"
     | _ => "icons/" : str
     end) ++ backslash_to_slash (basename (pid ++ ext)) in
  (truthy package_id = false \/ icons_dir = None ->
   _find_icon_for_package package_id icons_dir icon_url_prefix = None)
  /\ (forall pid present,
        package_id = Some pid -> pid <> [] -> icons_dir = Some present ->
        (forall before ext after,
           exts = before ++ ext :: after ->
           str_in (pid ++ ext) present = true ->
           (forall e, In e before -> str_in (pid ++ e) present = false) ->
           _find_icon_for_package package_id icons_dir icon_url_prefix
           = Some (url_of pid ext))
        /\ ((forall e, In e exts -> str_in (pid ++ e) present = false) ->
            _find_icon_for_package package_id icons_dir icon_url_prefix
            = None))
  /\ (forall pre, pre <> [] ->
        _find_icon_for_package package_id icons_dir (Some (pre ++ "/"))
        = _find_icon_for_package package_id icons_dir (Some pre)).
Proof.
  intros exts url_of. split; [|split].
  - intros [H| ->].
    + destruct package_id as [[|c p]|]; try discriminate; reflexivity.
    + destruct package_id as [[|c p]|]; reflexivity.
  - intros pid present -> Hne ->. destruct pid as [|c p]; [congruence|].
    split.
    + intros before ext after E Hin Hb.
      unfold _find_icon_for_package. cbv zeta.
      fold exts. rewrite E.
      match goal with
      | |- context [find ?f ?l] =>
          assert (Hf : find f l = Some ext)
            by exact (find_first f before ext after Hin Hb);
          rewrite Hf
      end.
      subst url_of. cbv beta.
      destruct icon_url_prefix as [[|d q]|]; cbn [truthy];
        rewrite <- ?app_assoc; reflexivity.
    + intros Hno. unfold _find_icon_for_package. cbv zeta. fold exts.
      match goal with
      | |- context [find ?f ?l] =>
          assert (Hf : find f l = None) by exact (find_nothing f exts Hno);
          now rewrite Hf
      end.
  - intros pre Hne. unfold _find_icon_for_package.
    destruct package_id as [[|c p]|]; try reflexivity.
    destruct icons_dir as [present|]; [|reflexivity]. cbv zeta.
    destruct (find _ _) as [ext|]; [|reflexivity].
    destruct pre as [|d q]; [congruence|].
    change ((d :: q) ++ "/") with (d :: (q ++ "/")).
    cbn [truthy]. change (d :: (q ++ "/")) with ((d :: q) ++ "/").
    rewrite rstrip_slash_slash. reflexivity.
Qed.

Lemma find_icon_for_package_url_witness :
  _find_icon_for_package (Some ("com.x" : str))
    (Some ["com.x.webp" : str; "com.x.jpg" : str])
    (Some ("https://h/icons//" : str))
  = Some ("https://h/icons/com.x.jpg" : str)
  /\ _find_icon_for_package (Some ("com.x" : str))
       (Some ["com.y.png" : str]) (Some ("https://h/icons//" : str))
     = None.
Proof.
  destruct (find_icon_for_package_url (Some ("com.x" : str))
              (Some ("https://h/icons//" : str))
              (Some ["com.x.webp" : str; "com.x.jpg" : str]))
    as [_ [H _]].
  destruct (find_icon_for_package_url (Some ("com.x" : str))
              (Some ("https://h/icons//" : str))
              (Some ["com.y.png" : str]))
    as [_ [H' _]].
  split.
  - refine (proj1 (H ("com.x" : str) ["com.x.webp" : str; "com.x.jpg" : str]
                     eq_refl _ eq_refl)
              [".png" : str] (".jpg" : str) [".jpeg" : str; ".webp" : str]
              eq_refl eq_refl _).
    + discriminate.
    + intros e [<-|[]]. reflexivity.
  - refine (proj2 (H' ("com.x" : str) ["com.y.png" : str] eq_refl _ eq_refl) _).
    + discriminate.
    + intros e [<-|[<-|[<-|[<-|[]]]]]; reflexivity.
Defined.

(* ================================================================== *)
(** * Writer and entry point *)

Example ex_encode_utf8 :
  encode_utf8 ["127"%char; "128"%char; "160"%char; "255"%char]
  = [Byte.x7f; Byte.xc2; Byte.x80; Byte.xc2; Byte.xa0; Byte.xc3; Byte.xbf].
Proof. reflexivity. Qed.




(* ================================================================== *)
(** * The updated stanza as text, and the index written *)

(** X19: read back from its text, an updated stanza has the lines the
    applier joined, provided the corrections and digests of the plan hold
    no line boundary: its last four lines are the [Size], [MD5sum],
    [SHA1] and [SHA256] lines of the plan, and each of these four fields
    is carried by exactly one line of the text. *)
Theorem new_stanza_text_hash_fields (stanza : str) (plan : UpdatePlan) :
  plan_text_clean plan = true ->
  let T := splitlines (new_stanza stanza plan) in
  T = updated_lines stanza plan
  /\ skipn (length T - 4) T = hash_lines plan
  /\ forall key, In key HASH_KEYS -> length (filter (is_field_line key) T) = 1.
Proof.
  intros Hclean T. subst T. rewrite (new_stanza_lines stanza plan Hclean).
  split; [reflexivity|]. unfold updated_lines.
  set (body := corrected_lines (splitlines stanza) plan). split.
  - rewrite length_app. cbn [hash_lines length].
    replace (length body + 4 - 4) with (length body + 0) by lia.
    rewrite skipn_app, Nat.add_0_r, skipn_all.
    replace (length body - length body) with 0 by lia. reflexivity.
  - intros key Hin. rewrite filter_app, length_app.
    rewrite filter_none.
    2:{ eapply Forall_impl; [|apply corrected_lines_clean].
        intros ln. apply is_field_line_clean. exact Hin. }
    pose proof (hash_lines_key_of plan) as Hk.
    assert (Hcount : forall l ks,
               map key_of l = map (fun k => Some (lower k)) ks ->
               length (filter (is_field_line key) l)
               = length (filter (fun k => str_eqb (lower k) (lower key)) ks)).
    { induction l as [|x l IH]; intros [|k ks] E; try discriminate; [reflexivity|].
      cbn [map] in E. injection E as Ex El. cbn [filter].
      unfold is_field_line at 1. rewrite removed_key_of, Ex.
      cbn [str_in existsb]. rewrite orb_false_r.
      destruct (str_eqb (lower k) (lower key)); cbn [length]; now rewrite (IH ks El). }
    rewrite (Hcount _ _ Hk). cbn in Hin.
    destruct Hin as [<-|[<-|[<-|[<-|[]]]]]; reflexivity.
Qed.

Lemma new_stanza_text_hash_fields_witness :
  let plan := mkPlan 0 "p_2_arm.deb" 3 "aa" "bb" "cc"
                (Some ("p" : str)) None None None None in
  let T := splitlines (new_stanza ("sha1: old" ++ [CR] ++ "package: q") plan) in
  T = updated_lines ("sha1: old" ++ [CR] ++ "package: q") plan
  /\ skipn (length T - 4) T = hash_lines plan
  /\ forall key, In key HASH_KEYS -> length (filter (is_field_line key) T) = 1.
Proof. intros plan. apply new_stanza_text_hash_fields. reflexivity. Defined.

Lemma before_first_head (c : ascii) (key rest : str) :
  contains_char c key = false -> before_first c (key ++ c :: rest) = key.
Proof.
  induction key as [|a key IH]; intros H.
  - cbn [app before_first]. now rewrite Ascii.eqb_refl.
  - unfold contains_char in H. cbn [existsb] in H.
    apply orb_false_elim in H as [Ha Hk]. cbn [app before_first].
    rewrite Ascii.eqb_sym, Ha. f_equal. exact (IH Hk).
Qed.

Lemma names_field_head (k key rest : str) :
  contains_char ":" key = false ->
  names_field k (key ++ ":"%char :: rest)
  = str_eqb (lower (strip key)) (lower k).
Proof.
  intros H. unfold names_field. rewrite (before_first_head _ _ _ H).
  rewrite contains_char_app.
  replace (contains_char ":" (":"%char :: rest)) with true by reflexivity.
  now rewrite orb_true_r.
Qed.

Lemma names_field_clean (key ln : str) :
  In key HASH_KEYS -> removed HASH_KEYS_LC ln = false ->
  names_field key ln = false.
Proof.
  intros Hin H. unfold HASH_KEYS_LC in H.
  rewrite (removed_names_field HASH_KEYS ln hash_keys_named) in H.
  destruct (names_field key ln) eqn:E; [|reflexivity].
  rewrite <- H. symmetry. apply existsb_exists. exists key. now split.
Qed.

(** The lines of an updated stanza: the four lines of the plan come
    last, and each of the four fields is named by one line. *)
Lemma updated_lines_hash_fields (stanza : str) (plan : UpdatePlan) :
  let L := updated_lines stanza plan in
  skipn (length L - 4) L = hash_lines plan
  /\ forall key, In key HASH_KEYS ->
       length (filter (names_field key) L) = 1.
Proof.
  intros L. subst L. unfold updated_lines.
  set (body := corrected_lines (splitlines stanza) plan). split.
  - rewrite length_app. cbn [hash_lines length].
    replace (length body + 4 - 4) with (length body + 0) by lia.
    rewrite skipn_app, Nat.add_0_r, skipn_all.
    replace (length body - length body) with 0 by lia. reflexivity.
  - intros key Hin. rewrite filter_app, length_app.
    rewrite filter_none.
    2:{ eapply Forall_impl; [|apply corrected_lines_clean].
        intros ln. apply names_field_clean. exact Hin. }
    unfold hash_lines. cbn [filter].
    change ("Size: " ++ str_of_int (size plan))
      with ("Size" ++ ":"%char :: " " ++ str_of_int (size plan)).
    change ("MD5sum: " ++ md5 plan) with ("MD5sum" ++ ":"%char :: " " ++ md5 plan).
    change ("SHA1: " ++ sha1 plan) with ("SHA1" ++ ":"%char :: " " ++ sha1 plan).
    change ("SHA256: " ++ sha256 plan)
      with ("SHA256" ++ ":"%char :: " " ++ sha256 plan).
    rewrite !names_field_head by reflexivity.
    cbn in Hin. destruct Hin as [<-|[<-|[<-|[<-|[]]]]]; reflexivity.
Qed.

Lemma addressed_or_not (n i : nat) (l : list UpdatePlan) :
  (exists l1 q l2, l = l1 ++ q :: l2
                   /\ py_index n (stanza_index q) = Some i
                   /\ forall x, In x l2 -> py_index n (stanza_index x) <> Some i)
  \/ (forall x, In x l -> py_index n (stanza_index x) <> Some i).
Proof.
  induction l as [|a l IH]; [right; intros x []|].
  destruct IH as [[l1 [q [l2 [-> [Hq Hl2]]]]]|Hno].
  - left. exists (a :: l1), q, l2. repeat split; assumption.
  - destruct (py_index n (stanza_index a)) as [j|] eqn:Ea.
    + destruct (Nat.eq_dec j i) as [->|Hne].
      * left. exists [], a, l. repeat split; assumption.
      * right. intros x [<-|Hx]; [congruence|now apply Hno].
    + right. intros x [<-|Hx]; [congruence|now apply Hno].
Qed.

(** C7 (as amended): when no value written by the plans that address it
    (corrections, icon URL, digests) holds a line break, a stanza that a
    plan addresses comes out of [apply_plans] as a text whose last four
    lines are the [Size], [MD5sum], [SHA1] and [SHA256] lines of the last
    plan that addresses it, in this order, and in which each of these
    four fields is named by exactly one line (a colon, and before the
    first colon, trimmed and in any casing, the name of the field),
    whatever lines the stanza had before. *)
Theorem hash_fields_once_at_end (stanzas : list str)
    (plans : list UpdatePlan) (out : list str) :
  apply_plans stanzas plans = Some out ->
  forall i p, In p plans ->
    py_index (length stanzas) (stanza_index p) = Some i ->
    (forall x, In x plans ->
       py_index (length stanzas) (stanza_index x) = Some i ->
       plan_text_clean x = true) ->
    exists l1 q l2 text,
      plans = l1 ++ q :: l2
      /\ py_index (length stanzas) (stanza_index q) = Some i
      /\ (forall x, In x l2 ->
            py_index (length stanzas) (stanza_index x) <> Some i)
      /\ nth_error out i = Some text
      /\ let T := splitlines text in
         skipn (length T - 4) T
         = [ "Size: " ++ str_of_int (size q); "MD5sum: " ++ md5 q;
             "SHA1: " ++ sha1 q; "SHA256: " ++ sha256 q ]
         /\ forall key, In key HASH_KEYS ->
              length (filter (names_field key) T) = 1.
Proof.
  intros Hap i p Hin Hp Hclean.
  destruct (addressed_or_not (length stanzas) i plans)
    as [[l1 [q [l2 [E [Hq Hl2]]]]]|Hno]; [|now destruct (Hno p Hin)].
  subst plans. rewrite apply_plans_app in Hap.
  destruct (apply_plans stanzas l1) as [mid|] eqn:Emid; [|discriminate].
  pose proof (apply_plans_length l1 stanzas mid Emid) as Hlen.
  cbn [apply_plans] in Hap. rewrite Hlen, Hq in Hap.
  assert (Hi : i < length mid)
    by (rewrite Hlen; exact (py_index_some _ _ _ Hq)).
  set (text := new_stanza (nth i mid []) q) in Hap.
  exists l1, q, l2, text.
  split; [reflexivity|]. split; [exact Hq|]. split; [exact Hl2|]. split.
  - rewrite (apply_plans_untouched l2 _ out i Hap).
    + now apply list_set_same.
    + intros x Hx. rewrite list_set_length, Hlen. now apply Hl2.
  - assert (Hcq : plan_text_clean q = true).
    { apply Hclean; [|exact Hq]. apply in_or_app. right. now left. }
    cbv zeta. subst text. rewrite (new_stanza_lines _ q Hcq).
    exact (updated_lines_hash_fields (nth i mid []) q).
Qed.

Lemma hash_fields_once_at_end_witness :
  let plan := mkPlan 0 "a.deb" 3 "aa" "bb" "cc" None None None None None in
  let stanzas :=
    [ "SIZE: 1" ++ [LF] ++ " size : 2" ++ [LF] ++ "Filename: a.deb" ] in
  exists text,
    option_map (fun out => nth_error out 0) (apply_plans stanzas [plan])
    = Some (Some text)
    /\ skipn (length (splitlines text) - 4) (splitlines text)
       = [ "Size: 3" : str; "MD5sum: aa" : str; "SHA1: bb" : str;
           "SHA256: cc" : str ]
    /\ length (filter (names_field "Size") (splitlines text)) = 1.
Proof.
  intros plan stanzas.
  destruct (hash_fields_once_at_end stanzas [plan]
              [new_stanza (nth 0 stanzas []) plan] eq_refl
              0 plan (or_introl eq_refl) eq_refl)
    as [l1 [q [l2 [text [E [_ [_ [Hn [Hs Hc]]]]]]]]].
  { intros x [<-|[]] _. reflexivity. }
  exists text. split; [|split].
  - cbn [apply_plans]. cbn [py_index stanza_index plan]. cbn.
    injection Hn as <-. reflexivity.
  - injection Hn as <-. reflexivity.
  - apply Hc. now left.
Defined.

(** C7 (as stated) fails on an artifact whose name holds a line break:
    the fuzzy search finds it for the stanza [Filename: x.deb], the
    [Filename] line written breaks in two, and the second piece is a
    [Size] line, so that the stanza returned names [Size] twice. *)
Lemma line_break_in_name_repeats_size :
  let name : str := "x" ++ [LF] ++ "Size: 9_1_arm.deb" in
  let DEBS : directory := [(name, [])] in
  let stanzas := [ "Filename: x.deb" : str ] in
  let plan := mkPlan 0 name 0 "00" "00" "00" None None None
                (Some ("./debs/" ++ name)) None in
  build_update_plans (fun _ _ => "00" : str) wild_match DEBS None stanzas
    None false false None None = Some [plan]
  /\ plan_text_clean plan = false
  /\ exists text,
       apply_plans stanzas [plan] = Some [text]
       /\ splitlines text
          = [ "Filename: ./debs/x" : str; "Size: 9_1_arm.deb" : str;
              "Size: 0" : str; "MD5sum: 00" : str; "SHA1: 00" : str;
              "SHA256: 00" : str ]
       /\ length (filter (names_field "Size") (splitlines text)) = 2.
Proof.
  intros name DEBS stanzas plan.
  split; [reflexivity|]. split; [reflexivity|].
  eexists. split; [reflexivity|]. split; reflexivity.
Qed.

Lemma sep_len_char (c : ascii) (s : str) :
  is_linebreak c = false -> sep_len (c :: s) = 0.
Proof.
  intros H. unfold sep_len. rewrite eol_run_other; [reflexivity| |].
  - destruct (Ascii.eqb c LF) eqn:E; [|reflexivity].
    apply Ascii.eqb_eq in E. subst. discriminate.
  - destruct (Ascii.eqb c CR) eqn:E; [|reflexivity].
    apply Ascii.eqb_eq in E. subst. discriminate.
Qed.

Lemma no_blank_run_line (x t : str) :
  no_break x = true -> no_blank_run t = true -> no_blank_run (x ++ t) = true.
Proof.
  intros Hx Ht. induction x as [|c x IH]; [exact Ht|].
  simpl in Hx. apply andb_prop in Hx as [Hc Hx]. apply negb_true_iff in Hc.
  cbn [app no_blank_run]. rewrite (sep_len_char c _ Hc), (IH Hx). reflexivity.
Qed.

Lemma no_blank_run_eol (c : ascii) (t : str) :
  is_linebreak c = false -> no_blank_run (c :: t) = true ->
  no_blank_run (EOL ++ c :: t) = true.
Proof.
  intros Hc Ht. unfold EOL. cbn [app].
  assert (H0 : eol_run (c :: t) = (0, c :: t)).
  { apply eol_run_other.
    - destruct (Ascii.eqb c LF) eqn:E; [|reflexivity].
      apply Ascii.eqb_eq in E. subst. discriminate.
    - destruct (Ascii.eqb c CR) eqn:E; [|reflexivity].
      apply Ascii.eqb_eq in E. subst. discriminate. }
  change (no_blank_run (CR :: LF :: c :: t))
    with ((sep_len (CR :: LF :: c :: t) =? 0)
          && ((sep_len (LF :: c :: t) =? 0) && no_blank_run (c :: t))).
  unfold sep_len. rewrite eol_run_CRLF, eol_run_LF, H0. cbn [fst snd Nat.leb].
  rewrite Ht. reflexivity.
Qed.

(** Joining non-empty lines without line boundary makes no blank line. *)
Lemma no_blank_run_join (lines : list str) :
  Forall (fun l => l <> [] /\ no_break l = true) lines ->
  no_blank_run (join EOL lines) = true.
Proof.
  induction 1 as [|x lines [Hne Hx] Hall IH]; [reflexivity|].
  destruct lines as [|y lines].
  - cbn [join]. rewrite <- (app_nil_r x). now apply no_blank_run_line.
  - change (join EOL (x :: y :: lines)) with (x ++ EOL ++ join EOL (y :: lines)).
    apply no_blank_run_line; [exact Hx|].
    inversion Hall as [|? ? [Hy Hyb] _]; subst.
    destruct y as [|c y]; [congruence|].
    simpl in Hyb. apply andb_prop in Hyb as [Hc _]. apply negb_true_iff in Hc.
    assert (E : exists t, join EOL ((c :: y) :: lines) = c :: t).
    { destruct lines; cbn [join app]; eexists; reflexivity. }
    destruct E as [t E]. rewrite E in *. now apply no_blank_run_eol.
Qed.

Lemma set_if_forall (P : str -> Prop) (corr : option str) (key : str)
    (lines : list str) :
  (forall v, P (key ++ ": " ++ v)) ->
  Forall P lines -> Forall P (set_if corr key lines).
Proof.
  intros Hnew Hl. destruct corr as [[|c v]|]; try exact Hl. cbn [set_if].
  destruct (set_field_cases lines key (c :: v))
    as [[_ ->]|[pre [l [post [-> [_ [_ ->]]]]]]].
  - apply Forall_app. split; [exact Hl|]. constructor; [apply Hnew|constructor].
  - apply Forall_app in Hl as [Hpre Hpost]. inversion Hpost; subst.
    apply Forall_app. split; [exact Hpre|]. constructor; [apply Hnew|assumption].
Qed.

Lemma updated_lines_nonempty (stanza : str) (plan : UpdatePlan) :
  Forall (fun l => l <> []) (splitlines stanza) ->
  Forall (fun l => l <> []) (updated_lines stanza plan).
Proof.
  intros H. unfold updated_lines. apply Forall_app. split.
  - unfold corrected_lines.
    repeat (apply set_if_forall; [intros v; discriminate|]).
    unfold remove_fields. apply Forall_forall. intros x Hx.
    apply filter_In in Hx as [Hx _]. rewrite Forall_forall in H. now apply H.
  - unfold hash_lines. repeat constructor; discriminate.
Qed.

Lemma nonblank_char (s : str) (c : ascii) :
  In c s -> isspace c = false -> nonblank s = true.
Proof.
  intros Hin Hc. unfold nonblank. destruct (strip s) eqn:E; [|reflexivity].
  exfalso. unfold strip in E.
  destruct (dropwhile_split isspace s) as [w1 [Hs Hw1]]. fold (lstrip s) in Hs.
  destruct (rstrip_split (lstrip s)) as [w2 [Hr Hw2]].
  rewrite E in Hr. cbn [app] in Hr. rewrite Hr in Hs. rewrite Hs in Hin.
  apply in_app_or in Hin. rewrite Forall_forall in Hw1, Hw2.
  destruct Hin as [Hin|Hin]; [apply Hw1 in Hin | apply Hw2 in Hin]; congruence.
Qed.

Lemma join_last_in (sep : str) (lines : list str) (x : str) :
  forall c, In c x -> In c (join sep (lines ++ [x])).
Proof.
  intros c Hc. induction lines as [|y lines IH]; [exact Hc|].
  cbn [app join]. destruct (lines ++ [x]) eqn:E.
  - destruct lines; discriminate.
  - apply in_or_app. right. apply in_or_app. right. exact IH.
Qed.

Lemma new_stanza_nonblank (stanza : str) (plan : UpdatePlan) :
  nonblank (new_stanza stanza plan) = true.
Proof.
  apply (nonblank_char _ "S"%char); [|reflexivity].
  unfold new_stanza, updated_lines, hash_lines.
  change (corrected_lines (splitlines stanza) plan
          ++ ["Size: " ++ str_of_int (size plan); "MD5sum: " ++ md5 plan;
              "SHA1: " ++ sha1 plan; "SHA256: " ++ sha256 plan])
    with (corrected_lines (splitlines stanza) plan
          ++ ["Size: " ++ str_of_int (size plan); "MD5sum: " ++ md5 plan;
              "SHA1: " ++ sha1 plan] ++ ["SHA256: " ++ sha256 plan]).
  rewrite app_assoc. apply join_last_in. left. reflexivity.
Qed.

Lemma new_stanza_sound (stanza : str) (plan : UpdatePlan) :
  plan_text_clean plan = true ->
  sound_stanza stanza -> sound_stanza (new_stanza stanza plan).
Proof.
  intros Hclean [_ [_ Hlines]].
  pose proof (updated_lines_nonempty stanza plan Hlines) as Hne.
  pose proof (new_stanza_lines stanza plan Hclean) as Hsplit.
  split; [apply new_stanza_nonblank|]. split.
  - unfold new_stanza. apply no_blank_run_join.
    pose proof (splitlines_no_break (new_stanza stanza plan)) as Hnb.
    rewrite Hsplit in Hnb. rewrite Forall_forall in *.
    intros l Hl. split; [now apply Hne | now apply Hnb].
  - rewrite Hsplit. exact Hne.
Qed.

Lemma apply_plans_sound (plans : list UpdatePlan) : forall stanzas out,
  Forall (fun p => plan_text_clean p = true) plans ->
  Forall sound_stanza stanzas ->
  apply_plans stanzas plans = Some out ->
  Forall sound_stanza out.
Proof.
  induction plans as [|p plans IH]; intros stanzas out Hc Hs H.
  - injection H as <-. exact Hs.
  - inversion Hc as [|? ? Hp Hc']; subst. cbn [apply_plans] in H.
    destruct (py_index (length stanzas) (stanza_index p)) as [i|] eqn:Ei;
      [|discriminate].
    apply (IH _ out Hc') in H; [exact H|].
    assert (Hi : i < length stanzas) by (eapply py_index_some, Ei).
    assert (Hold : sound_stanza (nth i stanzas [])).
    { rewrite Forall_forall in Hs. apply Hs, nth_In, Hi. }
    pose proof (new_stanza_sound _ p Hp Hold) as Hnew.
    set (x := new_stanza (nth i stanzas []) p) in *. clearbody x.
    clear - Hs Hnew. revert i.
    induction Hs as [|s stanzas Hs0 Hs IHs]; intros [|i]; cbn [list_set];
      try constructor; try assumption. apply IHs.
Qed.

(** X23: the index written keeps its stanzas.  When none of the parsed
    stanzas has an empty line and the corrections and digests of the
    plans hold no line boundary, the stanzas returned by [apply_plans],
    joined and parsed again, are as many as before, and joining them
    once more gives the same text. *)
Theorem written_index_keeps_stanzas (raw : str) (plans : list UpdatePlan)
    (out : list str) :
  Forall (fun s => Forall (fun l => l <> []) (splitlines s))
         (parse_stanzas raw) ->
  Forall (fun p => plan_text_clean p = true) plans ->
  apply_plans (parse_stanzas raw) plans = Some out ->
  length (parse_stanzas (join_stanzas out)) = length (parse_stanzas raw)
  /\ join_stanzas (parse_stanzas (join_stanzas out)) = join_stanzas out
  /\ Forall (fun s => no_blank_run s = true) out.
Proof.
  intros Hlines Hclean Happ.
  assert (Hsound : Forall sound_stanza (parse_stanzas raw)).
  { pose proof (parse_stanzas_pieces raw) as Hwf.
    rewrite Forall_forall in *. intros s Hs.
    destruct (Hwf s Hs) as [H1 H2]. split; [exact H1|].
    split; [exact H2 | now apply Hlines]. }
  pose proof (apply_plans_sound plans _ out Hclean Hsound Happ) as Hout.
  pose proof (apply_plans_length plans _ out Happ) as Hlen.
  destruct out as [|s0 out0] eqn:Eout.
  { rewrite <- Hlen. split; [|split]; [reflexivity | reflexivity | constructor]. }
  rewrite <- Eout in *.
  assert (Hne' : out <> []) by (rewrite Eout; discriminate).
  assert (Hnb : Forall (fun s => nonblank s = true) out).
  { eapply Forall_impl; [|exact Hout]. intros s H. apply H. }
  assert (Hrun : Forall (fun s => no_blank_run (strip s) = true) out).
  { eapply Forall_impl; [|exact Hout]. intros s H.
    apply no_blank_run_strip, H. }
  rewrite (parse_joined out Hne' Hnb Hrun). split; [|split].
  - rewrite length_app, length_map. cbn [length].
    assert (Hl : length (removelast out) + 1 = length out).
    { rewrite (app_removelast_last [] Hne') at 2.
      rewrite length_app. reflexivity. }
    lia.
  - unfold join_stanzas. rewrite map_strip_parsed; [reflexivity|exact Hne'|].
    destruct out as [|s out]; [congruence|].
    rewrite Forall_forall in Hnb. apply Hnb, last_in.
  - eapply Forall_impl; [|exact Hout]. intros s H. apply H.
Qed.

Lemma written_index_keeps_stanzas_witness :
  let raw : str := "Package: a" ++ [LF] ++ "Filename: a.deb" ++ [LF; LF]
                   ++ "Package: b" ++ [LF] in
  let plan := mkPlan 0 "a.deb" 3 "aa" "bb" "cc" None None None None None in
  exists out,
    apply_plans (parse_stanzas raw) [plan] = Some out
    /\ length (parse_stanzas (join_stanzas out)) = length (parse_stanzas raw)
    /\ join_stanzas (parse_stanzas (join_stanzas out)) = join_stanzas out.
Proof.
  intros raw plan. eexists. split; [vm_compute; reflexivity|].
  match goal with
  | |- length (parse_stanzas (join_stanzas ?o)) = _ /\ _ =>
      destruct (written_index_keeps_stanzas raw [plan] o) as [H1 [H2 _]]
  end.
  - repeat constructor; discriminate.
  - repeat constructor.
  - reflexivity.
  - split; assumption.
Defined.

(* ================================================================== *)
(** * The reader of file names *)

Example ex_parse_filenames :
  parse_filenames_from_packages
    ("Package: a" ++ [LF] ++ "Filename: ./debs/a.deb" ++ [LF; LF]
     ++ "FILENAME:debs/a.deb" ++ [LF] ++ "filename: ././b.deb" ++ [LF]
     ++ " Filename: c.deb")
  = ["debs/a.deb" : str; "b.deb" : str].
Proof. reflexivity. Qed.

Lemma strip_dot_slash_len (n : nat) : forall val,
  length val <= n ->
  startswith "./" (strip_dot_slash val) = false
  /\ exists k, val = concat (repeat ("./" : str) k) ++ strip_dot_slash val.
Proof.
  induction n as [|n IH]; intros val Hlen.
  - destruct val; [|simpl in Hlen; lia]. split; [reflexivity|]. now exists 0.
  - destruct val as [|c [|d r]].
    + split; [reflexivity|]. now exists 0.
    + split; [apply str_eqb_neq; discriminate|]. now exists 0.
    + cbn [strip_dot_slash].
      destruct (Ascii.eqb c "." && Ascii.eqb d "/")%bool eqn:E.
      * apply andb_prop in E as [Ec Ed]. apply Ascii.eqb_eq in Ec, Ed. subst.
        destruct (IH r) as [H1 [k H2]]; [simpl in Hlen; lia|].
        split; [exact H1|]. exists (S k). cbn [repeat concat].
        rewrite <- app_assoc. cbn [lit list_ascii_of_string app].
        f_equal. f_equal. exact H2.
      * split; [|now exists 0].
        apply str_eqb_neq. cbn. intros H. injection H as -> ->.
        discriminate.
Qed.

Lemma dedupe_spec (l : list str) : forall seen,
  NoDup (dedupe seen l)
  /\ (forall x, In x (dedupe seen l) <-> In x l /\ ~ In x seen).
Proof.
  induction l as [|y l IH]; intros seen.
  - split; [constructor|]. intros x. split; [intros [] | intros [[] _]].
  - cbn [dedupe]. destruct (str_in y seen) eqn:E.
    + apply str_in_spec in E. destruct (IH seen) as [H1 H2].
      split; [exact H1|]. intros x. rewrite H2. split.
      * intros [Hx Hs]. split; [now right | exact Hs].
      * intros [[->|Hx] Hs]; [contradiction | split; assumption].
    + assert (Hy : ~ In y seen).
      { intros H. apply str_in_spec in H. congruence. }
      destruct (IH (y :: seen)) as [H1 H2]. split.
      * constructor; [|exact H1]. rewrite H2. intros [_ H]. apply H. now left.
      * intros x. cbn [In]. rewrite H2. split.
        -- intros [<-|[Hx Hs]]; [split; [now left | exact Hy]|].
           split; [now right|]. intros H. apply Hs. now right.
        -- intros [[->|Hx] Hs]; [now left|].
           destruct (list_eq_dec ascii_dec y x) as [->|Hne]; [now left|].
           right. split; [exact Hx|]. intros [H|H]; [congruence|contradiction].
Qed.

Lemma filename_values_in (text v : str) :
  In v (filename_values text) <->
  exists line,
    In line (splitlines text)
    /\ startswith "filename:" (lower line) = true
    /\ v = strip_dot_slash (strip (after_first ":" line)).
Proof.
  unfold filename_values. rewrite in_flat_map. split.
  - intros [line [Hl Hv]].
    destruct (startswith "filename:" (lower line)) eqn:E; [|destruct Hv].
    destruct Hv as [<-|[]]. exists line. repeat split; assumption.
  - intros [line [Hl [E ->]]]. exists line. split; [exact Hl|].
    rewrite E. now left.
Qed.

(** X24: the file names that [parse_filenames_from_packages] reads from
    an index are pairwise distinct and none starts with [./]; each is the
    value of a line that starts with [filename:] in some casing, trimmed
    and without its leading [./] (however many), and every such value is
    in the list. *)
Theorem parse_filenames_normalized (text : str) :
  let out := parse_filenames_from_packages text in
  NoDup out
  /\ Forall (fun v => startswith "./" v = false) out
  /\ (forall v, In v out <->
        exists line,
          In line (splitlines text)
          /\ startswith "filename:" (lower line) = true
          /\ v = strip_dot_slash (strip (after_first ":" line)))
  /\ (forall v, In v out ->
        exists line k,
          In line (splitlines text)
          /\ strip (after_first ":" line)
             = concat (repeat ("./" : str) k) ++ v).
Proof.
  intros out. subst out. unfold parse_filenames_from_packages.
  destruct (dedupe_spec (filename_values text) []) as [Hnd Hin].
  split; [exact Hnd|]. split; [|split].
  - apply Forall_forall. intros v Hv. apply Hin in Hv as [Hv _].
    apply filename_values_in in Hv as [line [_ [_ ->]]].
    apply (strip_dot_slash_len (length (strip (after_first ":" line)))), le_n.
  - intros v. rewrite Hin, filename_values_in. split; [intros [H _]; exact H|].
    intros H. split; [exact H | intros []].
  - intros v Hv. apply Hin in Hv as [Hv _].
    apply filename_values_in in Hv as [line [Hl [_ ->]]].
    destruct (strip_dot_slash_len (length (strip (after_first ":" line)))
                (strip (after_first ":" line)) (le_n _)) as [_ [k Hk]].
    exists line, k. split; [exact Hl | exact Hk].
Qed.

(** X25: the reader undoes the [./] that the planner writes: when a plan
    whose corrections and digests hold no line boundary corrects
    [Filename] to [./debs/<name>], for a name that is not empty and has no
    white space at either end, the file names read from the text of the
    updated stanza include [debs/<name>]. *)
Theorem reader_strips_written_prefix (stanza : str) (plan : UpdatePlan)
    (name : str) :
  plan_text_clean plan = true ->
  fix_filename plan = Some ("./debs/" ++ name) ->
  strip name = name -> name <> [] ->
  In ("debs/" ++ name)
     (parse_filenames_from_packages (new_stanza stanza plan)).
Proof.
  intros Hclean Hfix Hs Hne.
  unfold parse_filenames_from_packages.
  apply (dedupe_spec (filename_values (new_stanza stanza plan)) []).
  split; [|intros []].
  apply filename_values_in.
  exists ("Filename: " ++ "./debs/" ++ name). split; [|split].
  - rewrite (new_stanza_lines stanza plan Hclean).
    unfold updated_lines. apply in_or_app. left. unfold corrected_lines.
    rewrite Hfix. apply in_set_if_other.
    + exact (has_field_written_other "Icon" "Filename" _ eq_refl eq_refl
               ltac:(apply str_eqb_neq; reflexivity)).
    + exact (in_set_field _ "Filename" ("./debs/" ++ name)).
  - unfold lower. rewrite map_app. reflexivity.
  - change (after_first ":" ("Filename: " ++ "./debs/" ++ name))
      with (" "%char :: ("./debs/" ++ name)).
    rewrite <- (strip_lstrip (" "%char :: ("./debs/" ++ name))).
    change (lstrip (" "%char :: ("./debs/" ++ name))) with ("./debs/" ++ name).
    assert (Hstrip : strip ("./debs/" ++ name) = "./debs/" ++ name).
    { apply strip_fix; [reflexivity|].
      destruct (strip_last name) as [E|[x0 [z [E Hz]]]]; [congruence|].
      rewrite Hs in E. exists ("./debs/" ++ x0), z. split; [|exact Hz].
      rewrite E, <- !app_assoc. reflexivity. }
    rewrite Hstrip. reflexivity.
Qed.

Lemma reader_strips_written_prefix_witness :
  let plan := mkPlan 0 "pkg_1.0_arm.x.deb" 3 "aa" "bb" "cc" None None None
                (Some ("./debs/" ++ "pkg_1.0_arm.x.deb")) None in
  In ("debs/" ++ "pkg_1.0_arm.x.deb")
     (parse_filenames_from_packages
        (new_stanza ("Package: pkg" ++ [LF] ++ "Filename: pkg_1.0_arm.deb") plan)).
Proof.
  intros plan.
  apply reader_strips_written_prefix;
    [reflexivity|reflexivity|reflexivity|discriminate].
Defined.

(* ================================================================== *)
(** * The downloader: retries, candidates and counts *)

Lemma backoff_snoc (P : platform) (url : str) (delay : duration P)
    (a f : nat) :
  backoff P url delay a (S f)
  = [Opened url; Slept (times P delay (a + 1))]
    ++ backoff P url delay (S a) f.
Proof. reflexivity. Qed.

(** The loop of [fetch_bytes] with at least one iteration left, on a URL
    that [Request] accepts and with pauses that [time.sleep] accepts. *)
Lemma fetch_loop_spec (P : platform) (url : str) (retries : Z)
    (delay : duration P) :
  request_ok P url = true ->
  (forall k, sleepable P (times P delay k) = true) ->
  forall n a last h,
    (Z.of_nat a + Z.of_nat n = retries + 1)%Z -> 0 < n ->
    exists f,
      f < n
      /\ snd (fetch_loop P url retries delay n a last h)
         = h ++ backoff P url delay a f ++ [Opened url]
      /\ (forall j, j < f ->
            exists e, urlopen P (h ++ backoff P url delay a j) url = inl e)
      /\ match fst (fetch_loop P url retries delay n a last h) with
         | inr data =>
             urlopen P (h ++ backoff P url delay a f) url = inr data
         | inl r =>
             S f = n
             /\ exists e, r = UrlopenError e
                  /\ urlopen P (h ++ backoff P url delay a f) url = inl e
         end.
Proof.
  intros Hreq Hsleep n. induction n as [|n IH]; intros a last h Hsum Hpos.
  - lia.
  - cbn [fetch_loop]. rewrite Hreq.
    destruct (urlopen P h url) as [ex|data] eqn:Eopen.
    + destruct (Z.ltb_spec (Z.of_nat a) retries) as [Hlt|Hge].
      * rewrite Hsleep.
        destruct (IH (S a) (Some ex)
                    (h ++ [Opened url] ++ [Slept (times P delay (a + 1))]))
          as [f [Hf [Hh [Hfail Hres]]]]; [lia | lia |].
        exists (S f). split; [lia|]. split; [|split].
        -- rewrite Hh, backoff_snoc. now rewrite <- !app_assoc.
        -- intros [|j] Hj.
           ++ exists ex. cbn. now rewrite app_nil_r.
           ++ destruct (Hfail j) as [e He]; [lia|]. exists e.
              rewrite backoff_snoc. rewrite <- He. f_equal.
              now rewrite <- !app_assoc.
        -- destruct (fst (fetch_loop P url retries delay n (S a) (Some ex) _))
             as [r|data].
           ++ destruct Hres as [Hn [e [Hr He]]]. split; [lia|].
              exists e. split; [exact Hr|]. rewrite backoff_snoc.
              rewrite <- He. f_equal. now rewrite <- !app_assoc.
           ++ rewrite backoff_snoc. rewrite <- Hres. f_equal.
              now rewrite <- !app_assoc.
      * exists 0. cbn. rewrite app_nil_r. split; [lia|].
        split; [reflexivity|]. split; [intros j Hj; lia|].
        split; [lia|]. exists ex. now split.
    + exists 0. cbn. rewrite app_nil_r. split; [lia|].
      split; [reflexivity|]. split; [intros j Hj; lia|]. exact Eopen.
Qed.

(** Whatever the platform does, [fetch_bytes] only sends requests for
    its URL and pauses; the data it returns is the reply to its last
    request. *)
Lemma fetch_loop_trace (P : platform) (url : str) (retries : Z)
    (delay : duration P) :
  forall n a last h,
    exists t,
      snd (fetch_loop P url retries delay n a last h) = h ++ t
      /\ Forall (fun ev => requested ev = Some url
                           \/ exists d, ev = Slept d) t
      /\ forall data,
           fst (fetch_loop P url retries delay n a last h) = inr data ->
           exists t0, t = t0 ++ [Opened url]
                      /\ urlopen P (h ++ t0) url = inr data.
Proof.
  induction n as [|n IH]; intros a last h.
  - exists []. cbn. rewrite app_nil_r. split; [reflexivity|].
    split; [constructor|]. intros data H. discriminate.
  - cbn [fetch_loop]. destruct (request_ok P url).
    + destruct (urlopen P h url) as [ex|data] eqn:Eopen.
      * destruct (Z.of_nat a <? retries)%Z.
        -- destruct (sleepable P (times P delay (a + 1))).
           ++ destruct (IH (S a) (Some ex)
                          (h ++ [Opened url]
                             ++ [Slept (times P delay (a + 1))]))
                as [t [Hh [Ht Hd]]].
              exists ([Opened url; Slept (times P delay (a + 1))] ++ t).
              split; [|split].
              ** rewrite Hh. now rewrite <- !app_assoc.
              ** constructor; [now left|].
                 constructor; [right; now eexists|exact Ht].
              ** intros data Hdata. destruct (Hd data Hdata) as [t0 [E1 E2]].
                 exists ([Opened url; Slept (times P delay (a + 1))] ++ t0).
                 split; [now rewrite E1, <- app_assoc|].
                 rewrite <- E2. f_equal. now rewrite <- !app_assoc.
           ++ exists [Opened url]. cbn. split; [reflexivity|].
              split; [constructor; [now left|constructor]|].
              intros data H. discriminate.
        -- exists [Opened url]. cbn. split; [reflexivity|].
           split; [constructor; [now left|constructor]|].
           intros data H. discriminate.
      * exists [Opened url]. cbn. split; [reflexivity|].
        split; [constructor; [now left|constructor]|].
        intros d H. injection H as <-. exists []. cbn.
        rewrite app_nil_r. now split.
    + exists []. cbn. rewrite app_nil_r. split; [reflexivity|].
      split; [constructor|]. intros data H. discriminate.
Qed.

(** X26: the retries of [fetch_bytes].  With a negative [retries] it
    sends nothing and raises its [RuntimeError]; on a URL that [Request]
    refuses it raises at once.  Otherwise, when [time.sleep] accepts the
    pauses, it sends at most [retries + 1] requests, pauses
    [delay * 1], [delay * 2], ... between them and not after the last,
    returns the first reply it gets and, when all [retries + 1] requests
    fail, raises the error of the last one. *)
Theorem fetch_bytes_retries (P : platform) (url : str) (retries : Z)
    (delay : duration P) (h : history P) :
  ((retries < 0)%Z ->
   fetch_bytes P url retries delay h = (inl UnknownFetchError, h))
  /\ ((0 <= retries)%Z -> request_ok P url = false ->
      fetch_bytes P url retries delay h = (inl UnknownUrlType, h))
  /\ ((0 <= retries)%Z -> request_ok P url = true ->
      (forall k, sleepable P (times P delay k) = true) ->
      exists f,
        (Z.of_nat f <= retries)%Z
        /\ snd (fetch_bytes P url retries delay h)
           = h ++ backoff P url delay 0 f ++ [Opened url]
        /\ (forall j, j < f ->
              exists e,
                urlopen P (h ++ backoff P url delay 0 j) url = inl e)
        /\ match fst (fetch_bytes P url retries delay h) with
           | inr data =>
               urlopen P (h ++ backoff P url delay 0 f) url = inr data
           | inl r =>
               Z.of_nat f = retries
               /\ exists e,
                    r = UrlopenError e
                    /\ urlopen P (h ++ backoff P url delay 0 f) url = inl e
           end).
Proof.
  unfold fetch_bytes. split; [|split].
  - intros Hneg. replace (Z.to_nat (retries + 1)) with 0 by lia. reflexivity.
  - intros Hpos Hreq.
    destruct (Z.to_nat (retries + 1)) as [|n] eqn:En; [lia|].
    cbn [fetch_loop]. now rewrite Hreq.
  - intros Hpos Hreq Hsleep.
    destruct (fetch_loop_spec P url retries delay Hreq Hsleep
                (Z.to_nat (retries + 1)) 0 None h)
      as [f [Hf [Hh [Hfail Hres]]]]; [lia | lia |].
    exists f. split; [lia|]. split; [exact Hh|]. split; [exact Hfail|].
    destruct (fst (fetch_loop P url retries delay _ 0 None h)) as [r|data].
    + destruct Hres as [Hn He]. split; [lia|exact He].
    + exact Hres.
Qed.

Lemma fetch_bytes_retries_witness :
  let url : str := "http://repo/Packages" in
  exists f,
    (Z.of_nat f <= 2)%Z
    /\ snd (fetch_bytes sample_platform url 2 1%Z [])
       = [] ++ backoff sample_platform url 1%Z 0 f ++ [Opened url].
Proof.
  intros url.
  destruct (fetch_bytes_retries sample_platform url 2 1%Z []) as [_ [_ H]].
  destruct H as [f [H1 [H2 _]]].
  - lia.
  - reflexivity.
  - intros k. change ((0 <=? 1 * Z.of_nat k)%Z = true).
    apply Z.leb_le. lia.
  - exists f. split; [exact H1|exact H2].
Defined.

(** The trace of [try_candidates]: requests for the candidates still to
    try, and pauses. *)
Lemma try_candidates_trace (P : platform) (candidates : list str)
    (retries : Z) (delay : duration P) :
  forall rest last h,
    exists t,
      snd (try_candidates P candidates rest retries delay last h) = h ++ t
      /\ Forall (fun ev => (exists u, requested ev = Some u /\ In u rest)
                           \/ exists d, ev = Slept d) t
      /\ match fst (try_candidates P candidates rest retries delay last h)
         with
         | inr (cu, data) =>
             In cu rest
             /\ exists t0, t = t0 ++ [Opened cu]
                           /\ urlopen P (h ++ t0) cu = inr data
         | inl r =>
             exists e, r = FailedToFetch candidates e
                       /\ (e = None -> rest = [] /\ last = None)
         end.
Proof.
  induction rest as [|cu rest IH]; intros last h.
  - exists []. cbn. rewrite app_nil_r. split; [reflexivity|].
    split; [constructor|]. exists last. split; [reflexivity|].
    intros ->. now split.
  - cbn [try_candidates]. unfold fetch_bytes.
    destruct (fetch_loop_trace P cu retries delay
                (Z.to_nat (retries + 1)) 0 None h) as [t1 [Hh1 [Ht1 Hd1]]].
    destruct (fetch_loop P cu retries delay (Z.to_nat (retries + 1)) 0
                None h) as [[ex|data] h1] eqn:Efetch;
      cbn [fst snd] in Hh1, Hd1.
    + destruct (IH (Some ex) h1) as [t2 [Hh2 [Ht2 Hres]]].
      exists (t1 ++ t2). split; [|split].
      * rewrite Hh2, Hh1. now rewrite app_assoc.
      * apply Forall_app. split.
        -- eapply Forall_impl; [|exact Ht1]. intros ev [H|H].
           ++ left. exists cu. split; [exact H|now left].
           ++ now right.
        -- eapply Forall_impl; [|exact Ht2]. intros ev [[u [H1 H2]]|H].
           ++ left. exists u. split; [exact H1|now right].
           ++ now right.
      * destruct (fst (try_candidates P candidates rest retries delay
                         (Some ex) h1)) as [r|[cu' data]].
        -- destruct Hres as [e [Hr He]]. exists e. split; [exact Hr|].
           intros Hnone. destruct (He Hnone) as [_ Hc]. discriminate.
        -- destruct Hres as [Hin [t0 [E1 E2]]]. split; [now right|].
           exists (t1 ++ t0). split; [now rewrite E1, app_assoc|].
           rewrite <- E2. f_equal. rewrite Hh1. now rewrite app_assoc.
    + exists t1. cbn [fst snd]. split; [exact Hh1|]. split.
      * eapply Forall_impl; [|exact Ht1]. intros ev [H|H].
        -- left. exists cu. split; [exact H|now left].
        -- now right.
      * split; [now left|]. now apply Hd1.
Qed.

(** When no request succeeds, [try_candidates] goes through every
    candidate, [retries + 1] requests each. *)
Lemma try_candidates_all_fail (P : platform) (candidates : list str)
    (retries : Z) (delay : duration P) :
  (0 <= retries)%Z ->
  (forall u, In u candidates -> request_ok P u = true) ->
  (forall k, sleepable P (times P delay k) = true) ->
  (forall h u, exists e, urlopen P h u = inl e) ->
  forall rest last h,
    incl rest candidates ->
    snd (try_candidates P candidates rest retries delay last h)
    = h ++ flat_map (fun c => backoff P c delay 0 (Z.to_nat retries)
                              ++ [Opened c]) rest.
Proof.
  intros Hpos Hreq Hsleep Hfail.
  induction rest as [|cu rest IH]; intros last h Hincl.
  - cbn. now rewrite app_nil_r.
  - cbn [try_candidates flat_map]. unfold fetch_bytes.
    assert (Hcu : request_ok P cu = true) by (apply Hreq, Hincl; now left).
    destruct (fetch_loop_spec P cu retries delay Hcu Hsleep
                (Z.to_nat (retries + 1)) 0 None h)
      as [f [Hf [Hh [_ Hres]]]]; [lia | lia |].
    destruct (fetch_loop P cu retries delay (Z.to_nat (retries + 1)) 0
                None h) as [[ex|data] h1] eqn:Efetch;
      cbn [fst snd] in Hh, Hres.
    + destruct Hres as [Hn _].
      assert (f = Z.to_nat retries) by lia. subst f.
      rewrite IH by (intros x Hx; apply Hincl; now right).
      rewrite Hh. now rewrite <- !app_assoc.
    + destruct (Hfail (h ++ backoff P cu delay 0 f) cu) as [e He].
      congruence.
Qed.

Lemma try_candidates_fail (P : platform) (candidates : list str)
    (retries : Z) (delay : duration P) :
  forall rest last h r h',
    try_candidates P candidates rest retries delay last h = (inl r, h') ->
    match rest with
    | [] => r = FailedToFetch candidates last /\ h' = h
    | _ :: _ =>
        exists e t0,
          r = FailedToFetch candidates (Some e)
          /\ fetch_bytes P (List.last rest []) retries delay (h ++ t0)
             = (inl e, h')
    end.
Proof.
  induction rest as [|cu rest IH]; intros last h r h' H.
  - cbn in H. injection H as <- <-. now split.
  - cbn [try_candidates] in H.
    destruct (fetch_loop_trace P cu retries delay
                (Z.to_nat (retries + 1)) 0 None h) as [t1 [Hh1 _]].
    fold (fetch_bytes P cu retries delay h) in Hh1.
    destruct (fetch_bytes P cu retries delay h) as [[ex|data] h1] eqn:Ef;
      [|discriminate].
    cbn [snd] in Hh1. specialize (IH (Some ex) h1 r h' H).
    destruct rest as [|c2 rest].
    + destruct IH as [-> ->]. exists ex, []. split; [reflexivity|].
      rewrite app_nil_r. exact Ef.
    + destruct IH as [e [t0 [Hr Hf]]]. exists e, (t1 ++ t0).
      split; [exact Hr|]. rewrite app_assoc, <- Hh1.
      change (List.last (cu :: c2 :: rest) []) with (List.last (c2 :: rest) []).
      exact Hf.
Qed.

(** X27: the candidates of [try_fetch_packages].  It only sends requests
    for its candidates (the override URL alone when one is given, else
    [Packages.gz], [Packages.bz2] and [Packages] under the base URL
    without its trailing slashes) and pauses.  The URL it returns is a
    candidate and the data is the reply to its last request; when it
    raises, the error names the candidates and the error with which
    [fetch_bytes] failed on the last candidate of the list, that failure
    being the end of the run.  When no request succeeds, every candidate
    is requested [retries + 1] times, in the order of the list. *)
Theorem try_fetch_packages_candidates (P : platform) (base_url : str)
    (override_url : option str) (retries : Z) (delay : duration P)
    (h : history P) :
  let candidates := packages_candidates base_url override_url in
  let run := try_fetch_packages P base_url override_url retries delay h in
  (exists t,
     snd run = h ++ t
     /\ Forall (fun ev => (exists u, requested ev = Some u
                                     /\ In u candidates)
                          \/ exists d, ev = Slept d) t
     /\ (forall o, override_url = Some o -> o <> [] ->
           Forall (fun ev => forall u, requested ev = Some u -> u = o) t)
     /\ match fst run with
        | inr (cu, data) =>
            In cu candidates
            /\ exists t0, t = t0 ++ [Opened cu]
                          /\ urlopen P (h ++ t0) cu = inr data
        | inl r =>
            exists e t0,
              r = FailedToFetch candidates (Some e)
              /\ fetch_bytes P (List.last candidates []) retries delay
                   (h ++ t0) = (inl e, snd run)
        end)
  /\ ((0 <= retries)%Z ->
      (forall u, In u candidates -> request_ok P u = true) ->
      (forall k, sleepable P (times P delay k) = true) ->
      (forall h' u, exists e, urlopen P h' u = inl e) ->
      snd run
      = h ++ flat_map (fun c => backoff P c delay 0 (Z.to_nat retries)
                                ++ [Opened c]) candidates).
Proof.
  intros candidates run. subst run. unfold try_fetch_packages.
  fold candidates. split.
  - destruct (try_candidates_trace P candidates retries delay candidates
                None h) as [t [Hh [Ht Hres]]].
    exists t. split; [exact Hh|]. split; [exact Ht|]. split.
    + intros o Ho Hne. subst override_url. destruct o as [|c o]; [congruence|].
      eapply Forall_impl; [|exact Ht].
      intros ev [[u [H1 H2]]|[d ->]] v Hv.
      * rewrite H1 in Hv. injection Hv as <-.
        destruct H2 as [H2|[]]. now symmetry.
      * discriminate.
    + destruct (fst (try_candidates P candidates candidates retries delay
                       None h)) as [r|[cu data]] eqn:Efst.
      * clear Hres.
        pose proof (try_candidates_fail P candidates retries delay
                      candidates None h) as Hfail.
        destruct (try_candidates P candidates candidates retries delay
                    None h) as [[r'|ok] h'] eqn:Erun; [|discriminate].
        cbn [fst] in Efst. injection Efst as ->. cbn [snd].
        specialize (Hfail r h' eq_refl).
        assert (Hne : candidates <> []).
        { unfold candidates, packages_candidates.
          destruct override_url as [[|c o]|]; discriminate. }
        destruct candidates as [|c0 cs]; [congruence|]. exact Hfail.
      * exact Hres.
  - intros Hpos Hreq Hsleep Hfail.
    apply try_candidates_all_fail; try assumption. apply incl_refl.
Qed.

Lemma try_fetch_packages_candidates_witness :
  snd (try_fetch_packages offline_platform "http://repo/" None 1 1%Z [])
  = [] ++ flat_map (fun c => backoff offline_platform c 1%Z 0 1
                             ++ [Opened c])
            (packages_candidates "http://repo/" None).
Proof.
  apply (proj2 (try_fetch_packages_candidates offline_platform
                  "http://repo/" None 1 1%Z [])).
  - lia.
  - intros u [<-|[<-|[<-|[]]]]; reflexivity.
  - intros k. change ((0 <=? 1 * Z.of_nat k)%Z = true).
    apply Z.leb_le. lia.
  - intros h' u. exists tt. reflexivity.
Defined.

Lemma lstrip_slash_relative (s : str) :
  startswith "/" (lstrip_slash s) = false.
Proof.
  induction s as [|c s IH]; [reflexivity|].
  unfold lstrip_slash. cbn [dropwhile].
  destruct (Ascii.eqb "/" c) eqn:E; [exact IH|].
  unfold startswith, str_eqb. cbn [length firstn lit list_ascii_of_string].
  destruct (list_eq_dec ascii_dec [c] ["/"%char]) as [H|H]; [|reflexivity].
  injection H as ->. now rewrite Ascii.eqb_refl in E.
Qed.

Lemma locate_relative (P : platform) (base rel url rel_norm : str) :
  locate P base rel = Some (url, rel_norm) ->
  startswith "/" rel_norm = false.
Proof.
  unfold locate.
  destruct (startswith "http://" rel || startswith "https://" rel)%bool.
  - destruct (urlparse P rel) as [np|]; [|discriminate].
    intros H. injection H as _ <-. apply lstrip_slash_relative.
  - intros H. injection H as _ <-. apply lstrip_slash_relative.
Qed.

Lemma remaining_nil (max_items : option Z) (idx : nat) :
  remaining max_items idx [] = 0.
Proof. destruct max_items; cbn; lia. Qed.

Lemma remaining_limit (max_items : option Z) (idx : nat) (l : list str) :
  at_limit max_items idx = true -> remaining max_items idx l = 0.
Proof.
  destruct max_items as [m|]; cbn; [|discriminate].
  intros H. apply Z.leb_le in H. lia.
Qed.

Lemma remaining_step (max_items : option Z) (idx : nat) (rel : str)
    (l : list str) :
  at_limit max_items idx = false ->
  remaining max_items idx (rel :: l) = S (remaining max_items (S idx) l).
Proof.
  destruct max_items as [m|]; cbn [at_limit remaining length];
    [|reflexivity].
  intros H. apply Z.leb_gt in H. lia.
Qed.

Lemma download_loop_spec (P : platform) (base : str) (retries : Z)
    (delay : duration P) (dry_run : bool) (max_items : option Z) :
  forall rel_paths idx ok skip fail h,
    exists t,
      snd (download_loop P base retries delay dry_run max_items idx
             rel_paths ok skip fail h) = h ++ t
      /\ Forall (fun ev => forall p, destination ev = Some p ->
                                     startswith "/" p = false) t
      /\ (dry_run = true -> t = [])
      /\ forall ok' skip' fail',
           fst (download_loop P base retries delay dry_run max_items idx
                  rel_paths ok skip fail h) = inr (ok', skip', fail') ->
           let n := remaining max_items idx rel_paths in
           exists dok dskip dfail,
             ok' = ok + dok /\ skip' = skip + dskip /\ fail' = fail + dfail
             /\ (dok + dskip <= n <= dok + dskip + dfail /\ dfail <= n)
             /\ (dry_run = true -> dfail = 0)
             /\ ((positive P delay = true -> sleepable P delay = true) ->
                 dok + dskip + dfail = n).
Proof.
  induction rel_paths as [|rel rest IH]; intros idx ok skip fail h.
  - exists []. cbn [download_loop fst snd]. rewrite app_nil_r.
    split; [reflexivity|]. split; [constructor|]. split; [reflexivity|].
    intros ok' skip' fail' H. injection H as <- <- <-.
    rewrite remaining_nil. exists 0, 0, 0. cbn. lia.
  - cbn [download_loop].
    destruct (at_limit max_items idx) eqn:Elim.
    { exists []. cbn [fst snd]. rewrite app_nil_r.
      split; [reflexivity|]. split; [constructor|]. split; [reflexivity|].
      intros ok' skip' fail' H. injection H as <- <- <-.
      rewrite (remaining_limit _ _ _ Elim). exists 0, 0, 0. cbn. lia. }
    rewrite (remaining_step _ _ rel rest Elim).
    destruct (locate P base rel) as [[url rel_norm]|] eqn:Eloc.
    2:{ exists []. cbn [fst snd]. rewrite app_nil_r.
        split; [reflexivity|]. split; [constructor|].
        split; [reflexivity|]. intros ? ? ? H. discriminate. }
    pose proof (locate_relative P base rel url rel_norm Eloc) as Hrel.
    assert (Hdest : forall ev : event (duration P),
              (ev = MadeParent rel_norm \/ exists d, ev = Wrote rel_norm d) ->
              forall p, destination ev = Some p -> startswith "/" p = false).
    { intros ev [->|[d ->]] p Hp; cbn in Hp; injection Hp as <-; exact Hrel. }
    destruct (out_exists P h rel_norm) as [[|]|].
    3:{ exists []. cbn [fst snd]. rewrite app_nil_r.
        split; [reflexivity|]. split; [constructor|].
        split; [reflexivity|]. intros ? ? ? H. discriminate. }
    + (* the destination exists *)
      destruct (IH (S idx) ok (S skip) fail h) as [t [Hh [Ht [Hdry Hc]]]].
      exists t. split; [exact Hh|]. split; [exact Ht|]. split; [exact Hdry|].
      intros ok' skip' fail' H.
      destruct (Hc ok' skip' fail' H)
        as [dok [dskip [dfail [E1 [E2 [E3 [Hb [Hd Hs]]]]]]]].
      exists dok, (S dskip), dfail.
      repeat split; try lia; try (intros; auto; fail).
      all: try (intros Hsl; specialize (Hs Hsl); lia).
    + destruct dry_run eqn:Edry.
      * destruct (IH (S idx) (S ok) skip fail h) as [t [Hh [Ht [Hdry Hc]]]].
        exists t. split; [exact Hh|]. split; [exact Ht|].
        split; [exact Hdry|].
        intros ok' skip' fail' H.
        destruct (Hc ok' skip' fail' H)
          as [dok [dskip [dfail [E1 [E2 [E3 [Hb [Hd Hs]]]]]]]].
        exists (S dok), dskip, dfail.
        repeat split; try lia; try (intros; auto; fail).
        all: try (intros Hsl; specialize (Hs Hsl); lia).
      * destruct (mkdir_ok P h rel_norm).
        2:{ destruct (IH (S idx) ok skip (S fail)
                        (h ++ [MadeParent rel_norm]))
              as [t [Hh [Ht [Hdry Hc]]]].
            exists ([MadeParent rel_norm] ++ t).
            split; [rewrite Hh; now rewrite <- app_assoc|].
            split; [constructor; [apply Hdest; now left|exact Ht]|].
            split; [discriminate|].
            intros ok' skip' fail' H.
            destruct (Hc ok' skip' fail' H)
              as [dok [dskip [dfail [E1 [E2 [E3 [Hb [Hd Hs]]]]]]]].
            exists dok, dskip, (S dfail).
            repeat split; try lia; try discriminate.
            all: try (intros Hsl; specialize (Hs Hsl); lia). }
        unfold fetch_bytes.
        destruct (fetch_loop_trace P url retries delay
                    (Z.to_nat (retries + 1)) 0 None
                    (h ++ [MadeParent rel_norm])) as [t1 [Hh1 [Ht1 _]]].
        assert (Ht1' : Forall (fun ev : event (duration P) =>
                         forall p, destination ev = Some p ->
                                   startswith "/" p = false) t1).
        { eapply Forall_impl; [|exact Ht1]. intros ev [H|[d ->]] p Hp.
          - destruct ev; discriminate.
          - discriminate. }
        destruct (fetch_loop P url retries delay (Z.to_nat (retries + 1)) 0
                    None (h ++ [MadeParent rel_norm]))
          as [[ex|data] h2] eqn:Efetch; cbn [fst snd] in Hh1.
        -- destruct (IH (S idx) ok skip (S fail) h2)
             as [t [Hh [Ht [Hdry Hc]]]].
           exists ([MadeParent rel_norm] ++ t1 ++ t).
           split; [rewrite Hh, Hh1; now rewrite <- !app_assoc|].
           split; [constructor; [apply Hdest; now left|
                                 apply Forall_app; now split]|].
           split; [discriminate|].
           intros ok' skip' fail' H.
           destruct (Hc ok' skip' fail' H)
             as [dok [dskip [dfail [E1 [E2 [E3 [Hb [Hd Hs]]]]]]]].
           exists dok, dskip, (S dfail).
           repeat split; try lia; try discriminate.
           all: try (intros Hsl; specialize (Hs Hsl); lia).
        -- destruct (write_ok P h2 rel_norm data).
           2:{ destruct (IH (S idx) ok skip (S fail)
                           (h2 ++ [Wrote rel_norm data]))
                 as [t [Hh [Ht [Hdry Hc]]]].
               exists ([MadeParent rel_norm] ++ t1
                         ++ [Wrote rel_norm data] ++ t).
               split; [rewrite Hh, Hh1; now rewrite <- !app_assoc|].
               split.
               { constructor; [apply Hdest; now left|].
                 apply Forall_app. split; [exact Ht1'|].
                 constructor; [apply Hdest; right; now eexists|exact Ht]. }
               split; [discriminate|].
               intros ok' skip' fail' H.
               destruct (Hc ok' skip' fail' H)
                 as [dok [dskip [dfail [E1 [E2 [E3 [Hb [Hd Hs]]]]]]]].
               exists dok, dskip, (S dfail).
               repeat split; try lia; try discriminate.
               all: try (intros Hsl; specialize (Hs Hsl); lia). }
           destruct (positive P delay) eqn:Epos;
             [destruct (sleepable P delay) eqn:Esl|].
           ++ destruct (IH (S idx) (S ok) skip fail
                          (h2 ++ [Wrote rel_norm data] ++ [Slept delay]))
                as [t [Hh [Ht [Hdry Hc]]]].
              exists ([MadeParent rel_norm] ++ t1
                        ++ [Wrote rel_norm data] ++ [Slept delay] ++ t).
              split; [rewrite Hh, Hh1; now rewrite <- !app_assoc|].
              split.
              { constructor; [apply Hdest; now left|].
                apply Forall_app. split; [exact Ht1'|].
                constructor; [apply Hdest; right; now eexists|].
                constructor; [discriminate|exact Ht]. }
              split; [discriminate|].
              intros ok' skip' fail' H.
              destruct (Hc ok' skip' fail' H)
                as [dok [dskip [dfail [E1 [E2 [E3 [Hb [Hd Hs]]]]]]]].
              exists (S dok), dskip, dfail.
              repeat split; try lia; try discriminate.
              all: try (intros Hsl; specialize (Hs Hsl); lia).
           ++ destruct (IH (S idx) (S ok) skip (S fail)
                          (h2 ++ [Wrote rel_norm data]))
                as [t [Hh [Ht [Hdry Hc]]]].
              exists ([MadeParent rel_norm] ++ t1
                        ++ [Wrote rel_norm data] ++ t).
              split; [rewrite Hh, Hh1; now rewrite <- !app_assoc|].
              split.
              { constructor; [apply Hdest; now left|].
                apply Forall_app. split; [exact Ht1'|].
                constructor; [apply Hdest; right; now eexists|exact Ht]. }
              split; [discriminate|].
              intros ok' skip' fail' H.
              destruct (Hc ok' skip' fail' H)
                as [dok [dskip [dfail [E1 [E2 [E3 [Hb [Hd Hs]]]]]]]].
              exists (S dok), dskip, (S dfail).
              repeat split; try lia; try discriminate.
              all: try (intros Hsl; specialize (Hsl eq_refl); discriminate).
           ++ destruct (IH (S idx) (S ok) skip fail
                          (h2 ++ [Wrote rel_norm data]))
                as [t [Hh [Ht [Hdry Hc]]]].
              exists ([MadeParent rel_norm] ++ t1
                        ++ [Wrote rel_norm data] ++ t).
              split; [rewrite Hh, Hh1; now rewrite <- !app_assoc|].
              split.
              { constructor; [apply Hdest; now left|].
                apply Forall_app. split; [exact Ht1'|].
                constructor; [apply Hdest; right; now eexists|exact Ht]. }
              split; [discriminate|].
              intros ok' skip' fail' H.
              destruct (Hc ok' skip' fail' H)
                as [dok [dskip [dfail [E1 [E2 [E3 [Hb [Hd Hs]]]]]]]].
              exists (S dok), dskip, dfail.
              repeat split; try lia; try discriminate.
              all: try (intros Hsl; specialize (Hs Hsl); lia).
Qed.

(** X28: the counts of [download_many].  Every destination it creates
    or writes is a relative path (no leading slash), and a dry run does
    nothing to the outside world.  When it returns [(ok, skip, fail)],
    with [n] the number of entries gone through (all of them, or the
    first [max_items]; none when [max_items] is zero or negative):
    [ok + skip <= n <= ok + skip + fail] and [fail <= n]; a dry run
    reports no failure; and whenever the pause after a download is one
    that [time.sleep] accepts, each entry is counted once:
    [ok + skip + fail = n]. *)
Theorem download_many_counts (P : platform) (base_url : str)
    (rel_paths : list str) (retries : Z) (delay : duration P)
    (dry_run : bool) (max_items : option Z) (h : history P) :
  let run := download_many P base_url rel_paths retries delay dry_run
               max_items h in
  exists t,
    snd run = h ++ t
    /\ Forall (fun ev => forall p, destination ev = Some p ->
                                   startswith "/" p = false) t
    /\ (dry_run = true -> t = [])
    /\ forall ok skip fail,
         fst run = inr (ok, skip, fail) ->
         let n := processed max_items rel_paths in
         ok + skip <= n <= ok + skip + fail
         /\ fail <= n
         /\ (dry_run = true -> fail = 0)
         /\ ((positive P delay = true -> sleepable P delay = true) ->
             ok + skip + fail = n).
Proof.
  intros run. subst run. unfold download_many.
  destruct (download_loop_spec P (rstrip_slash base_url) retries delay
              dry_run max_items rel_paths 0 0 0 0 h) as [t [Hh [Ht [Hd Hc]]]].
  exists t. split; [exact Hh|]. split; [exact Ht|]. split; [exact Hd|].
  intros ok skip fail H.
  destruct (Hc ok skip fail H)
    as [dok [dskip [dfail [E1 [E2 [E3 [[Hb Hf] [Hdry Hs]]]]]]]].
  cbn in E1, E2, E3. subst dok dskip dfail.
  assert (En : remaining max_items 0 rel_paths = processed max_items rel_paths).
  { unfold remaining, processed. destruct max_items; [|reflexivity].
    now rewrite Nat.sub_0_r. }
  rewrite En in *. cbv zeta.
  split; [exact Hb|]. split; [exact Hf|]. split; [exact Hdry|exact Hs].
Qed.

Lemma download_many_counts_witness :
  exists ok skip fail,
    fst (download_many sample_platform "http://repo/"
           ["a.deb" : str; "/b.deb" : str] 0 1%Z false None [])
    = inr (ok, skip, fail)
    /\ ok + skip + fail = 2.
Proof.
  exists 1, 0, 1. split; [reflexivity|].
  destruct (download_many_counts sample_platform "http://repo/"
              ["a.deb" : str; "/b.deb" : str] 0 1%Z false None [])
    as [t [_ [_ [_ H]]]].
  apply (H 1 0 1).
  - reflexivity.
  - reflexivity.
Defined.

(* ================================================================== *)
(** * The token of the bot *)

Lemma splitlines_lf (l rest : str) :
  no_break l = true -> splitlines (l ++ [LF] ++ rest) = l :: splitlines rest.
Proof.
  induction l as [|c l IH]; intros H.
  - cbn [app splitlines]. destruct rest; reflexivity.
  - simpl in H. apply andb_prop in H as [Hc Hl]. apply negb_true_iff in Hc.
    cbn [app splitlines]. rewrite Hc.
    change (l ++ LF :: rest) with (l ++ [LF] ++ rest).
    rewrite (IH Hl). reflexivity.
Qed.

Lemma rstrip_all_space (w : str) :
  Forall (fun c => isspace c = true) w -> rstrip w = [].
Proof.
  intros H. rewrite <- (app_nil_l w). rewrite rstrip_app_space by exact H.
  reflexivity.
Qed.

(** [rstrip] stops at a character that is not white space. *)
Lemma rstrip_after_nonspace (a : str) (c : ascii) (x : str) :
  isspace c = false -> rstrip (a ++ c :: x) = a ++ c :: rstrip x.
Proof.
  intros Hc. destruct (rstrip_split x) as [w [Hx Hw]].
  rewrite Hx at 1.
  change (a ++ c :: rstrip x ++ w) with (a ++ (c :: rstrip x) ++ w).
  rewrite app_assoc, rstrip_app_space by exact Hw.
  apply rstrip_fix. apply last_nonspace_app.
  destruct (rstrip_last x) as [E|[x0 [z [E Hz]]]].
  - rewrite E. exists [], c. now split.
  - rewrite E. exists (c :: x0), z. now split.
Qed.

Lemma strip_chr_fix (c : ascii) (s : str) :
  hd_error s <> Some c -> hd_error (rev s) <> Some c -> strip_chr c s = s.
Proof.
  intros Hh Hl. unfold strip_chr.
  rewrite (dropwhile_fix _ s).
  - rewrite (dropwhile_fix _ (rev s)); [apply rev_involutive|].
    destruct (rev s) as [|z r]; [exact I|].
    destruct (Ascii.eqb c z) eqn:E; [|reflexivity].
    apply Ascii.eqb_eq in E. subst z. now elim Hl.
  - destruct s as [|a s]; [exact I|].
    destruct (Ascii.eqb c a) eqn:E; [|reflexivity].
    apply Ascii.eqb_eq in E. subst a. now elim Hh.
Qed.

Lemma strip_chr_quoted (c : ascii) (t : str) :
  hd_error t <> Some c -> hd_error (rev t) <> Some c ->
  strip_chr c (c :: t ++ [c]) = t.
Proof.
  intros Hh Hl. unfold strip_chr. cbn [dropwhile]. rewrite Ascii.eqb_refl.
  destruct t as [|a t].
  - cbn. now rewrite Ascii.eqb_refl.
  - assert (Ea : Ascii.eqb c a = false).
    { destruct (Ascii.eqb c a) eqn:E; [|reflexivity].
      apply Ascii.eqb_eq in E. subst a. now elim Hh. }
    cbn [app dropwhile]. rewrite Ea.
    change (a :: t ++ [c]) with ((a :: t) ++ [c]).
    rewrite rev_app_distr. cbn [rev app dropwhile]. rewrite Ascii.eqb_refl.
    change (rev t ++ [a]) with (rev (a :: t)).
    rewrite (dropwhile_fix _ (rev (a :: t))); [apply rev_involutive|].
    destruct (rev (a :: t)) as [|z r]; [exact I|].
    destruct (Ascii.eqb c z) eqn:E; [|reflexivity].
    apply Ascii.eqb_eq in E. subst z. now elim Hl.
Qed.

(** What [strip(c)] returns neither starts nor ends with [c]. *)
Lemma strip_chr_ends (c : ascii) (s : str) :
  hd_error (strip_chr c s) <> Some c
  /\ hd_error (rev (strip_chr c s)) <> Some c.
Proof.
  unfold strip_chr. rewrite rev_involutive.
  pose proof (dropwhile_head (Ascii.eqb c) s) as H1.
  pose proof (dropwhile_head (Ascii.eqb c) (rev (dropwhile (Ascii.eqb c) s)))
    as H2.
  destruct (dropwhile_split (Ascii.eqb c) (rev (dropwhile (Ascii.eqb c) s)))
    as [w [Hs Hw]].
  set (d := dropwhile (Ascii.eqb c) (rev (dropwhile (Ascii.eqb c) s))) in *.
  split.
  - apply (f_equal (@rev ascii)) in Hs.
    rewrite rev_involutive, rev_app_distr in Hs.
    destruct (rev d) as [|a r] eqn:Er; [discriminate|].
    rewrite Hs in H1. cbn in H1. cbn. intros E. injection E as ->.
    now rewrite Ascii.eqb_refl in H1.
  - destruct d as [|z r]; [discriminate|]. cbn. intros E. injection E as ->.
    now rewrite Ascii.eqb_refl in H2.
Qed.

Lemma no_break_dropwhile (p : ascii -> bool) (s : str) :
  no_break s = true -> no_break (dropwhile p s) = true.
Proof.
  induction s as [|c s IH]; cbn; [reflexivity|].
  intros H. apply andb_prop in H as [Hc Hs].
  destruct (p c); [now apply IH|]. cbn. now rewrite Hc, Hs.
Qed.

Lemma no_break_rev (s : str) : no_break (rev s) = no_break s.
Proof.
  unfold no_break. apply eq_true_iff_eq. rewrite !forallb_forall.
  split; intros H x Hx; apply H; [now apply in_rev in Hx | now apply in_rev].
Qed.

Lemma no_break_strip (s : str) : no_break s = true -> no_break (strip s) = true.
Proof.
  intros H. unfold strip, rstrip, lstrip.
  rewrite no_break_rev. apply no_break_dropwhile. rewrite no_break_rev.
  now apply no_break_dropwhile.
Qed.

Lemma no_break_strip_chr (c : ascii) (s : str) :
  no_break s = true -> no_break (strip_chr c s) = true.
Proof.
  intros H. unfold strip_chr.
  rewrite no_break_rev. apply no_break_dropwhile. rewrite no_break_rev.
  now apply no_break_dropwhile.
Qed.

Lemma no_break_after_first (c : ascii) (s : str) :
  no_break s = true -> no_break (after_first c s) = true.
Proof.
  induction s as [|a s IH]; cbn; [reflexivity|].
  intros H. apply andb_prop in H as [Ha Hs].
  destruct (Ascii.eqb a c); [exact Hs|now apply IH].
Qed.

Lemma env_line_token_shape (line v : str) :
  no_break line = true -> env_line_token line = Some v ->
  hd_error v <> Some SQUOTE /\ hd_error (rev v) <> Some SQUOTE
  /\ no_break v = true.
Proof.
  intros Hnb. unfold env_line_token.
  destruct (strip line) as [|c l] eqn:Es; [discriminate|].
  destruct (startswith "#" (c :: l)); [discriminate|].
  destruct (contains_char "=" (c :: l)); [|discriminate].
  destruct (str_eqb _ _); [|discriminate].
  intros H. injection H as <-.
  destruct (strip_chr_ends SQUOTE
              (strip_chr DQUOTE (strip (after_first "=" (c :: l)))))
    as [H1 H2].
  split; [exact H1|]. split; [exact H2|].
  apply no_break_strip_chr, no_break_strip_chr, no_break_strip.
  apply (no_break_after_first "=" (c :: l)).
  rewrite <- Es. now apply no_break_strip.
Qed.

Lemma first_token_shape (lines : list str) (v : str) :
  Forall (fun x => no_break x = true) lines -> first_token lines = Some v ->
  hd_error v <> Some SQUOTE /\ hd_error (rev v) <> Some SQUOTE
  /\ no_break v = true.
Proof.
  induction 1 as [|line lines Hl _ IH]; cbn [first_token]; [discriminate|].
  destruct (env_line_token line) as [w|] eqn:E; [|exact IH].
  intros H. injection H as <-. exact (env_line_token_shape line w Hl E).
Qed.

Lemma blank_space (w : str) :
  Forall (fun c => is_blank c = true) w ->
  Forall (fun c => isspace c = true) w /\ no_break w = true.
Proof.
  induction 1 as [|c w Hc _ [IH1 IH2]]; [split; [constructor|reflexivity]|].
  unfold is_blank in Hc. apply andb_prop in Hc as [H1 H2].
  split; [now constructor|]. unfold no_break in *. cbn [forallb].
  rewrite H2. exact IH2.
Qed.

Lemma bare_ends (t : str) (c : ascii) :
  bare t = true -> plain_end c = false ->
  hd_error t <> Some c /\ hd_error (rev t) <> Some c.
Proof.
  unfold bare. destruct t as [|a t]; [intros _ _; split; discriminate|].
  intros H Hc. apply andb_prop in H as [Ha Hz]. split.
  - cbn. intros E. injection E as ->. congruence.
  - destruct (exists_last (l := a :: t)) as [x0 [z E]]; [discriminate|].
    rewrite E in Hz |- *. rewrite last_last in Hz.
    rewrite rev_app_distr. cbn. intros E'. injection E' as ->. congruence.
Qed.

Lemma bare_trimmed (t : str) :
  bare t = true -> t <> [] -> head_nonspace t /\ last_nonspace t.
Proof.
  unfold bare. destruct t as [|a t]; [congruence|]. intros H _.
  apply andb_prop in H as [Ha Hz]. split.
  - cbn. unfold plain_end in Ha. apply negb_true_iff in Ha.
    now destruct (isspace a).
  - destruct (exists_last (l := a :: t)) as [x0 [z E]]; [discriminate|].
    rewrite E in Hz |- *. rewrite last_last in Hz. exists x0, z.
    split; [reflexivity|]. unfold plain_end in Hz. apply negb_true_iff in Hz.
    now destruct (isspace z).
Qed.

(** The value read from an assignment of the token: the key between
    blanks, the equals sign, and a bare text given as it is or in double
    or single quotes. *)
Lemma env_line_token_assignment (sp1 sp2 sp3 sp4 q t : str) :
  Forall (fun c => isspace c = true) sp1 ->
  Forall (fun c => isspace c = true) sp2 ->
  Forall (fun c => isspace c = true) sp3 ->
  Forall (fun c => isspace c = true) sp4 ->
  q = [] \/ q = [DQUOTE] \/ q = [SQUOTE] ->
  bare t = true ->
  env_line_token (sp1 ++ "TELEGRAM_BOT_TOKEN" ++ sp2 ++ "=" ++ sp3
                      ++ q ++ t ++ q ++ sp4) = Some t.
Proof.
  intros H1 H2 H3 H4 Hq Ht.
  set (KEY := lit "TELEGRAM_BOT_TOKEN").
  set (V := q ++ t ++ q).
  assert (HV : strip (match V with [] => [] | _ :: _ => sp3 ++ V end) = V
               /\ rstrip (sp3 ++ V ++ sp4) = match V with
                                             | [] => []
                                             | _ :: _ => sp3 ++ V
                                             end).
  { destruct V as [|a V'] eqn:EV.
    - cbn [app]. split; [reflexivity|].
      apply rstrip_all_space. apply Forall_app. now split.
    - rewrite <- EV.
      assert (Hends : head_nonspace V /\ last_nonspace V).
      { subst V. destruct Hq as [-> | [-> | ->]].
        - cbn [app] in *. rewrite app_nil_r in *. apply bare_trimmed.
          + exact Ht.
          + intros ->. discriminate.
        - split; [reflexivity|].
          exists (DQUOTE :: t), DQUOTE. now split.
        - split; [reflexivity|].
          exists (SQUOTE :: t), SQUOTE. now split. }
      destruct Hends as [Hh Hl]. split.
      + unfold strip. rewrite lstrip_spaces by assumption.
        now apply rstrip_fix.
      + rewrite app_assoc, rstrip_app_space by exact H4.
        apply rstrip_fix, last_nonspace_app, Hl. }
  destruct HV as [HV1 HV2].
  assert (Hline : strip (sp1 ++ KEY ++ sp2 ++ "=" ++ sp3 ++ V ++ sp4)
                  = KEY ++ sp2 ++ "=" ++ rstrip (sp3 ++ V ++ sp4)).
  { unfold strip. rewrite lstrip_spaces; [|exact H1|reflexivity].
    change (KEY ++ sp2 ++ "=" ++ sp3 ++ V ++ sp4)
      with (KEY ++ sp2 ++ "="%char :: sp3 ++ V ++ sp4).
    rewrite app_assoc. rewrite rstrip_after_nonspace by reflexivity.
    now rewrite <- app_assoc. }
  assert (Hsp : forall w rest, Forall (fun c => isspace c = true) w ->
            before_first "=" (w ++ "="%char :: rest) = w
            /\ after_first "=" (w ++ "="%char :: rest) = rest
            /\ contains_char "=" (w ++ "="%char :: rest) = true).
  { intros w rest Hw. induction Hw as [|c w Hc _ IH].
    - now cbn.
    - destruct IH as [I1 [I2 I3]].
      assert (Ec : Ascii.eqb c "=" = false).
      { destruct (Ascii.eqb c "=") eqn:E; [|reflexivity].
        apply Ascii.eqb_eq in E. subst c. discriminate. }
      cbn [app before_first after_first contains_char existsb].
      rewrite Ec, I1, I2. split; [reflexivity|]. split; [reflexivity|].
      unfold contains_char in I3. rewrite I3. apply orb_true_r. }
  unfold env_line_token.
  change (sp1 ++ "TELEGRAM_BOT_TOKEN" ++ sp2 ++ "=" ++ sp3 ++ q ++ t ++ q
              ++ sp4)
    with (sp1 ++ KEY ++ sp2 ++ "=" ++ sp3 ++ (q ++ t ++ q ++ sp4)).
  replace (q ++ t ++ q ++ sp4) with (V ++ sp4)
    by (unfold V; now rewrite <- !app_assoc).
  rewrite Hline.
  set (R := rstrip (sp3 ++ V ++ sp4)) in *.
  destruct (Hsp sp2 R H2) as [B1 [B2 B3]].
  change (KEY ++ sp2 ++ "=" ++ R)
    with ("T"%char :: (skipn 1 KEY ++ sp2 ++ "="%char :: R)).
  cbv iota beta.
  change ("T"%char :: (skipn 1 KEY ++ sp2 ++ "="%char :: R))
    with (KEY ++ sp2 ++ "="%char :: R).
  assert (Hstart : startswith "#" (KEY ++ sp2 ++ "="%char :: R) = false)
    by reflexivity.
  rewrite Hstart.
  assert (Hkey : before_first "=" (KEY ++ sp2 ++ "="%char :: R) = KEY ++ sp2
                 /\ after_first "=" (KEY ++ sp2 ++ "="%char :: R) = R
                 /\ contains_char "=" (KEY ++ sp2 ++ "="%char :: R) = true).
  { cbn [KEY lit list_ascii_of_string app before_first after_first
         contains_char existsb Ascii.eqb Bool.eqb orb].
    rewrite B1, B2. split; [reflexivity|]. split; [reflexivity|].
    exact B3. }
  destruct Hkey as [K1 [K2 K3]]. rewrite K3, K1, K2.
  rewrite (strip_key_space KEY sp2 eq_refl H2). rewrite str_eqb_refl.
  f_equal.
  assert (HR : strip R = V) by (rewrite HV2; exact HV1).
  rewrite HR. unfold V.
  assert (Pd : plain_end DQUOTE = false) by reflexivity.
  assert (Ps : plain_end SQUOTE = false) by reflexivity.
  destruct (bare_ends t DQUOTE Ht Pd) as [D1 D2].
  destruct (bare_ends t SQUOTE Ht Ps) as [S1 S2].
  destruct Hq as [-> | [-> | ->]].
  - cbn [app]. rewrite app_nil_r.
    rewrite (strip_chr_fix DQUOTE t D1 D2). apply strip_chr_fix; assumption.
  - change ([DQUOTE] ++ t ++ [DQUOTE]) with (DQUOTE :: t ++ [DQUOTE]).
    rewrite (strip_chr_quoted DQUOTE t D1 D2). apply strip_chr_fix; assumption.
  - change ([SQUOTE] ++ t ++ [SQUOTE]) with (SQUOTE :: t ++ [SQUOTE]).
    rewrite (strip_chr_fix DQUOTE).
    + apply strip_chr_quoted; assumption.
    + discriminate.
    + change (SQUOTE :: t ++ [SQUOTE]) with ((SQUOTE :: t) ++ [SQUOTE]).
      rewrite rev_app_distr. discriminate.
Qed.

Lemma parse_env_file_first_line (line rest : str) :
  no_break line = true ->
  _parse_env_file (Some (line ++ [LF] ++ rest))
  = match env_line_token line with
    | Some v => Some v
    | None => _parse_env_file (Some rest)
    end.
Proof.
  intros H. unfold _parse_env_file. rewrite (splitlines_lf line rest H).
  reflexivity.
Qed.

(** X29: the token read from a [.env] file by [_parse_env_file].  A
    value it returns holds no line boundary and neither starts nor ends
    with a single quote.  When the first line assigns
    [TELEGRAM_BOT_TOKEN], with blanks around the key, the equals sign
    and the value, a text that neither starts nor ends with white space
    or a quote, written as it is or inside double or single quotes, that
    text is returned, whatever follows in the file: also when it is
    empty.  A first line that starts with [#] is passed over. *)
Theorem parse_env_file_token :
  (forall p v,
     _parse_env_file p = Some v ->
     hd_error v <> Some SQUOTE /\ hd_error (rev v) <> Some SQUOTE
     /\ no_break v = true)
  /\ (forall sp1 sp2 sp3 sp4 q t rest,
        Forall (fun c => is_blank c = true) (sp1 ++ sp2 ++ sp3 ++ sp4) ->
        In q [[]; [DQUOTE]; [SQUOTE]] ->
        bare t = true -> no_break t = true ->
        _parse_env_file
          (Some (sp1 ++ "TELEGRAM_BOT_TOKEN" ++ sp2 ++ "=" ++ sp3
                     ++ q ++ t ++ q ++ sp4 ++ [LF] ++ rest))
        = Some t)
  /\ (forall note rest,
        no_break note = true ->
        _parse_env_file (Some ("#" ++ note ++ [LF] ++ rest))
        = _parse_env_file (Some rest)).
Proof.
  split; [|split].
  - intros [text|] v H; [|discriminate]. cbn [_parse_env_file] in H.
    exact (first_token_shape _ v (splitlines_no_break text) H).
  - intros sp1 sp2 sp3 sp4 q t rest Hsp Hq Ht Hnb.
    apply Forall_app in Hsp as [Hs1 Hsp].
    apply Forall_app in Hsp as [Hs2 Hsp].
    apply Forall_app in Hsp as [Hs3 Hs4].
    destruct (blank_space sp1 Hs1) as [W1 N1].
    destruct (blank_space sp2 Hs2) as [W2 N2].
    destruct (blank_space sp3 Hs3) as [W3 N3].
    destruct (blank_space sp4 Hs4) as [W4 N4].
    assert (Hq' : q = [] \/ q = [DQUOTE] \/ q = [SQUOTE]).
    { destruct Hq as [<-|[<-|[<-|[]]]]; auto. }
    assert (Nq : no_break q = true).
    { destruct Hq' as [-> | [-> | ->]]; reflexivity. }
    pose proof (env_line_token_assignment sp1 sp2 sp3 sp4 q t
                  W1 W2 W3 W4 Hq' Ht) as Hline.
    pose proof (parse_env_file_first_line
                  (sp1 ++ "TELEGRAM_BOT_TOKEN" ++ sp2 ++ "=" ++ sp3
                       ++ q ++ t ++ q ++ sp4) rest) as Hfile.
    rewrite Hline in Hfile. cbv beta iota in Hfile. rewrite <- Hfile.
    + f_equal. f_equal. now rewrite <- !app_assoc.
    + rewrite !no_break_app, N1, N2, N3, N4, Nq, Hnb. reflexivity.
  - intros note rest Hnb.
    pose proof (parse_env_file_first_line ("#" ++ note) rest) as Hfile.
    assert (Hline : env_line_token ("#" ++ note) = None).
    { unfold env_line_token.
      assert (Hs : strip ("#" ++ note) = "#"%char :: rstrip note).
      { unfold strip, lstrip.
        change ("#" ++ note) with ("#"%char :: note). cbn [dropwhile].
        change (isspace "#") with false. cbv iota.
        apply (rstrip_after_nonspace [] "#" note). reflexivity. }
      rewrite Hs. reflexivity. }
    rewrite Hline in Hfile. cbv beta iota in Hfile. apply Hfile.
    rewrite no_break_app, Hnb. reflexivity.
Qed.

Lemma parse_env_file_token_witness :
  _parse_env_file
    (Some ("TELEGRAM_BOT_TOKEN = " ++ [DQUOTE] ++ "123:abc" ++ [DQUOTE]
             ++ [LF] ++ "OTHER=1"))
  = Some ("123:abc" : str).
Proof.
  apply (proj1 (proj2 parse_env_file_token)
           [] " " " " [] [DQUOTE] "123:abc" "OTHER=1").
  - repeat constructor.
  - right. left. reflexivity.
  - reflexivity.
  - reflexivity.
Defined.

(** X30: where [load_token] takes the token from.  It returns a token
    together with its source or neither, and never an empty token.  A
    non-blank inline constant wins over everything else; the variable
    of the environment comes next and is taken as it is, not trimmed.
    It returns nothing exactly when the inline constant is blank, the
    variable unset or empty, [bot_token.txt] missing or blank, and
    neither [.env] file gives a non-empty value.  A [.env] file whose
    first assignment of the token is empty counts as giving none, also
    when a later line assigns one. *)
Theorem load_token_sources (INLINE_BOT_TOKEN : str) (env_token : option str)
    (bot_token_txt dot_env tools_dot_env : option str) :
  let run := load_token INLINE_BOT_TOKEN env_token bot_token_txt dot_env
               tools_dot_env in
  match run with
  | (Some tok, Some src) =>
      tok <> []
      /\ (src = SrcEnv -> env_token = Some tok)
      /\ (src = SrcInline \/ src = SrcBotTokenTxt -> strip tok = tok)
  | (None, None) => True
  | _ => False
  end
  /\ (strip INLINE_BOT_TOKEN <> [] ->
      run = (Some (strip INLINE_BOT_TOKEN), Some SrcInline))
  /\ (strip INLINE_BOT_TOKEN = [] -> truthy env_token = true ->
      run = (env_token, Some SrcEnv))
  /\ (run = (None, None) <->
      strip INLINE_BOT_TOKEN = [] /\ truthy env_token = false
      /\ (forall text, bot_token_txt = Some text -> strip text = [])
      /\ truthy (_parse_env_file dot_env) = false
      /\ truthy (_parse_env_file tools_dot_env) = false)
  /\ (forall rest,
        dot_env = Some ("TELEGRAM_BOT_TOKEN=" ++ [LF] ++ rest) ->
        run = load_token INLINE_BOT_TOKEN env_token bot_token_txt None
                tools_dot_env).
Proof.
  intros run. subst run. unfold load_token.
  split; [|split; [|split; [|split]]].
  - destruct (strip INLINE_BOT_TOKEN) as [|? ?] eqn:Ei.
    + destruct bot_token_txt as [text|];
        [destruct (strip text) as [|? ?] eqn:Eb|];
        destruct env_token as [[|? ?]|]; cbn [truthy];
        try (split; [discriminate|]; split; [reflexivity|];
             intros [H|H]; discriminate);
        try (split; [discriminate|]; split; [discriminate|];
             intros _; rewrite <- Eb; apply strip_idem);
        destruct (_parse_env_file dot_env) as [[|? ?]|];
        destruct (_parse_env_file tools_dot_env) as [[|? ?]|];
        try exact I;
        (split; [discriminate|]; split; [discriminate|];
         intros [H|H]; discriminate).
    + split; [discriminate|]. split; [discriminate|]. intros _.
      rewrite <- Ei. apply strip_idem.
  - intros H. destruct (strip INLINE_BOT_TOKEN); [congruence|reflexivity].
  - intros -> ->. reflexivity.
  - destruct (strip INLINE_BOT_TOKEN) as [|? ?] eqn:Ei.
    2:{ split; [discriminate|]. intros [H _]. discriminate. }
    destruct (truthy env_token) eqn:Ee.
    { split.
      - intros H. injection H as -> _. discriminate.
      - intros [_ [H _]]. discriminate. }
    destruct bot_token_txt as [text|].
    + destruct (strip text) as [|c0 tok0] eqn:Eb.
      * destruct (_parse_env_file dot_env) as [[|? ?]|];
          destruct (_parse_env_file tools_dot_env) as [[|? ?]|];
          cbn [truthy];
          (split;
           [intros H; try discriminate;
            refine (conj eq_refl (conj eq_refl (conj _ (conj eq_refl eq_refl))));
            intros t E; injection E as <-; exact Eb
           |intros [_ [_ [_ [H1 H2]]]]; try discriminate; reflexivity]).
      * split; [discriminate|]. intros [_ [_ [H _]]].
        specialize (H text eq_refl). congruence.
    + destruct (_parse_env_file dot_env) as [[|? ?]|];
        destruct (_parse_env_file tools_dot_env) as [[|? ?]|];
        cbn [truthy];
        (split;
         [intros H; try discriminate;
          refine (conj eq_refl (conj eq_refl (conj _ (conj eq_refl eq_refl))));
          intros t E; discriminate
         |intros [_ [_ [_ [H1 H2]]]]; try discriminate; reflexivity]).
  - intros rest ->.
    assert (E : _parse_env_file
                  (Some ("TELEGRAM_BOT_TOKEN=" ++ [LF] ++ rest)) = Some []).
    { rewrite parse_env_file_first_line by reflexivity. reflexivity. }
    rewrite E. reflexivity.
Qed.

Lemma load_token_sources_witness :
  load_token " " (Some ("42:x" : str)) None None None
  = (Some ("42:x" : str), Some SrcEnv).
Proof.
  apply (proj1 (proj2 (proj2 (load_token_sources " " (Some ("42:x" : str))
                                None None None)))).
  - reflexivity.
  - reflexivity.
Defined.
